(** * Node updater of the Ray autoscaler (python/ray/autoscaler/updater.py)

    A shallow embedding of the two command runners, the address getter and
    the node updater, with the outside world (provider, process runner,
    local file system, clock) as an explicit environment and state.

    - Computations are functions from a state to an outcome: a result or
      an exception together with the new state, or "out of fuel" for the
      two [while] loops, which take the number of rounds they may make.
    - The state holds the clock (whole seconds), the node's tags at the
      provider, the address cached by the SSH runner, the thread's exit
      code, and the history of everything done to the outside world.
    - The environment answers provider queries and process calls as a
      function of the history so far, and says how long each interaction
      takes.
    - The history also marks each entry into a runner method, and keeps
      the log records at warning level and above. *)

From Stdlib Require Import ZArith String Ascii List Lia Bool DecimalString.
Import ListNotations.
Open Scope string_scope.
Open Scope Z_scope.

(* ================================================================== *)
(** * Python strings *)
(* ================================================================== *)

Module PyStr.

(** Characters that cannot be written inside a literal. *)
Definition dquote : ascii := "034"%char.
Definition squote : ascii := "039"%char.
Definition newline : ascii := "010"%char.
Definition nl : string := String newline EmptyString.

(** ["{}".format(n)] for an integer. *)
Definition str_of_Z (z : Z) : string := NilZero.string_of_int (Z.to_int z).

(** [sep.join(l)]. *)
Definition join (sep : string) (l : list string) : string := String.concat sep l.

Fixpoint rev_onto (s acc : string) : string :=
  match s with
  | EmptyString => acc
  | String c s' => rev_onto s' (String c acc)
  end.

Definition rev (s : string) : string := rev_onto s EmptyString.

(** [s.startswith(c)] and [s.endswith(c)] for a one-character [c]. *)
Definition startswith (s : string) (c : ascii) : bool :=
  match s with
  | String d _ => Ascii.eqb d c
  | EmptyString => false
  end.

Definition endswith (s : string) (c : ascii) : bool := startswith (rev s) c.

(** [s[1:]]. *)
Definition tail (s : string) : string :=
  match s with
  | String _ s' => s'
  | EmptyString => EmptyString
  end.

(** [s[:n]]. *)
Definition take (n : nat) (s : string) : string := substring 0 n s.

(** Truthiness of a [str] that may be [None]. *)
Definition truthy (o : option string) : bool :=
  match o with
  | Some (String _ _) => true
  | _ => false
  end.

Fixpoint forallb_str (p : ascii -> bool) (s : string) : bool :=
  match s with
  | EmptyString => true
  | String c s' => p c && forallb_str p s'
  end.

Fixpoint lstrip (c : ascii) (s : string) : string :=
  match s with
  | String d s' => if Ascii.eqb d c then lstrip c s' else s
  | EmptyString => EmptyString
  end.

(** Drops characters up to, and not including, the first [c]. *)
Fixpoint drop_to (c : ascii) (s : string) : string :=
  match s with
  | String d s' => if Ascii.eqb d c then s else drop_to c s'
  | EmptyString => EmptyString
  end.

End PyStr.

(* ================================================================== *)
(** * shlex.quote and posixpath.dirname *)
(* ================================================================== *)

Module Shlex.
Import PyStr.

Definition in_range (lo hi : nat) (c : ascii) : bool :=
  (Nat.leb lo (nat_of_ascii c) && Nat.leb (nat_of_ascii c) hi)%bool.

(** The complement of the class [[^\w@%+=:,./-]] under [re.ASCII]. *)
Definition safe_char (c : ascii) : bool :=
  (in_range 48 57 c || in_range 65 90 c || in_range 97 122 c
   || existsb (Ascii.eqb c)
        ["_"; "@"; "%"; "+"; "="; ":"; ","; "."; "/"; "-"]%char)%bool.

(** [s.replace("'", "'\"'\"'")]. *)
Fixpoint escape_squotes (s : string) : string :=
  match s with
  | EmptyString => EmptyString
  | String c s' =>
      if Ascii.eqb c squote
      then String squote (String dquote (String squote (String dquote
             (String squote (escape_squotes s')))))
      else String c (escape_squotes s')
  end.

Definition quote (s : string) : string :=
  match s with
  | EmptyString => String squote (String squote EmptyString)
  | _ => if forallb_str safe_char s then s
         else String squote (escape_squotes s ++ String squote EmptyString)
  end.

End Shlex.

Module PosixPath.
Import PyStr.

(** [os.path.dirname]: everything up to the last slash, with trailing
    slashes removed unless the head consists of slashes only. *)
Definition dirname (p : string) : string :=
  let head_rev := drop_to "/" (rev p) in
  if forallb_str (Ascii.eqb "/") head_rev then rev head_rev
  else rev (lstrip "/" head_rev).

End PosixPath.

(* ================================================================== *)
(** * Tags, exceptions, events *)
(* ================================================================== *)

(** Modelled from the spec: the tag names and status values imported from
    [ray.autoscaler.tags], a module that is not among the sources.  The
    spec's NodeStatus lists the five status values; the two tag names are
    the status tag and the stored runtime fingerprint.  They are kept as
    distinct opaque constants. *)
Inductive TagKey :=
| TAG_RAY_NODE_STATUS
| TAG_RAY_RUNTIME_CONFIG
| TAG_OTHER (name : string).

Inductive NodeStatus :=
| STATUS_WAITING_FOR_SSH
| STATUS_SYNCING_FILES
| STATUS_SETTING_UP
| STATUS_UP_TO_DATE
| STATUS_UPDATE_FAILED.

Inductive TagValue :=
| VStatus (st : NodeStatus)
| VStr (s : string).

Definition Tags := list (TagKey * TagValue).

Definition TagKey_eqb (a b : TagKey) : bool :=
  match a, b with
  | TAG_RAY_NODE_STATUS, TAG_RAY_NODE_STATUS => true
  | TAG_RAY_RUNTIME_CONFIG, TAG_RAY_RUNTIME_CONFIG => true
  | TAG_OTHER x, TAG_OTHER y => String.eqb x y
  | _, _ => false
  end.

Definition NodeStatus_eqb (a b : NodeStatus) : bool :=
  match a, b with
  | STATUS_WAITING_FOR_SSH, STATUS_WAITING_FOR_SSH
  | STATUS_SYNCING_FILES, STATUS_SYNCING_FILES
  | STATUS_SETTING_UP, STATUS_SETTING_UP
  | STATUS_UP_TO_DATE, STATUS_UP_TO_DATE
  | STATUS_UPDATE_FAILED, STATUS_UPDATE_FAILED => true
  | _, _ => false
  end.

Definition TagValue_eqb (a b : TagValue) : bool :=
  match a, b with
  | VStatus x, VStatus y => NodeStatus_eqb x y
  | VStr x, VStr y => String.eqb x y
  | _, _ => false
  end.

(** [tags.get(k)]. *)
Fixpoint tags_get (k : TagKey) (t : Tags) : option TagValue :=
  match t with
  | [] => None
  | (k', v) :: t' => if TagKey_eqb k k' then Some v else tags_get k t'
  end.

(** [tags[k] = v]. *)
Fixpoint tags_put (k : TagKey) (v : TagValue) (t : Tags) : Tags :=
  match t with
  | [] => [(k, v)]
  | (k', v') :: t' =>
      if TagKey_eqb k k' then (k, v) :: t' else (k', v') :: tags_put k v t'
  end.

(** [tags.update(new)]. *)
Definition tags_update (new : Tags) (t : Tags) : Tags :=
  fold_left (fun acc kv => tags_put (fst kv) (snd kv) acc) new t.

(** What a process runner is called with: a shell string ([shell=True]) or
    an argument vector. *)
Inductive ProcArgs :=
| ShellCommand (s : string)
| Argv (l : list string).

Inductive OSErrorKind :=
| FileNotFoundError
| TimeoutError
| OtherOSError.

(** The exceptions that travel through the module.  All but [SystemExit]
    derive from [Exception]. *)
Inductive Exn :=
| CalledProcessError (returncode : Z) (cmd : ProcArgs)
| TimeoutExpired (cmd : ProcArgs) (timeout : Z)
| OSError (kind : OSErrorKind) (msg : string)
| AssertionError (msg : string)
| ValueError (msg : string)
| TypeError (msg : string)
| AttributeError (msg : string)
| Exception (msg : string)
| ClickException (message : string)
| SystemExit (code : Z).

(** [isinstance(e, Exception)]. *)
Definition is_Exception (e : Exn) : bool :=
  match e with
  | SystemExit _ => false
  | _ => true
  end.

(** [isinstance(e, subprocess.CalledProcessError)]. *)
Definition is_CalledProcessError (e : Exn) : bool :=
  match e with
  | CalledProcessError _ _ => true
  | _ => false
  end.

(** [hasattr(e, "cmd")]: both subprocess errors carry the command. *)
Definition hasattr_cmd (e : Exn) : option ProcArgs :=
  match e with
  | CalledProcessError _ c => Some c
  | TimeoutExpired c _ => Some c
  | _ => None
  end.

(** [e.returncode], an attribute of [CalledProcessError] only. *)
Definition getattr_returncode (e : Exn) : option Z :=
  match e with
  | CalledProcessError rc _ => Some rc
  | _ => None
  end.

(** [str(e)] for the exceptions that are built from one message. *)
Definition str_exn (e : Exn) : string :=
  match e with
  | OSError _ m | AssertionError m | ValueError m | TypeError m
  | AttributeError m | Exception m | ClickException m => m
  | SystemExit c => PyStr.str_of_Z c
  | CalledProcessError _ _ | TimeoutExpired _ _ => ""
  end.

(** [" ".join(e.cmd)]: joining a [str] puts a space between its
    characters, joining a list puts one between its elements. *)
Fixpoint spaced (s : string) : string :=
  match s with
  | EmptyString => EmptyString
  | String c EmptyString => s
  | String c s' => String c (String " " (spaced s'))
  end.

Definition join_cmd (c : ProcArgs) : string :=
  match c with
  | ShellCommand s => spaced s
  | Argv l => PyStr.join " " l
  end.

(** A port-forward argument: absent, one pair, or a list of pairs. *)
Inductive PortForward :=
| PfNone
| PfPair (local remote : Z)
| PfList (pairs : list (Z * Z)).

Definition pf_truthy (pf : PortForward) : bool :=
  match pf with
  | PfNone => false
  | PfPair _ _ => true
  | PfList [] => false
  | PfList (_ :: _) => true
  end.

(** [if not isinstance(port_forward, list): port_forward = [port_forward]],
    applied to a truthy argument. *)
Definition pf_pairs (pf : PortForward) : list (Z * Z) :=
  match pf with
  | PfNone => []
  | PfPair l r => [(l, r)]
  | PfList ps => ps
  end.

(** Log records at warning level and above.  Informational and debug
    records (and the LogTimer blocks, which emit informational records)
    stay below the default threshold and are left out. *)
Inductive LogRecord :=
| LogText (msg : string)
| LogRsyncFailed (log_prefix : string) (e : Exn)
| LogExn (log_prefix : string) (e : Exn).

(** What the outside world sees, in the order it happens.  [EvRun],
    [EvRsyncUp] and [EvRsyncDown] mark the entry into a command-runner
    method, as a recording runner would note them. *)
Inductive Event :=
| EvSetNodeTags (tags : Tags)
| EvNodeTags
| EvIsTerminated
| EvInternalIp
| EvExternalIp
| EvCheckCall (args : ProcArgs)
| EvCheckOutput (args : ProcArgs)
| EvPopen (argv : list string)
| EvSubprocessRun (argv : list string) (timeout : Z)
| EvSleep (secs : Z)
| EvLogError (r : LogRecord)
| EvLogWarning (r : LogRecord)
| EvRun (cmd : option string) (port_forward : PortForward)
| EvRsyncUp (source target : string)
| EvRsyncDown (source target : string).

(* ================================================================== *)
(** * The environment and the state *)
(* ================================================================== *)

(** How a child process ends: it exits with a code and some output, or it
    cannot be started. *)
Inductive ProcResult :=
| Exited (returncode : Z) (output : string)
| SpawnFailed (kind : OSErrorKind) (msg : string).

(** [subprocess.run(..., timeout=t)] may in addition run out of time. *)
Inductive RunResult :=
| Completed (returncode : Z)
| RunFailed (kind : OSErrorKind) (msg : string)
| RunTimedOut.

(** The events so far, each with the time at which it was issued. *)
Definition History := list (Z * Event).

Definition events (h : History) : list Event := map snd h.

(** The collaborators the module calls into.  Every answer may depend on
    everything that happened so far. *)
Record Env := mkEnv {
  provider_is_terminated : History -> bool;
  provider_internal_ip : History -> option string;
  provider_external_ip : History -> option string;
  process_runner : History -> ProcArgs -> ProcResult;
  subprocess_popen : History -> list string -> ProcResult;
  subprocess_run : History -> list string -> RunResult;
  (** seconds taken by an interaction, on top of any requested sleep *)
  elapsed : History -> Event -> N;
  os_path_exists : string -> bool;
  os_path_isdir : string -> bool;
  os_path_expanduser : string -> string;
  getuser : string;
  md5_hexdigest : string -> string;
  (** os.path.dirname(os.path.abspath(__file__)) *)
  module_dir : string
}.

Record State := mkState {
  clock : Z;                    (* time.time(), in whole seconds *)
  node_tags : Tags;             (* the provider's tags of this node *)
  ssh_ip : option string;       (* SSHCommandRunner.ssh_ip *)
  exitcode : option Z;          (* self.exitcode, once assigned *)
  trace : History               (* oldest first *)
}.

Inductive Result (A : Type) :=
| Ok (a : A)
| Raise (e : Exn).
Arguments Ok {A} a.
Arguments Raise {A} e.

(** A computation either finishes, normally or with an exception, or runs
    out of loop fuel. *)
Inductive Outcome (A : Type) :=
| Done (r : Result A) (s : State)
| OutOfFuel.
Arguments Done {A} r s.
Arguments OutOfFuel {A}.

Definition M (A : Type) := State -> Outcome A.

Definition ret {A} (a : A) : M A := fun s => Done (Ok a) s.

Definition raise {A} (e : Exn) : M A := fun s => Done (Raise e) s.

Definition bind {A B} (m : M A) (k : A -> M B) : M B :=
  fun s =>
    match m s with
    | Done (Ok a) s' => k a s'
    | Done (Raise e) s' => Done (Raise e) s'
    | OutOfFuel => OutOfFuel
    end.

(** [try: m  except <catches>: h]. *)
Definition try_except {A} (m : M A) (catches : Exn -> bool) (h : Exn -> M A)
  : M A :=
  fun s =>
    match m s with
    | Done (Raise e) s' => if catches e then h e s' else Done (Raise e) s'
    | o => o
    end.

Declare Scope py_scope.
Delimit Scope py_scope with py.
Notation "x <- m ;; k" := (bind m (fun x => k))
  (at level 20, m at level 99, k at level 200) : py_scope.
Notation "m ;; k" := (bind m (fun _ => k))
  (at level 100, k at level 200, right associativity) : py_scope.
Open Scope py_scope.

(** [for x in l: body(x)]. *)
Fixpoint for_each {A} (l : list A) (body : A -> M unit) : M unit :=
  match l with
  | [] => ret tt
  | x :: l' => body x ;; for_each l' body
  end.

(* ================================================================== *)
(** * Primitive interactions *)
(* ================================================================== *)

Section Updater.

Variable env : Env.

(** Records an interaction and lets the time it took pass. *)
Definition record (e : Event) (s : State) : State :=
  mkState (clock s + Z.of_N (elapsed env (trace s) e))
          (node_tags s) (ssh_ip s) (exitcode s)
          (trace s ++ [(clock s, e)])%list.

Definition emit (e : Event) : M unit := fun s => Done (Ok tt) (record e s).

(** [time.time()]. *)
Definition time_time : M Z := fun s => Done (Ok (clock s)) s.

Definition advance (secs : Z) : M unit :=
  fun s =>
    Done (Ok tt)
      (mkState (clock s + secs) (node_tags s) (ssh_ip s) (exitcode s)
               (trace s)).

(** [time.sleep(secs)]. *)
Definition time_sleep (secs : Z) : M unit :=
  if secs <? 0 then raise (ValueError "sleep length must be non-negative")
  else emit (EvSleep secs) ;; advance secs.

(** Modelled from the spec: the provider's tag store, an external
    collaborator; [setNodeTags(nodeId, tagMap)] merges the given tags
    into the node's tags and [getNodeTags] reads them. *)
Definition provider_set_node_tags (tags : Tags) : M unit :=
  emit (EvSetNodeTags tags) ;;
  fun s =>
    Done (Ok tt)
      (mkState (clock s) (tags_update tags (node_tags s)) (ssh_ip s)
               (exitcode s) (trace s)).

Definition provider_node_tags : M Tags :=
  emit EvNodeTags ;; fun s => Done (Ok (node_tags s)) s.

(** Asks the environment, with the history up to the question. *)
Definition ask {A} (oracle : History -> A) (e : Event) : M A :=
  fun s => bind (emit e) (fun _ => ret (oracle (trace s))) s.

Definition is_terminated : M bool :=
  ask (provider_is_terminated env) EvIsTerminated.

Definition internal_ip : M (option string) :=
  ask (provider_internal_ip env) EvInternalIp.

Definition external_ip : M (option string) :=
  ask (provider_external_ip env) EvExternalIp.

(** [process_runner.check_call(args)]. *)
Definition check_call (args : ProcArgs) : M unit :=
  r <- ask (fun h => process_runner env h args) (EvCheckCall args) ;;
  match r with
  | Exited 0 _ => ret tt
  | Exited rc _ => raise (CalledProcessError rc args)
  | SpawnFailed k m => raise (OSError k m)
  end.

(** [process_runner.check_output(args)]. *)
Definition check_output (args : ProcArgs) : M string :=
  r <- ask (fun h => process_runner env h args) (EvCheckOutput args) ;;
  match r with
  | Exited 0 out => ret out
  | Exited rc _ => raise (CalledProcessError rc args)
  | SpawnFailed k m => raise (OSError k m)
  end.

Definition get_ssh_ip : M (option string) := fun s => Done (Ok (ssh_ip s)) s.

Definition set_ssh_ip (ip : option string) : M unit :=
  fun s =>
    Done (Ok tt) (mkState (clock s) (node_tags s) ip (exitcode s) (trace s)).

Definition set_exitcode (c : Z) : M unit :=
  fun s =>
    Done (Ok tt)
      (mkState (clock s) (node_tags s) (ssh_ip s) (Some c) (trace s)).

(* ================================================================ *)
(** * Constants and with_interactive *)
(* ================================================================ *)

Definition NODE_START_WAIT_S : Z := 300.
Definition READY_CHECK_INTERVAL : Z := 5.
Definition HASH_MAX_LENGTH : nat := 10.

(** [os.path.join(a, b)] for a relative [b]. *)
Definition os_path_join (a b : string) : string :=
  match a with
  | EmptyString => b
  | _ => if PyStr.endswith a "/" then a ++ b else a ++ "/" ++ b
  end.

Definition KUBECTL_RSYNC : string :=
  os_path_join (module_dir env) "kubernetes/kubectl-rsync.sh".

Definition force_interactive : string :=
  "true && source ~/.bashrc && " ++
  "export OMP_NUM_THREADS=1 PYTHONWARNINGS=ignore && ".

Definition with_interactive (cmd : string) : list string :=
  ["bash"; "--login"; "-c"; "-i"; Shlex.quote (force_interactive ++ cmd)].

(** [" ".join(final_cmd[:-1] + [quote(final_cmd[-1])])]. *)
Definition quoted_cmd (final_cmd : list string) : string :=
  PyStr.join " " (removelast final_cmd ++ [Shlex.quote (last final_cmd "")]).

Definition command_failed (quoted : string) : string :=
  "Command failed: " ++ PyStr.nl ++ PyStr.nl ++ "  " ++ quoted ++ PyStr.nl.

Definition none_concat : Exn := TypeError "must be str, not NoneType".

(* ================================================================ *)
(** * ProviderIpGetter *)
(* ================================================================ *)

Record ProviderIpGetter := mkProviderIpGetter {
  ig_log_prefix : string;
  ig_node_id : string;
  ig_use_internal_ip : bool
}.

Definition get_ip (g : ProviderIpGetter) : M (option string) :=
  if ig_use_internal_ip g then internal_ip else external_ip.

(** Truthiness of a number that may be [None]. *)
Definition num_truthy (o : option Z) : bool :=
  match o with
  | Some z => negb (z =? 0)
  | None => false
  end.

(** The [while] loop of [wait_for_ip]. *)
Fixpoint wait_for_ip_loop (fuel : nat) (g : ProviderIpGetter)
    (deadline : option Z) (sleep_between_gets : Z) : M (option string) :=
  match fuel with
  | O => fun _ => OutOfFuel
  | S fuel' =>
      now <- time_time ;;
      match deadline with
      | None =>
          raise (TypeError
            "'<' not supported between instances of 'float' and 'NoneType'")
      | Some d =>
          if now <? d then
            t <- is_terminated ;;
            if t then ret None
            else
              ip <- get_ip g ;;
              match ip with
              | Some a => ret (Some a)
              | None =>
                  time_sleep sleep_between_gets ;;
                  wait_for_ip_loop fuel' g deadline sleep_between_gets
              end
          else ret None
      end
  end.

Definition both_specified : Exn :=
  ValueError "At most one of timeout and deadline can be specified".

(** [ProviderIpGetter.wait_for_ip]. *)
Definition wait_for_ip (g : ProviderIpGetter) (fuel : nat)
    (timeout deadline : option Z) (sleep_between_gets : Z)
  : M (option string) :=
  if num_truthy timeout && num_truthy deadline then raise both_specified
  else
    deadline <- (if num_truthy timeout
                 then now <- time_time ;;
                      ret (Some (now + match timeout with
                                       | Some t => t
                                       | None => 0
                                       end))
                 else ret deadline) ;;
    wait_for_ip_loop fuel g deadline sleep_between_gets.

(** [forget_known_host(host, timeout=3)]: [subprocess.run] with a
    timeout raises [TimeoutExpired] when the time runs out, and rejects
    an argument that is not a string before starting anything. *)
Definition forget_known_host (host : option string) (timeout : Z) : M unit :=
  match host with
  | None =>
      raise (TypeError
        "expected str, bytes or os.PathLike object, not NoneType")
  | Some h =>
      let argv := ["ssh-keygen"; "-R"; h] in
      r <- ask (fun hist => subprocess_run env hist argv)
               (EvSubprocessRun argv timeout) ;;
      match r with
      | Completed _ => ret tt
      | RunFailed k m => raise (OSError k m)
      | RunTimedOut => raise (TimeoutExpired (Argv argv) timeout)
      end
  end.

(* ================================================================ *)
(** * KubernetesCommandRunner *)
(* ================================================================ *)

Record KubernetesCommandRunner := mkKubernetesCommandRunner {
  k_log_prefix : string;
  k_node_id : string;
  k_namespace : string;
  k_kubectl : list string
}.

Definition KubernetesCommandRunner_init (log_prefix namespace node_id : string)
  : KubernetesCommandRunner :=
  mkKubernetesCommandRunner log_prefix node_id namespace
    ["kubectl"; "-n"; namespace].

Definition both_together : Exn :=
  Exception ("exec with Kubernetes can't forward ports and execute" ++
             "commands together.").

Definition k_port_forward_cmd (r : KubernetesCommandRunner)
    (port_forward : PortForward) : list string :=
  k_kubectl r ++ ["port-forward"; k_node_id r] ++
  map (fun lr => PyStr.str_of_Z (fst lr) ++ ":" ++ PyStr.str_of_Z (snd lr))
      (pf_pairs port_forward).

Definition k_final_cmd (r : KubernetesCommandRunner) (cmd : string)
    (allocate_tty : bool) : list string :=
  k_kubectl r ++
  ["exec"; if allocate_tty then "-it" else "-i"; k_node_id r; "--"] ++
  with_interactive cmd.

(** [KubernetesCommandRunner.run]. *)
Definition k_run (r : KubernetesCommandRunner) (cmd : option string)
    (timeout : Z) (allocate_tty exit_on_fail : bool)
    (port_forward : PortForward) (with_output : bool) : M (option string) :=
  emit (EvRun cmd port_forward) ;;
  if PyStr.truthy cmd && pf_truthy port_forward then raise both_together
  else if pf_truthy port_forward then
    let port_forward_cmd := k_port_forward_cmd r port_forward in
    p <- ask (fun h => subprocess_popen env h port_forward_cmd)
             (EvPopen port_forward_cmd) ;;
    match p with
    | SpawnFailed k m => raise (OSError k m)
    | Exited _ _ =>
        (* The process was started without pipes, so [communicate()]
           gives [(None, None)] and appending [perr] to the message
           fails before [Exception(exception_str)] is built. *)
        raise none_concat
    end
  else
    match cmd with
    | None => raise none_concat   (* force_interactive + None *)
    | Some c =>
        let final_cmd := k_final_cmd r c allocate_tty in
        let line := ShellCommand (PyStr.join " " final_cmd) in
        try_except
          (if with_output
           then out <- check_output line ;; ret (Some out)
           else check_call line ;; ret None)
          is_CalledProcessError
          (fun e =>
             if exit_on_fail then
               emit (EvLogError (LogText (k_log_prefix r ++
                       command_failed (quoted_cmd final_cmd)))) ;;
               raise (SystemExit 1)
             else raise e)
    end.

Definition k_home (target : string) : string :=
  if PyStr.startswith target "~" then "/root" ++ PyStr.tail target
  else target.

(** [KubernetesCommandRunner.run_rsync_up]. *)
Definition k_run_rsync_up (r : KubernetesCommandRunner)
    (source target : string) : M unit :=
  emit (EvRsyncUp source target) ;;
  let target := k_home target in
  try_except
    (check_call (Argv [KUBECTL_RSYNC; "-avz"; source;
                       k_node_id r ++ "@" ++ k_namespace r ++ ":" ++ target]))
    is_Exception
    (fun e =>
       emit (EvLogWarning (LogRsyncFailed (k_log_prefix r) e)) ;;
       check_call (Argv (k_kubectl r ++
         ["cp"; source;
          k_namespace r ++ "/" ++ k_node_id r ++ ":" ++ target]))).

(** [KubernetesCommandRunner.run_rsync_down]. *)
Definition k_run_rsync_down (r : KubernetesCommandRunner)
    (source target : string) : M unit :=
  emit (EvRsyncDown source target) ;;
  let target := k_home target in
  try_except
    (check_call (Argv [KUBECTL_RSYNC; "-avz";
                       k_node_id r ++ "@" ++ k_namespace r ++ ":" ++ source;
                       target]))
    is_Exception
    (fun e =>
       emit (EvLogWarning (LogRsyncFailed (k_log_prefix r) e)) ;;
       check_call (Argv (k_kubectl r ++
         ["cp"; k_namespace r ++ "/" ++ k_node_id r ++ ":" ++ source;
          target]))).

Definition k_remote_shell_command_str (r : KubernetesCommandRunner) : string :=
  PyStr.join " " (k_kubectl r) ++ " exec -it " ++ k_node_id r ++ " bash".

(* ================================================================ *)
(** * SSHCommandRunner *)
(* ================================================================ *)

Record AuthConfig := mkAuthConfig {
  auth_ssh_private_key : string;
  auth_ssh_user : string
}.

Record SSHCommandRunner := mkSSHCommandRunner {
  s_log_prefix : string;
  s_node_id : string;
  s_use_internal_ip : bool;
  s_ssh_private_key : string;
  s_ssh_user : string;
  s_ssh_control_path : string
}.

(** The constructor; it also sets [self.ssh_ip = None]. *)
Definition SSHCommandRunner_init (log_prefix node_id : string)
    (auth_config : AuthConfig) (cluster_name : string)
    (use_internal_ip : bool) : M SSHCommandRunner :=
  let ssh_control_hash := md5_hexdigest env cluster_name in
  let ssh_user_hash := md5_hexdigest env (getuser env) in
  let ssh_control_path :=
    "/tmp/ray_ssh_" ++ PyStr.take HASH_MAX_LENGTH ssh_user_hash ++ "/" ++
    PyStr.take HASH_MAX_LENGTH ssh_control_hash in
  set_ssh_ip None ;;
  ret (mkSSHCommandRunner log_prefix node_id use_internal_ip
         (auth_ssh_private_key auth_config) (auth_ssh_user auth_config)
         ssh_control_path).

Definition get_default_ssh_options (r : SSHCommandRunner)
    (connect_timeout : Z) : list string :=
  let OPTS :=
    [("ConnectTimeout", PyStr.str_of_Z connect_timeout ++ "s");
     ("StrictHostKeyChecking", "no");
     ("ControlMaster", "auto");
     ("ControlPath", s_ssh_control_path r ++ "/%C");
     ("ControlPersist", "10s");
     ("IdentitiesOnly", "yes");
     ("ExitOnForwardFailure", "yes");
     ("ServerAliveInterval", PyStr.str_of_Z 5);
     ("ServerAliveCountMax", PyStr.str_of_Z 3)] in
  ["-i"; s_ssh_private_key r] ++
  flat_map (fun kv => ["-o"; fst kv ++ "=" ++ snd kv]) OPTS.

(** [SSHCommandRunner.wait_for_ip]. *)
Definition s_wait_for_ip (r : SSHCommandRunner) (fuel : nat) (deadline : Z)
  : M (option string) :=
  let ip_getter :=
    mkProviderIpGetter (s_log_prefix r) (s_node_id r) (s_use_internal_ip r) in
  wait_for_ip ip_getter fuel None (Some deadline) 10.

Definition set_ssh_ip_if_required (r : SSHCommandRunner) (fuel : nat)
  : M unit :=
  cached <- get_ssh_ip ;;
  match cached with
  | Some _ => ret tt
  | None =>
      now <- time_time ;;
      let deadline := now + NODE_START_WAIT_S in
      ip <- s_wait_for_ip r fuel deadline ;;
      match ip with
      | None => raise (AssertionError "Unable to find IP of node")
      | Some _ =>
          set_ssh_ip ip ;;
          try_except (check_call (Argv ["mkdir"; "-p"; s_ssh_control_path r]))
            is_CalledProcessError
            (fun e => emit (EvLogWarning (LogExn "" e))) ;;
          try_except (check_call (Argv ["chmod"; "0700"; s_ssh_control_path r]))
            is_CalledProcessError
            (fun e => emit (EvLogWarning (LogExn (s_log_prefix r) e)))
      end
  end.

(** ["{}".format(self.ssh_ip)]. *)
Definition fmt_ip (ip : option string) : string :=
  match ip with
  | Some a => a
  | None => "None"
  end.

Definition s_forward_opts (port_forward : PortForward) : list string :=
  if pf_truthy port_forward then
    flat_map (fun lr => ["-L"; PyStr.str_of_Z (snd lr) ++ ":localhost:" ++
                                PyStr.str_of_Z (fst lr)])
             (pf_pairs port_forward)
  else [].

(** ["{}@{}".format(self.ssh_user, self.ssh_ip)]. *)
Definition s_user_at (r : SSHCommandRunner) (ip : option string) : string :=
  s_ssh_user r ++ "@" ++ fmt_ip ip.

Definition s_final_cmd (r : SSHCommandRunner) (ip : option string)
    (cmd : option string) (timeout : Z) (allocate_tty : bool)
    (port_forward : PortForward) : list string :=
  let ssh := (["ssh"] ++ (if allocate_tty then ["-tt"] else []) ++
              s_forward_opts port_forward)%list in
  (ssh ++ get_default_ssh_options r timeout ++
   [s_user_at r ip] ++
   match cmd with
   | Some (String a c) => with_interactive (String a c)
   | _ => ["while true; do sleep 86400; done"]
   end)%list.

(** [SSHCommandRunner.run]. *)
Definition s_run (r : SSHCommandRunner) (fuel : nat) (cmd : option string)
    (timeout : Z) (allocate_tty exit_on_fail : bool)
    (port_forward : PortForward) (with_output : bool) : M (option string) :=
  emit (EvRun cmd port_forward) ;;
  set_ssh_ip_if_required r fuel ;;
  ip <- get_ssh_ip ;;
  let final_cmd := s_final_cmd r ip cmd timeout allocate_tty port_forward in
  try_except
    (if with_output
     then out <- check_output (Argv final_cmd) ;; ret (Some out)
     else check_call (Argv final_cmd) ;; ret None)
    is_CalledProcessError
    (fun e =>
       if exit_on_fail
       then raise (ClickException (command_failed (quoted_cmd final_cmd)))
       else raise e).

Definition s_rsync_rsh (r : SSHCommandRunner) : string :=
  PyStr.join " " ("ssh" :: get_default_ssh_options r 120).

(** [SSHCommandRunner.run_rsync_up]. *)
Definition s_run_rsync_up (r : SSHCommandRunner) (fuel : nat)
    (source target : string) : M unit :=
  emit (EvRsyncUp source target) ;;
  set_ssh_ip_if_required r fuel ;;
  ip <- get_ssh_ip ;;
  check_call (Argv ["rsync"; "--rsh"; s_rsync_rsh r; "-avz"; source;
                    s_user_at r ip ++ ":" ++ target]).

(** [SSHCommandRunner.run_rsync_down]. *)
Definition s_run_rsync_down (r : SSHCommandRunner) (fuel : nat)
    (source target : string) : M unit :=
  emit (EvRsyncDown source target) ;;
  set_ssh_ip_if_required r fuel ;;
  ip <- get_ssh_ip ;;
  check_call (Argv ["rsync"; "--rsh"; s_rsync_rsh r; "-avz";
                    s_user_at r ip ++ ":" ++ source;
                    target]).

Definition s_remote_shell_command_str (r : SSHCommandRunner)
    (ip : option string) : string :=
  "ssh -o IdentitiesOnly=yes -i " ++ s_ssh_private_key r ++ " " ++
  s_user_at r ip ++ PyStr.nl.

(* ================================================================ *)
(** * The command runner behind [self.cmd_runner] *)
(* ================================================================ *)

Inductive CommandRunner :=
| Kubernetes (r : KubernetesCommandRunner)
| SSH (r : SSHCommandRunner).

Definition runner_run (c : CommandRunner) (fuel : nat) (cmd : option string)
    (timeout : Z) (allocate_tty exit_on_fail : bool)
    (port_forward : PortForward) (with_output : bool) : M (option string) :=
  match c with
  | Kubernetes r =>
      k_run r cmd timeout allocate_tty exit_on_fail port_forward with_output
  | SSH r =>
      s_run r fuel cmd timeout allocate_tty exit_on_fail port_forward
        with_output
  end.

(** [cmd_runner.run(cmd)] and [cmd_runner.run(cmd, timeout=t)], the two
    forms the updater uses; the other arguments take their defaults. *)
Definition run_cmd (c : CommandRunner) (fuel : nat) (cmd : string)
    (timeout : Z) : M unit :=
  runner_run c fuel (Some cmd) timeout false false PfNone false ;; ret tt.

Definition runner_run_rsync_up (c : CommandRunner) (fuel : nat)
    (source target : string) : M unit :=
  match c with
  | Kubernetes r => k_run_rsync_up r source target
  | SSH r => s_run_rsync_up r fuel source target
  end.

Definition runner_run_rsync_down (c : CommandRunner) (fuel : nat)
    (source target : string) : M unit :=
  match c with
  | Kubernetes r => k_run_rsync_down r source target
  | SSH r => s_run_rsync_down r fuel source target
  end.

(* ================================================================ *)
(** * NodeUpdater *)
(* ================================================================ *)

(** Modelled from the spec: [LogTimer], from [ray.autoscaler.log_timer],
    is the timer instrumentation the spec leaves out of scope; a
    [with LogTimer(...)] block runs its body, logs an informational
    record and lets exceptions through, so it leaves no mark here. *)

Record ProviderConfig := mkProviderConfig {
  pc_type : string;
  pc_use_internal_ips : bool       (* .get("use_internal_ips", False) *)
}.

Record NodeUpdater := mkNodeUpdater {
  use_internal_ip : bool;
  log_prefix : string;
  cmd_runner : CommandRunner;
  node_id : string;
  file_mounts : list (string * string);   (* remote -> local, in order *)
  initialization_commands : list string;
  setup_commands : list string;
  ray_start_commands : list string;
  runtime_hash : string;
  remove_node_from_known_hosts_before_use : bool
}.

(** [NodeUpdater.__init__]. *)
Definition NodeUpdater_init (node_id : string)
    (provider_config : ProviderConfig) (provider_namespace : string)
    (auth_config : AuthConfig) (cluster_name : string)
    (file_mounts : list (string * string))
    (initialization_commands setup_commands ray_start_commands : list string)
    (runtime_hash : string) (use_internal_ip : bool)
    (remove_node_from_known_hosts_before_use : bool) : M NodeUpdater :=
  let log_prefix := "NodeUpdater: " ++ node_id ++ ": " in
  let mounts :=
    map (fun rl => (fst rl, os_path_expanduser env (snd rl))) file_mounts in
  if String.eqb (pc_type provider_config) "kubernetes" then
    ret (mkNodeUpdater use_internal_ip log_prefix
           (Kubernetes (KubernetesCommandRunner_init log_prefix
                          provider_namespace node_id))
           node_id mounts initialization_commands setup_commands
           ray_start_commands runtime_hash
           remove_node_from_known_hosts_before_use)
  else
    let use_internal_ip :=
      (use_internal_ip || pc_use_internal_ips provider_config)%bool in
    r <- SSHCommandRunner_init log_prefix node_id auth_config cluster_name
           use_internal_ip ;;
    ret (mkNodeUpdater use_internal_ip log_prefix (SSH r)
           node_id mounts initialization_commands setup_commands
           ray_start_commands runtime_hash
           remove_node_from_known_hosts_before_use).

(** [NodeUpdaterThread.__init__]. *)
Definition NodeUpdaterThread_init (node_id : string)
    (provider_config : ProviderConfig) (provider_namespace : string)
    (auth_config : AuthConfig) (cluster_name : string)
    (file_mounts : list (string * string))
    (initialization_commands setup_commands ray_start_commands : list string)
    (runtime_hash : string) (use_internal_ip : bool)
    (remove_node_from_known_hosts_before_use : bool) : M NodeUpdater :=
  u <- NodeUpdater_init node_id provider_config provider_namespace
         auth_config cluster_name file_mounts initialization_commands
         setup_commands ray_start_commands runtime_hash use_internal_ip
         remove_node_from_known_hosts_before_use ;;
  set_exitcode (-1) ;;
  ret u.

Definition rsync_up (u : NodeUpdater) (fuel : nat) (source target : string)
  : M unit :=
  runner_run_rsync_up (cmd_runner u) fuel source target.

Definition rsync_down (u : NodeUpdater) (fuel : nat) (source target : string)
  : M unit :=
  runner_run_rsync_down (cmd_runner u) fuel source target.

Definition slashed (p : string) : string :=
  if PyStr.endswith p "/" then p else p ++ "/".

(** The paths a mount is synced with, after the directory adjustment. *)
Definition mount_paths (remote_path local_path : string) : string * string :=
  if os_path_isdir env local_path
  then (slashed remote_path, slashed local_path)
  else (remote_path, local_path).

Definition mkdir_cmd (remote_path : string) : string :=
  "mkdir -p " ++ PosixPath.dirname remote_path.

(** The body of the loop of [sync_file_mounts], for one mount. *)
Definition sync_file_mount (u : NodeUpdater) (fuel : nat)
    (sync_cmd : string -> string -> M unit)
    (remote_path local_path : string) : M unit :=
  if negb (os_path_exists env local_path)
  then raise (AssertionError local_path)
  else
    let remote_path' := fst (mount_paths remote_path local_path) in
    let local_path' := snd (mount_paths remote_path local_path) in
    run_cmd (cmd_runner u) fuel (mkdir_cmd remote_path') 120 ;;
    sync_cmd local_path' remote_path'.

Definition sync_file_mounts (u : NodeUpdater) (fuel : nat)
    (sync_cmd : string -> string -> M unit) : M unit :=
  for_each (file_mounts u)
    (fun rl => sync_file_mount u fuel sync_cmd (fst rl) (snd rl)).

(** What the [except Exception as e] blocks of [wait_ready] and [run]
    compute first: the text describing [e]. *)
Definition describe_error (e : Exn) (colon : string) : M string :=
  match hasattr_cmd e with
  | Some c =>
      match getattr_returncode e with
      | Some rc =>
          ret ("(Exit Status " ++ PyStr.str_of_Z rc ++ ")" ++ colon ++ " " ++
               join_cmd c)
      | None =>
          raise (AttributeError
            "'TimeoutExpired' object has no attribute 'returncode'")
      end
  | None => ret (str_exn e)
  end.

Definition unable_to_connect : Exn :=
  AssertionError "Unable to connect to node".

(** The [while] loop of [wait_ready], followed by the failing assert. *)
Fixpoint wait_ready_loop (n : nat) (u : NodeUpdater) (fuel : nat)
    (deadline : Z) : M bool :=
  match n with
  | O => fun _ => OutOfFuel
  | S n' =>
      now <- time_time ;;
      if now <? deadline then
        t <- is_terminated ;;
        if t then raise unable_to_connect
        else
          try_except
            (run_cmd (cmd_runner u) fuel "uptime" 5 ;; ret true)
            is_Exception
            (fun e =>
               describe_error e ":" ;;
               time_sleep READY_CHECK_INTERVAL ;;
               wait_ready_loop n' u fuel deadline)
      else raise unable_to_connect
  end.

Definition wait_ready (u : NodeUpdater) (fuel : nat) (deadline : Z) : M bool :=
  wait_ready_loop fuel u fuel deadline.

Definition remove_node_from_known_hosts (u : NodeUpdater) (fuel : nat)
  : M unit :=
  node_ip <- wait_for_ip
               (mkProviderIpGetter (log_prefix u) (node_id u)
                  (use_internal_ip u))
               fuel (Some NODE_START_WAIT_S) None 10 ;;
  try_except (forget_known_host node_ip 3)
    (fun e => match e with
              | OSError TimeoutError _ | OSError FileNotFoundError _ => true
              | _ => false
              end)
    (fun _ => ret tt).

Definition run_all (u : NodeUpdater) (fuel : nat) (cmds : list string)
  : M unit :=
  for_each cmds (fun cmd => run_cmd (cmd_runner u) fuel cmd 120).

Definition do_update (u : NodeUpdater) (fuel : nat) : M unit :=
  (if remove_node_from_known_hosts_before_use u
   then remove_node_from_known_hosts u fuel
   else ret tt) ;;
  provider_set_node_tags
    [(TAG_RAY_NODE_STATUS, VStatus STATUS_WAITING_FOR_SSH)] ;;
  now <- time_time ;;
  let deadline := now + NODE_START_WAIT_S in
  wait_ready u fuel deadline ;;
  tags <- provider_node_tags ;;
  (if match tags_get TAG_RAY_RUNTIME_CONFIG tags with
      | Some v => TagValue_eqb v (VStr (runtime_hash u))
      | None => false
      end
   then ret tt
   else
     provider_set_node_tags
       [(TAG_RAY_NODE_STATUS, VStatus STATUS_SYNCING_FILES)] ;;
     sync_file_mounts u fuel (rsync_up u fuel) ;;
     provider_set_node_tags
       [(TAG_RAY_NODE_STATUS, VStatus STATUS_SETTING_UP)] ;;
     run_all u fuel (initialization_commands u) ;;
     run_all u fuel (setup_commands u)) ;;
  run_all u fuel (ray_start_commands u).

(** [NodeUpdater.run]. *)
Definition NodeUpdater_run (u : NodeUpdater) (fuel : nat) : M unit :=
  try_except (do_update u fuel) is_Exception
    (fun e =>
       error_str <- describe_error e "" ;;
       emit (EvLogError (LogText (log_prefix u ++ "Error updating " ++
                                  error_str))) ;;
       provider_set_node_tags
         [(TAG_RAY_NODE_STATUS, VStatus STATUS_UPDATE_FAILED)] ;;
       raise e) ;;
  provider_set_node_tags
    [(TAG_RAY_NODE_STATUS, VStatus STATUS_UP_TO_DATE);
     (TAG_RAY_RUNTIME_CONFIG, VStr (runtime_hash u))] ;;
  set_exitcode 0.

End Updater.

Open Scope list_scope.

Arguments emit env e s /.
Arguments ret {A} a s /.
Arguments raise {A} e s /.

(* ================================================================== *)
(** * What is observed of a run *)
(* ================================================================== *)

(** The calls into the command runner. *)
Definition is_invocation (e : Event) : bool :=
  match e with
  | EvRun _ _ | EvRsyncUp _ _ | EvRsyncDown _ _ => true
  | _ => false
  end.

Definition invocations (h : History) : list Event :=
  filter is_invocation (events h).

(** The values written to the status tag, oldest first. *)
Definition status_writes (h : History) : list TagValue :=
  flat_map (fun e => match e with
                     | EvSetNodeTags t =>
                         match tags_get TAG_RAY_NODE_STATUS t with
                         | Some v => [v]
                         | None => []
                         end
                     | _ => []
                     end) (events h).

(** The part of a history that follows the first read of the node's tags. *)
Fixpoint after_tag_read (h : History) : option History :=
  match h with
  | [] => None
  | (_, EvNodeTags) :: h' => Some h'
  | _ :: h' => after_tag_read h'
  end.

(** [node_tags.get(TAG_RAY_RUNTIME_CONFIG) == runtime_hash]. *)
Definition fingerprint_matches (tags : Tags) (runtime_hash : string) : bool :=
  match tags_get TAG_RAY_RUNTIME_CONFIG tags with
  | Some v => TagValue_eqb v (VStr runtime_hash)
  | None => false
  end.

(** The runner calls of a sequence of commands, and of a list of mounts. *)
Definition run_plan (cmds : list string) : list Event :=
  map (fun c => EvRun (Some c) PfNone) cmds.

Definition mount_plan (env : Env) (rl : string * string) : list Event :=
  let p := mount_paths env (fst rl) (snd rl) in
  [EvRun (Some (mkdir_cmd (fst p))) PfNone; EvRsyncUp (snd p) (fst p)].

Definition sync_plan (env : Env) (mounts : list (string * string))
  : list Event :=
  flat_map (mount_plan env) mounts.

(** Exceptions other than [SystemExit] and [TimeoutExpired]: the handlers
    of the updater catch and describe them. *)
Definition ordinary (e : Exn) : bool :=
  match e with
  | SystemExit _ | TimeoutExpired _ _ => false
  | _ => true
  end.

(** Events that are not tag traffic, and those that in addition are not
    runner calls. *)
Definition off_tags (e : Event) : bool :=
  match e with
  | EvSetNodeTags _ | EvNodeTags => false
  | _ => true
  end.

Definition background (e : Event) : bool :=
  off_tags e && negb (is_invocation e).

Definition not_tag_read (e : Event) : bool :=
  match e with
  | EvNodeTags => false
  | _ => true
  end.

(** The tag store after the writes of a history. *)
Definition replay (h : History) (t : Tags) : Tags :=
  fold_left (fun acc te => match snd te with
                           | EvSetNodeTags new => tags_update new acc
                           | _ => acc
                           end) h t.

Definition raises_in {A} (X : Exn -> bool) (r : Result A) : Prop :=
  match r with
  | Raise e => X e = true
  | Ok _ => True
  end.

Definition is_ok {A} (r : Result A) : Prop :=
  match r with
  | Ok _ => True
  | Raise _ => False
  end.

(** Partial correctness: whatever the computation ends with satisfies [Q]. *)
Definition wp {A} (m : M A) (s : State) (Q : Result A -> State -> Prop)
  : Prop :=
  forall r s', m s = Done r s' -> Q r s'.

(** Enough fuel: the computation ends. *)
Definition total {A} (m : M A) (s : State) : Prop :=
  m s <> OutOfFuel.

(** How a state grows out of another: the history is extended by events of
    the class [P], the tags are what the recorded writes make them, the
    exit code stays and time does not go back. *)
Definition grows (P : Event -> bool) (s s' : State) (evs : History) : Prop :=
  trace s' = trace s ++ evs /\
  node_tags s' = replay evs (node_tags s) /\
  exitcode s' = exitcode s /\
  clock s <= clock s' /\
  Forall (fun te => P (snd te) = true) evs.

(** A computation whose events stay in [P] and whose exceptions stay in
    [X]. *)
Definition within (P : Event -> bool) (X : Exn -> bool) {A} (m : M A) : Prop :=
  forall s, wp m s (fun r s' => exists evs, grows P s s' evs /\ raises_in X r).

(** A computation whose runner calls are a prefix of [plan], and all of
    [plan] when it ends normally. *)
Definition planned (P : Event -> bool) (X : Exn -> bool) {A} (m : M A)
    (plan : list Event) : Prop :=
  forall s, wp m s (fun r s' =>
    exists evs, grows P s s' evs /\ raises_in X r /\
                (exists n, invocations evs = firstn n plan) /\
                (is_ok r -> invocations evs = plan)).

(** The one runner call of the readiness wait. *)
Definition ready_poll : Event := EvRun (Some "uptime"%string) PfNone.

(** What the readiness wait may cause: no tag traffic, and no runner call
    but the poll. *)
Definition poll_event (e : Event) : bool :=
  match e with
  | EvSetNodeTags _ | EvNodeTags | EvRsyncUp _ _ | EvRsyncDown _ _ => false
  | EvRun (Some c) PfNone => String.eqb c "uptime"
  | EvRun _ _ => false
  | _ => true
  end.

(** What may happen before the stored fingerprint is read: in addition,
    tag writes that leave the fingerprint alone. *)
Definition prelude_event (e : Event) : bool :=
  match e with
  | EvSetNodeTags t =>
      match tags_get TAG_RAY_RUNTIME_CONFIG t with
      | Some _ => false
      | None => true
      end
  | _ => poll_event e
  end.

(** The part of a history that precedes the first read of the node's
    tags: all of it when there is none. *)
Fixpoint before_tag_read (h : History) : History :=
  match h with
  | [] => []
  | (_, EvNodeTags) :: _ => []
  | te :: h' => te :: before_tag_read h'
  end.

Definition any_event (e : Event) : bool := true.

(** The runner calls of an update that got as far as reading the tags. *)
Definition update_plan (env : Env) (u : NodeUpdater) (tags : Tags)
  : list Event :=
  if fingerprint_matches tags (runtime_hash u)
  then run_plan (ray_start_commands u)
  else sync_plan env (file_mounts u) ++
       run_plan (initialization_commands u) ++
       run_plan (setup_commands u) ++
       run_plan (ray_start_commands u).

(** The shape of a run around its one tag read. *)
Definition reads_then (env : Env) (u : NodeUpdater) {A} (m : M A) : Prop :=
  forall s, wp m s (fun r s' =>
    exists evs,
      grows any_event s s' evs /\ raises_in is_Exception r /\
      Forall (fun te => prelude_event (snd te) = true) (before_tag_read evs) /\
      (is_ok r -> after_tag_read evs <> None) /\
      forall post, after_tag_read evs = Some post ->
        (exists n, invocations post = firstn n (update_plan env u (node_tags s))) /\
        (is_ok r -> invocations post = update_plan env u (node_tags s))).

Definition negative_sleep : Exn :=
  ValueError "sleep length must be non-negative".

(** The process-runner call of a [run]: [check_output] when the output is
    wanted, [check_call] otherwise. *)
Definition proc_event (with_output : bool) (args : ProcArgs) : Event :=
  if with_output then EvCheckOutput args else EvCheckCall args.

Definition any_exn (e : Exn) : bool := true.

(** How a [check_call] turns out for a process that ended as [p]. *)
Definition call_result (args : ProcArgs) (p : ProcResult) : Result unit :=
  match p with
  | Exited 0 _ => Ok tt
  | Exited rc _ => Raise (CalledProcessError rc args)
  | SpawnFailed k m => Raise (OSError k m)
  end.

(** How the process call of a [run] turns out: the output is handed back
    only when it was asked for. *)
Definition run_result (with_output : bool) (args : ProcArgs) (p : ProcResult)
  : Result (option string) :=
  match p with
  | Exited 0 o => Ok (if with_output then Some o else None)
  | Exited rc _ => Raise (CalledProcessError rc args)
  | SpawnFailed k m => Raise (OSError k m)
  end.

(** The provider query behind [get_ip], and the oracle that answers it. *)
Definition get_ip_event (g : ProviderIpGetter) : Event :=
  if ig_use_internal_ip g then EvInternalIp else EvExternalIp.

Definition ip_oracle (env : Env) (g : ProviderIpGetter)
  : History -> option string :=
  if ig_use_internal_ip g
  then provider_internal_ip env
  else provider_external_ip env.

(** What waiting for an address may cause: provider queries and sleeps. *)
Definition lookup_event (e : Event) : bool :=
  match e with
  | EvIsTerminated | EvInternalIp | EvExternalIp | EvSleep _ => true
  | _ => false
  end.

(** Events that leave the stored fingerprint alone. *)
Definition keeps_fingerprint (e : Event) : bool :=
  match e with
  | EvSetNodeTags t =>
      match tags_get TAG_RAY_RUNTIME_CONFIG t with
      | Some _ => false
      | None => true
      end
  | _ => true
  end.

(** The status values of an update, in the order in which they are
    written: the last two only when the stored fingerprint differs. *)
Definition status_plan (u : NodeUpdater) (tags : Tags) : list TagValue :=
  VStatus STATUS_WAITING_FOR_SSH ::
  (if fingerprint_matches tags (runtime_hash u)
   then []
   else [VStatus STATUS_SYNCING_FILES; VStatus STATUS_SETTING_UP]).

(** A computation that leaves the stored fingerprint alone and whose
    status writes are a prefix of a plan, and all of it when it ends
    normally; the plan is chosen by the tags at the start. *)
Definition staged (plan : Tags -> list TagValue) {A} (m : M A) : Prop :=
  forall s, wp m s (fun r s' =>
    exists evs, grows keeps_fingerprint s s' evs /\
                (exists n, status_writes evs = firstn n (plan (node_tags s))) /\
                (is_ok r -> status_writes evs = plan (node_tags s))).

(** What an update through the Kubernetes runner may cause when the
    known-hosts cleanup is off: anything but an address lookup, a run of
    [ssh-keygen] and a port forward. *)
Definition kube_event (e : Event) : bool :=
  match e with
  | EvInternalIp | EvExternalIp | EvSubprocessRun _ _ | EvPopen _ => false
  | _ => true
  end.

(** The statements of an update that call out or can fail, as steps: the
    check that a local path exists, a command given to the runner with
    the default timeout, an upload, and a write of the status tag. *)
Inductive Step :=
| CheckExists (local_path : string)
| RunCommand (cmd : string)
| SyncUp (source target : string)
| SetStatus (v : NodeStatus).

Definition exec_step (env : Env) (u : NodeUpdater) (fuel : nat) (st : Step)
  : M unit :=
  match st with
  | CheckExists p =>
      if os_path_exists env p then ret tt else raise (AssertionError p)
  | RunCommand c => run_cmd env (cmd_runner u) fuel c 120
  | SyncUp source target => rsync_up env u fuel source target
  | SetStatus v =>
      provider_set_node_tags env [(TAG_RAY_NODE_STATUS, VStatus v)]
  end.

(** The runner call that a step makes, if any. *)
Definition step_calls (st : Step) : list Event :=
  match st with
  | RunCommand c => [EvRun (Some c) PfNone]
  | SyncUp source target => [EvRsyncUp source target]
  | CheckExists _ | SetStatus _ => []
  end.

(** The steps for one mount, written out: the local path must exist; a
    directory is synced with a slash at the end of both paths; the
    directory part of the remote path is made; the local path is
    uploaded. *)
Definition mount_steps (env : Env) (rl : string * string) : list Step :=
  let remote := fst rl in
  let locl := snd rl in
  let remote' :=
    if os_path_isdir env locl && negb (PyStr.endswith remote "/")
    then (remote ++ "/")%string else remote in
  let local' :=
    if os_path_isdir env locl && negb (PyStr.endswith locl "/")
    then (locl ++ "/")%string else locl in
  [CheckExists locl;
   RunCommand ("mkdir -p " ++ PosixPath.dirname remote')%string;
   SyncUp local' remote'].

(** The steps of an update after it has read the tags. *)
Definition update_steps (env : Env) (u : NodeUpdater) (tags : Tags)
  : list Step :=
  if fingerprint_matches tags (runtime_hash u)
  then map RunCommand (ray_start_commands u)
  else SetStatus STATUS_SYNCING_FILES ::
       flat_map (mount_steps env) (file_mounts u) ++
       SetStatus STATUS_SETTING_UP ::
       map RunCommand (initialization_commands u) ++
       map RunCommand (setup_commands u) ++
       map RunCommand (ray_start_commands u).

(** Running steps in order, up to and including the first one that
    fails: [runs_steps env u fuel steps s r s' ran] says that from [s]
    the steps [ran], an initial part of [steps], were started one after
    the other; all of them returned normally ([ran] is [steps], [r] is
    [Ok tt]), or all but the last one did and the last one raised the
    error that [r] holds; [s'] is the state at the end. *)
Inductive runs_steps (env : Env) (u : NodeUpdater) (fuel : nat)
  : list Step -> State -> Result unit -> State -> list Step -> Prop :=
| runs_nil s : runs_steps env u fuel [] s (Ok tt) s []
| runs_ok x rest s s1 r s' ran :
    exec_step env u fuel x s = Done (Ok tt) s1 ->
    runs_steps env u fuel rest s1 r s' ran ->
    runs_steps env u fuel (x :: rest) s r s' (x :: ran)
| runs_fail x rest s e s' :
    exec_step env u fuel x s = Done (Raise e) s' ->
    runs_steps env u fuel (x :: rest) s (Raise e) s' [x].

(** A computation that is a run of [steps]. *)
Definition scripted (env : Env) (u : NodeUpdater) (fuel : nat)
    (steps : list Step) (m : M unit) : Prop :=
  forall s r s', m s = Done r s' ->
    exists ran, runs_steps env u fuel steps s r s' ran.

(* ================================================================== *)
(** * Sample worlds *)
(* ================================================================== *)

Module Sample.

Definition ProcArgs_eq_dec (a b : ProcArgs) : {a = b} + {a <> b}.
Proof.
  decide equality; [apply string_dec | apply (list_eq_dec string_dec)].
Defined.

Definition succeed (a : ProcArgs) : ProcResult := Exited 0 "".

Definition fail (a : ProcArgs) : ProcResult := Exited 1 "".

(** Every process succeeds but the one called with [a]. *)
Definition fail_on (a b : ProcArgs) : ProcResult :=
  if ProcArgs_eq_dec a b then Exited 1 "" else Exited 0 "".

(** A world whose answers do not change over time: whether the node is
    terminated, how processes end, how ssh-keygen ends, and the one
    local path that does not exist.  Paths with a trailing slash are
    directories; nothing takes time but sleeping. *)
Definition world (terminated : bool) (proc : ProcArgs -> ProcResult)
    (keygen : RunResult) (missing : string) : Env :=
  mkEnv (fun _ => terminated)
        (fun _ => Some "10.0.0.2") (fun _ => Some "10.0.0.1")
        (fun _ a => proc a) (fun _ _ => Exited 1 "") (fun _ _ => keygen)
        (fun _ _ => 0%N)
        (fun p => negb (String.eqb p missing))
        (fun p => PyStr.endswith p "/")
        (fun p => p) "ray" (fun x => x) "/opt/ray/autoscaler".

Definition calm : Env := world false succeed (Completed 0) "".

(** A node whose first readiness poll fails and which works from then
    on. *)
Definition booting : Env :=
  mkEnv (fun _ => false)
        (fun _ => Some "10.0.0.2") (fun _ => Some "10.0.0.1")
        (fun h _ => if Nat.ltb (length h) 4 then Exited 255 "" else Exited 0 "")
        (fun _ _ => Exited 1 "") (fun _ _ => Completed 0)
        (fun _ _ => 0%N)
        (fun _ => true)
        (fun p => PyStr.endswith p "/")
        (fun p => p) "ray" (fun x => x) "/opt/ray/autoscaler".

(** A node that is never reachable: every process fails. *)
Definition unreachable : Env := world false fail (Completed 0) "".

Definition kube : KubernetesCommandRunner :=
  KubernetesCommandRunner_init "NodeUpdater: n1: " "ns" "n1".

Definition ssh : SSHCommandRunner :=
  mkSSHCommandRunner "NodeUpdater: n1: " "n1" false "key.pem" "ubuntu"
    "/tmp/ray_ssh_0123456789/abcdef0123".

Definition updater (c : CommandRunner) (mounts : list (string * string))
    (starts : list string) (cleanup : bool) : NodeUpdater :=
  mkNodeUpdater false "NodeUpdater: n1: " c "n1" mounts ["init"] ["setup"]
    starts "h1" cleanup.

Definition two_mounts : list (string * string) :=
  [("/app/a", "./a"); ("/app/b/", "./b/")].

(** A state at time 1000 with the given tags and nothing else. *)
Definition fresh (tags : Tags) : State := mkState 1000 tags None None [].

Definition up_to_date_tags : Tags :=
  [(TAG_RAY_NODE_STATUS, VStatus STATUS_UP_TO_DATE);
   (TAG_RAY_RUNTIME_CONFIG, VStr "h1")].

(** A node that already carries the desired fingerprint. *)
Definition matching : State := fresh up_to_date_tags.

Definition final {A} (o : Outcome A) : State :=
  match o with
  | Done _ s => s
  | OutOfFuel => fresh []
  end.

(** The same world without the local directory [./b/]. *)
Definition b_missing : Env := world false succeed (Completed 0) "./b/".

(** A node that the provider reports terminated. *)
Definition gone : Env := world true succeed (Completed 0) "".

(** A world in which ssh-keygen does not finish within its timeout. *)
Definition slow_keygen : Env := world false succeed RunTimedOut "".

Definition uninitialized : Tags :=
  [(TAG_RAY_NODE_STATUS, VStr "uninitialized")].

Definition kube_updater : NodeUpdater :=
  updater (Kubernetes kube) two_mounts ["start1"; "start2"] false.

(** An updater over SSH with the known-hosts cleanup switched on. *)
Definition ssh_updater : NodeUpdater :=
  updater (SSH ssh) [] ["start1"] true.

Definition getter : ProviderIpGetter :=
  mkProviderIpGetter "NodeUpdater: n1: " "n1" false.

(** A state in which the SSH runner already knows the node's address. *)
Definition connected : State :=
  mkState 1000 [] (Some "10.0.0.1") None [].

Definition forward : PortForward := PfList [(8080, 80)].

(** The shell line the Kubernetes runner starts for a command. *)
Definition kube_line (cmd : string) : ProcArgs :=
  ShellCommand (PyStr.join " " (k_final_cmd kube cmd false)).

(** Every process succeeds but the first ray-start command. *)
Definition start1_fails : Env :=
  world false (fail_on (kube_line "start1")) (Completed 0) "".

(** The ends of some runs in the calm world. *)
Definition matched_end : State :=
  final (do_update calm kube_updater 301 matching).

Definition synced : State :=
  final (sync_file_mounts calm kube_updater 301
           (rsync_up calm kube_updater 301) (fresh [])).

Definition cleaned : State :=
  final (remove_node_from_known_hosts calm ssh_updater 301 (fresh [])).


(** The processes of the Kubernetes runner for an upload of [./a] to
    [~/app] and for a download of [~/log]. *)
Definition up_rsync : ProcArgs :=
  Argv ["/opt/ray/autoscaler/kubernetes/kubectl-rsync.sh"; "-avz"; "./a";
        "n1@ns:/root/app"].

Definition up_cp : ProcArgs :=
  Argv ["kubectl"; "-n"; "ns"; "cp"; "./a"; "ns/n1:/root/app"].

Definition down_rsync : ProcArgs :=
  Argv ["/opt/ray/autoscaler/kubernetes/kubectl-rsync.sh"; "-avz";
        "n1@ns:~/log"; "/root/log"].

Definition down_cp : ProcArgs :=
  Argv ["kubectl"; "-n"; "ns"; "cp"; "ns/n1:~/log"; "/root/log"].

(** The upload in the unreachable world, after the rsync helper has
    failed and the warning has been logged. *)
Definition up_warned : State :=
  record unreachable
    (EvLogWarning (LogRsyncFailed "NodeUpdater: n1: "
                     (CalledProcessError 1 up_rsync)))
    (record unreachable (EvCheckCall up_rsync)
       (record unreachable (EvRsyncUp "./a" "~/app") (fresh []))).

End Sample.

(* ================================================================== *)
(** * The model at work *)
(* ================================================================== *)

Example dirname_file : PosixPath.dirname "/app/a" = "/app"%string.
Proof. reflexivity. Qed.

Example dirname_dir : PosixPath.dirname "/app/b/" = "/app/b"%string.
Proof. reflexivity. Qed.

Example dirname_root : PosixPath.dirname "/a" = "/"%string.
Proof. reflexivity. Qed.

Example dirname_relative : PosixPath.dirname "a" = ""%string.
Proof. reflexivity. Qed.

Example quote_safe : Shlex.quote "uptime" = "uptime"%string.
Proof. reflexivity. Qed.

Example quote_spaces : Shlex.quote "mkdir -p /app" = "'mkdir -p /app'"%string.
Proof. reflexivity. Qed.

(** The scenario of the spec: the fingerprint differs, two mounts, one
    command of each kind (two start commands here), the node ready at the
    second poll. *)
Example scenario_second_poll :
  exists s',
    NodeUpdater_run Sample.booting Sample.kube_updater 5
      (Sample.fresh Sample.uninitialized) = Done (Ok tt) s' /\
    node_tags s' = Sample.up_to_date_tags /\
    exitcode s' = Some 0 /\
    invocations (trace s') =
      [ready_poll; ready_poll;
       EvRun (Some "mkdir -p /app"%string) PfNone; EvRsyncUp "./a" "/app/a";
       EvRun (Some "mkdir -p /app/b"%string) PfNone;
       EvRsyncUp "./b/" "/app/b/";
       EvRun (Some "init"%string) PfNone; EvRun (Some "setup"%string) PfNone;
       EvRun (Some "start1"%string) PfNone;
       EvRun (Some "start2"%string) PfNone] /\
    status_writes (trace s') =
      [VStatus STATUS_WAITING_FOR_SSH; VStatus STATUS_SYNCING_FILES;
       VStatus STATUS_SETTING_UP; VStatus STATUS_UP_TO_DATE] /\
    clock s' = 1005.
Proof.
  eexists. split; [vm_compute; reflexivity |]. repeat split; reflexivity.
Qed.

(* ================================================================== *)
(** * The monad's rules *)
(* ================================================================== *)

Lemma wp_bind {A B} (m : M A) (k : A -> M B) s (Q : Result B -> State -> Prop) :
  wp m s (fun r s1 => match r with
                      | Ok a => wp (k a) s1 Q
                      | Raise e => Q (Raise e) s1
                      end) ->
  wp (bind m k) s Q.
Proof.
  unfold wp, bind. intros H r s' E.
  destruct (m s) as [[a | e] s1 |] eqn:Em; try discriminate.
  - exact (H _ _ eq_refl _ _ E).
  - inversion E; subst. exact (H _ _ eq_refl).
Qed.

Lemma wp_try {A} (m : M A) (c : Exn -> bool) (h : Exn -> M A) s
    (Q : Result A -> State -> Prop) :
  wp m s (fun r s1 => match r with
                      | Ok a => Q (Ok a) s1
                      | Raise e => if c e then wp (h e) s1 Q
                                   else Q (Raise e) s1
                      end) ->
  wp (try_except m c h) s Q.
Proof.
  unfold wp, try_except. intros H r s' E.
  destruct (m s) as [[a | e] s1 |] eqn:Em; try discriminate.
  - inversion E; subst. exact (H _ _ eq_refl).
  - specialize (H _ _ eq_refl). cbv beta iota in H.
    destruct (c e).
    + exact (H _ _ E).
    + inversion E; subst. exact H.
Qed.

Lemma wp_mono {A} (m : M A) s (Q Q' : Result A -> State -> Prop) :
  wp m s Q -> (forall r s', Q r s' -> Q' r s') -> wp m s Q'.
Proof. unfold wp. auto. Qed.

Lemma total_bind {A B} (m : M A) (k : A -> M B) s :
  total m s ->
  (forall a s1, m s = Done (Ok a) s1 -> total (k a) s1) ->
  total (bind m k) s.
Proof.
  unfold total, bind. intros Hm Hk.
  destruct (m s) as [[a | e] s1 |]; [auto | discriminate | congruence].
Qed.

Lemma total_try {A} (m : M A) (c : Exn -> bool) (h : Exn -> M A) s :
  total m s ->
  (forall e s1, m s = Done (Raise e) s1 -> c e = true -> total (h e) s1) ->
  total (try_except m c h) s.
Proof.
  unfold total, try_except. intros Hm Hh.
  destruct (m s) as [[a | e] s1 |]; [discriminate | | congruence].
  destruct (c e) eqn:Ec; [auto | discriminate].
Qed.

(* ================================================================== *)
(** * Footprints *)
(* ================================================================== *)

Lemma invocations_app h1 h2 :
  invocations (h1 ++ h2) = invocations h1 ++ invocations h2.
Proof. unfold invocations, events. now rewrite map_app, filter_app. Qed.

Lemma replay_app h1 h2 t : replay (h1 ++ h2) t = replay h2 (replay h1 t).
Proof. unfold replay. apply fold_left_app. Qed.

Lemma replay_off_tags h t :
  Forall (fun te => off_tags (snd te) = true) h -> replay h t = t.
Proof.
  induction 1 as [| [c e] h He _ IH]; [reflexivity |].
  unfold replay in *. simpl in *. destruct e; try discriminate; exact IH.
Qed.

Lemma invocations_background h :
  Forall (fun te => background (snd te) = true) h -> invocations h = [].
Proof.
  unfold invocations, events.
  induction 1 as [| [c e] h He _ IH]; [reflexivity |]. simpl in *.
  unfold background in He. apply andb_true_iff in He as [_ He].
  apply negb_true_iff in He. now rewrite He.
Qed.

Section Rules.

Variable P : Event -> bool.
Variable X : Exn -> bool.

Lemma grows_refl s : grows P s s [].
Proof.
  unfold grows. rewrite app_nil_r. repeat split; auto. lia.
Qed.

Lemma grows_trans s s1 s2 e1 e2 :
  grows P s s1 e1 -> grows P s1 s2 e2 -> grows P s s2 (e1 ++ e2).
Proof.
  unfold grows. intros (T1 & N1 & X1 & C1 & F1) (T2 & N2 & X2 & C2 & F2).
  repeat split; try congruence; try lia.
  - now rewrite T2, T1, app_assoc.
  - now rewrite replay_app, <- N1.
  - apply Forall_app; auto.
Qed.

Lemma grows_emit env e s :
  P e = true -> (forall t, e <> EvSetNodeTags t) ->
  grows P s (mkState (clock s + Z.of_N (elapsed env (trace s) e))
               (node_tags s) (ssh_ip s) (exitcode s)
               (trace s ++ [(clock s, e)]))
        [(clock s, e)].
Proof.
  intros He Hn. unfold grows; simpl. repeat split; auto; [| lia].
  unfold replay; simpl. destruct e; auto. now contradiction (Hn tags).
Qed.

Lemma within_ret {A} (a : A) : within P X (ret a).
Proof.
  intros s r s' E. inversion E; subst.
  exists []. split; [apply grows_refl | exact I].
Qed.

Lemma within_raise {A} e : X e = true -> within P X (@raise A e).
Proof.
  intros He s r s' E. inversion E; subst.
  exists []. split; [apply grows_refl | exact He].
Qed.

Lemma within_bind {A B} (m : M A) (k : A -> M B) :
  within P X m -> (forall a, within P X (k a)) -> within P X (bind m k).
Proof.
  intros Hm Hk s. apply wp_bind.
  eapply wp_mono; [apply Hm |]. intros [a | e] s1 (ev1 & Q1 & O1).
  - eapply wp_mono; [apply Hk |]. intros r s2 (ev2 & Q2 & O2).
    exists (ev1 ++ ev2). split; [eapply grows_trans; eauto | exact O2].
  - exists ev1. auto.
Qed.

Lemma within_try {A} (m : M A) (c : Exn -> bool) (h : Exn -> M A) :
  within P X m -> (forall e, X e = true -> within P X (h e)) ->
  within P X (try_except m c h).
Proof.
  intros Hm Hh s. apply wp_try.
  eapply wp_mono; [apply Hm |]. intros [a | e] s1 (ev1 & Q1 & O1).
  - exists ev1. auto.
  - destruct (c e).
    + eapply wp_mono; [apply (Hh e O1) |]. intros r s2 (ev2 & Q2 & O2).
      exists (ev1 ++ ev2). split; [eapply grows_trans; eauto | exact O2].
    + exists ev1. auto.
Qed.

Lemma within_emit env e :
  P e = true -> (forall t, e <> EvSetNodeTags t) -> within P X (emit env e).
Proof.
  intros Ht Hn s r s' E. simpl in E. inversion E; subst.
  exists [(clock s, e)]. split; [now apply grows_emit | exact I].
Qed.

Lemma within_ask env {A} (oracle : History -> A) e :
  P e = true -> (forall t, e <> EvSetNodeTags t) ->
  within P X (ask env oracle e).
Proof.
  intros Ht Hn s r s' E. unfold ask, bind in E. simpl in E.
  inversion E; subst.
  exists [(clock s, e)]. split; [now apply grows_emit | exact I].
Qed.

Lemma within_state {A} (f : State -> A) (g : State -> State) :
  (forall s, trace (g s) = trace s /\ node_tags (g s) = node_tags s /\
             exitcode (g s) = exitcode s /\ clock s <= clock (g s)) ->
  within P X (fun s => Done (Ok (f s)) (g s)).
Proof.
  intros H s r s' E. inversion E; subst. destruct (H s) as (T & N & C & K).
  exists []. split; [| exact I].
  unfold grows. rewrite app_nil_r. auto.
Qed.

End Rules.

Lemma grows_weaken (P P' : Event -> bool) s s' evs :
  (forall e, P e = true -> P' e = true) -> grows P s s' evs -> grows P' s s' evs.
Proof.
  intros HP (T & N & C & K & F). repeat split; auto.
  eapply Forall_impl; [| exact F]. intros te; apply HP.
Qed.

Lemma within_weaken (P P' : Event -> bool) (X X' : Exn -> bool) {A} (m : M A) :
  (forall e, P e = true -> P' e = true) ->
  (forall e, X e = true -> X' e = true) ->
  within P X m -> within P' X' m.
Proof.
  intros HP HX H s r s' E. destruct (H s r s' E) as (evs & G & R).
  exists evs. split; [eapply grows_weaken; eauto |].
  destruct r; simpl in *; auto.
Qed.

(* ================================================================== *)
(** * Planned runner calls *)
(* ================================================================== *)

Lemma firstn_prefix_app {A} (p1 p2 : list A) n :
  exists n', firstn n p1 = firstn n' (p1 ++ p2).
Proof.
  revert n. induction p1 as [| a p1 IH]; intros n.
  - exists O. now rewrite firstn_nil.
  - destruct n as [| n]; [now exists O |].
    destruct (IH n) as [n' E]. exists (S n'). simpl. now rewrite E.
Qed.

Lemma background_off_tags e : background e = true -> off_tags e = true.
Proof. unfold background. intros H. now apply andb_true_iff in H. Qed.

Lemma off_tags_not_tag_read e : off_tags e = true -> not_tag_read e = true.
Proof. now destruct e. Qed.

Section Plans.

Variable P : Event -> bool.
Variable X : Exn -> bool.
Hypothesis background_P : forall e, background e = true -> P e = true.

Lemma planned_within {A} (m : M A) :
  within background X m -> planned P X m [].
Proof.
  intros H s r s' E. destruct (H s r s' E) as (evs & G & R).
  exists evs. split; [eapply grows_weaken; eauto |]. split; [exact R |].
  assert (I : invocations evs = [])
    by (apply invocations_background; apply G).
  split; [exists O; exact I | intros _; exact I].
Qed.

Lemma planned_ret {A} (a : A) : planned P X (ret a) [].
Proof. apply planned_within, within_ret. Qed.

Lemma planned_raise {A} e plan : X e = true -> planned P X (@raise A e) plan.
Proof.
  intros He s r s' E. inversion E; subst.
  exists []. split; [apply grows_refl |]. split; [exact He |].
  split; [exists O; reflexivity | intros []].
Qed.

Lemma planned_bind {A B} (m : M A) (k : A -> M B) p1 p2 :
  planned P X m p1 -> (forall a, planned P X (k a) p2) ->
  planned P X (bind m k) (p1 ++ p2).
Proof.
  intros Hm Hk s. apply wp_bind.
  eapply wp_mono; [apply Hm |].
  intros [a | e] s1 (ev1 & G1 & R1 & [n1 I1] & F1).
  - eapply wp_mono; [apply Hk |].
    intros r s2 (ev2 & G2 & R2 & [n2 I2] & F2).
    exists (ev1 ++ ev2). split; [eapply grows_trans; eauto |].
    split; [exact R2 |]. rewrite invocations_app, (F1 I). split.
    + exists (length p1 + n2)%nat. now rewrite firstn_app_2, I2.
    + intros Hr. now rewrite (F2 Hr).
  - exists ev1. split; [exact G1 |]. split; [exact R1 |].
    split; [| intros []]. rewrite I1. apply firstn_prefix_app.
Qed.

Lemma planned_for_each {A} (l : list A) (body : A -> M unit) plan :
  (forall x, planned P X (body x) (plan x)) ->
  planned P X (for_each l body) (flat_map plan l).
Proof.
  intros Hb. induction l as [| x l IH]; simpl.
  - apply planned_ret.
  - apply planned_bind; [apply Hb | intros _; exact IH].
Qed.

(** A runner method: its mark, then background work. *)
Lemma planned_mark env {A} (m : M A) mk :
  is_invocation mk = true -> P mk = true ->
  within background X m -> planned P X (emit env mk ;; m) [mk].
Proof.
  intros Hi HP Hm s. apply wp_bind. intros r s1 E. simpl in E.
  inversion E; subst. clear E.
  intros r s2 E. destruct (Hm _ _ _ E) as (ev & G & R).
  exists ([(clock s, mk)] ++ ev). split; [| split; [exact R |]].
  - eapply grows_trans; [| eapply grows_weaken; eauto].
    apply grows_emit; [exact HP | now destruct mk].
  - assert (I : invocations ([(clock s, mk)] ++ ev) = [mk]).
    { rewrite invocations_app, (invocations_background ev) by apply G.
      unfold invocations; simpl. now rewrite Hi. }
    split; [exists 1%nat; exact I | intros _; exact I].
Qed.

End Plans.

Lemma planned_weaken (P P' : Event -> bool) (X X' : Exn -> bool) {A}
    (m : M A) plan :
  (forall e, P e = true -> P' e = true) ->
  (forall e, X e = true -> X' e = true) ->
  planned P X m plan -> planned P' X' m plan.
Proof.
  intros HP HX H s r s' E. destruct (H s r s' E) as (evs & G & R & N & F).
  exists evs. split; [eapply grows_weaken; eauto |].
  split; [| split; assumption]. destruct r; simpl in *; auto.
Qed.

(* ================================================================== *)
(** * Footprints of the transport *)
(* ================================================================== *)

Ltac bg_step :=
  first
    [ match goal with
      | H : context [within] |- within _ _ _ => simple apply H
      end
    | apply within_ret
    | apply within_raise; first [ reflexivity | assumption ]
    | apply within_emit; [ reflexivity | discriminate ]
    | apply within_ask; [ reflexivity | discriminate ]
    | apply within_bind; [| intros ]
    | apply within_try; [| intros ]
    | match goal with
      | |- within _ _ (match ?x with _ => _ end) => destruct x
      | |- within _ _ (if ?b then _ else _) => destruct b
      end ].

Ltac bg_tac := repeat bg_step.

Section Footprints.

Variable env : Env.
Variable P : Event -> bool.
Variable X : Exn -> bool.

Lemma within_time_time : within P X time_time.
Proof. apply (within_state P X clock (fun s => s)). intros; repeat split; lia. Qed.

Lemma within_get_ssh_ip : within P X get_ssh_ip.
Proof. apply (within_state P X ssh_ip (fun s => s)). intros; repeat split; lia. Qed.

Lemma within_set_ssh_ip ip : within P X (set_ssh_ip ip).
Proof.
  apply (within_state P X (fun _ => tt)
           (fun s => mkState (clock s) (node_tags s) ip (exitcode s) (trace s))).
  intros; simpl; repeat split; lia.
Qed.

End Footprints.

Section Background.

Variable env : Env.

Abbreviation bg := (within background ordinary).

Lemma bg_time_sleep secs : bg (time_sleep env secs).
Proof.
  unfold time_sleep. destruct (secs <? 0) eqn:E; bg_tac.
  apply (within_state _ _ (fun _ => tt)
           (fun s => mkState (clock s + secs) (node_tags s) (ssh_ip s)
                       (exitcode s) (trace s))).
  intros; simpl; repeat split; lia.
Qed.

Lemma bg_check_call args : bg (check_call env args).
Proof. unfold check_call. bg_tac. Qed.

Lemma bg_check_output args : bg (check_output env args).
Proof. unfold check_output. bg_tac. Qed.

Lemma bg_get_ip g : bg (get_ip env g).
Proof. unfold get_ip, internal_ip, external_ip. bg_tac. Qed.

Lemma bg_wait_for_ip_loop fuel g deadline sl :
  bg (wait_for_ip_loop env fuel g deadline sl).
Proof.
  pose proof within_time_time. pose proof bg_time_sleep.
  pose proof bg_get_ip.
  induction fuel as [| fuel IH]; simpl.
  - intros s r s' E. discriminate.
  - unfold is_terminated. bg_tac.
Qed.

Lemma bg_wait_for_ip g fuel timeout deadline sl :
  bg (wait_for_ip env g fuel timeout deadline sl).
Proof.
  pose proof within_time_time. pose proof bg_wait_for_ip_loop.
  unfold wait_for_ip, both_specified. bg_tac.
Qed.

Lemma bg_set_ssh_ip_if_required r fuel :
  bg (set_ssh_ip_if_required env r fuel).
Proof.
  pose proof within_time_time. pose proof within_get_ssh_ip.
  pose proof within_set_ssh_ip. pose proof bg_wait_for_ip.
  pose proof bg_check_call.
  unfold set_ssh_ip_if_required, s_wait_for_ip. bg_tac.
Qed.

End Background.

Section Marks.

Variable env : Env.
Variable P : Event -> bool.
Hypothesis background_P : forall e, background e = true -> P e = true.

(** [cmd_runner.run] without [exit_on_fail] leaves its one mark. *)
Lemma planned_runner_run c fuel cmd timeout tty pf out :
  P (EvRun cmd pf) = true ->
  planned P ordinary (runner_run env c fuel cmd timeout tty false pf out)
          [EvRun cmd pf].
Proof.
  intros HP.
  pose proof (within_get_ssh_ip background ordinary).
  pose proof (bg_set_ssh_ip_if_required env).
  pose proof (bg_check_call env). pose proof (bg_check_output env).
  destruct c as [r | r]; simpl.
  - unfold k_run, both_together, none_concat.
    apply planned_mark; [exact background_P | reflexivity | exact HP |].
    bg_tac.
  - unfold s_run.
    apply planned_mark; [exact background_P | reflexivity | exact HP |].
    bg_tac.
Qed.

Lemma planned_run_cmd c fuel cmd timeout :
  P (EvRun (Some cmd) PfNone) = true ->
  planned P ordinary (run_cmd env c fuel cmd timeout)
          [EvRun (Some cmd) PfNone].
Proof.
  intros HP.
  unfold run_cmd. rewrite <- (app_nil_r [EvRun (Some cmd) PfNone]).
  apply planned_bind.
  - now apply planned_runner_run.
  - intros _. apply planned_ret. exact background_P.
Qed.

Lemma planned_rsync_up u fuel source target :
  P (EvRsyncUp source target) = true ->
  planned P ordinary (rsync_up env u fuel source target)
          [EvRsyncUp source target].
Proof.
  intros HP.
  pose proof (within_get_ssh_ip background ordinary).
  pose proof (bg_set_ssh_ip_if_required env).
  pose proof (bg_check_call env).
  unfold rsync_up, runner_run_rsync_up. destruct (cmd_runner u) as [r | r].
  - unfold k_run_rsync_up.
    apply planned_mark; [exact background_P | reflexivity | exact HP |].
    bg_tac.
  - unfold s_run_rsync_up.
    apply planned_mark; [exact background_P | reflexivity | exact HP |].
    bg_tac.
Qed.

End Marks.

(* ================================================================== *)
(** * File mounts and command sequences *)
(* ================================================================== *)

Lemma run_plan_flat_map cmds :
  run_plan cmds = flat_map (fun c => [EvRun (Some c) PfNone]) cmds.
Proof.
  unfold run_plan. induction cmds as [| c cmds IH]; simpl; congruence.
Qed.

(** In the plan of a list of mounts every sync follows directly the mkdir
    of the directory part of the same remote path. *)
Lemma sync_plan_mkdir_first env mounts i source target :
  nth_error (sync_plan env mounts) i = Some (EvRsyncUp source target) ->
  exists j, i = S j /\
            nth_error (sync_plan env mounts) j =
              Some (EvRun (Some (mkdir_cmd target)) PfNone).
Proof.
  revert i. induction mounts as [| rl mounts IH]; intros i H.
  - destruct i; discriminate.
  - unfold sync_plan in *. simpl in *.
    destruct i as [| [| i]]; simpl in *.
    + discriminate.
    + exists O. split; [reflexivity |]. simpl. congruence.
    + destruct (IH _ H) as (j & -> & Hj). exists (S (S j)). auto.
Qed.

Section Sequences.

Variable env : Env.

Lemma planned_sync_file_mount u fuel rl :
  planned off_tags ordinary
    (sync_file_mount env u fuel (rsync_up env u fuel) (fst rl) (snd rl))
    (mount_plan env rl).
Proof.
  destruct rl as [remote_path local_path]. unfold sync_file_mount. simpl.
  destruct (os_path_exists env local_path); simpl.
  - unfold mount_plan. simpl.
    change [EvRun (Some (mkdir_cmd (fst (mount_paths env remote_path local_path)))) PfNone;
            EvRsyncUp (snd (mount_paths env remote_path local_path))
                      (fst (mount_paths env remote_path local_path))]
      with ([EvRun (Some (mkdir_cmd (fst (mount_paths env remote_path local_path)))) PfNone] ++
            [EvRsyncUp (snd (mount_paths env remote_path local_path))
                       (fst (mount_paths env remote_path local_path))]).
    apply planned_bind;
      [apply planned_run_cmd; [apply background_off_tags | reflexivity] |].
    intros _. apply planned_rsync_up; [apply background_off_tags |].
    reflexivity.
  - apply planned_raise. reflexivity.
Qed.

Lemma planned_sync_mounts u fuel mounts :
  planned off_tags ordinary
    (for_each mounts
       (fun rl => sync_file_mount env u fuel (rsync_up env u fuel)
                    (fst rl) (snd rl)))
    (sync_plan env mounts).
Proof.
  unfold sync_plan.
  apply planned_for_each; [apply background_off_tags |].
  apply planned_sync_file_mount.
Qed.

Lemma planned_sync_file_mounts u fuel :
  planned off_tags ordinary
    (sync_file_mounts env u fuel (rsync_up env u fuel))
    (sync_plan env (file_mounts u)).
Proof. apply planned_sync_mounts. Qed.

Lemma planned_run_all u fuel cmds :
  planned off_tags ordinary (run_all env u fuel cmds) (run_plan cmds).
Proof.
  unfold run_all. rewrite run_plan_flat_map.
  apply planned_for_each; [apply background_off_tags |].
  intros c. apply planned_run_cmd; [apply background_off_tags |].
  reflexivity.
Qed.

End Sequences.


(* ================================================================== *)
(** * do_update *)
(* ================================================================== *)

Lemma background_poll e : background e = true -> poll_event e = true.
Proof. now destruct e. Qed.

Lemma poll_prelude e : poll_event e = true -> prelude_event e = true.
Proof. now destruct e. Qed.

Lemma background_prelude e : background e = true -> prelude_event e = true.
Proof. intros H. now apply poll_prelude, background_poll. Qed.

Lemma poll_invocation e :
  prelude_event e = true -> is_invocation e = true -> e = ready_poll.
Proof.
  destruct e; try discriminate. simpl.
  destruct cmd as [c |]; [| discriminate].
  destruct port_forward; try discriminate.
  intros H _. apply String.eqb_eq in H. now subst.
Qed.

Lemma ordinary_is_Exception e : ordinary e = true -> is_Exception e = true.
Proof. now destruct e. Qed.

Lemma after_tag_read_prelude ev1 ev2 :
  Forall (fun te => prelude_event (snd te) = true) ev1 ->
  after_tag_read (ev1 ++ ev2) = after_tag_read ev2.
Proof.
  induction 1 as [| [c e] ev1 He _ IH]; [reflexivity |].
  simpl in *. destruct e; try discriminate; exact IH.
Qed.

Lemma before_tag_read_prelude ev1 ev2 :
  Forall (fun te => prelude_event (snd te) = true) ev1 ->
  before_tag_read (ev1 ++ ev2) = ev1 ++ before_tag_read ev2.
Proof.
  induction 1 as [| [c e] ev1 He _ IH]; [reflexivity |].
  simpl in *. destruct e; try discriminate; now rewrite IH.
Qed.

Lemma tags_get_put_other k k' v t :
  TagKey_eqb k k' = false -> tags_get k (tags_put k' v t) = tags_get k t.
Proof.
  intros Hk. induction t as [| [k0 v0] t IH]; simpl.
  - now rewrite Hk.
  - destruct (TagKey_eqb k' k0) eqn:E0; simpl.
    + destruct k, k', k0; simpl in *; try discriminate; try reflexivity.
      apply String.eqb_eq in E0. subst. now rewrite Hk.
    + destruct (TagKey_eqb k k0); auto.
Qed.

Lemma tags_get_update_absent k new t :
  tags_get k new = None -> tags_get k (tags_update new t) = tags_get k t.
Proof.
  unfold tags_update. revert t.
  induction new as [| [k0 v0] new IH]; intros t H; simpl in *; [reflexivity |].
  destruct (TagKey_eqb k k0) eqn:E; [discriminate |].
  rewrite IH by exact H. now apply tags_get_put_other.
Qed.

Lemma replay_prelude h t :
  Forall (fun te => prelude_event (snd te) = true) h ->
  tags_get TAG_RAY_RUNTIME_CONFIG (replay h t) =
  tags_get TAG_RAY_RUNTIME_CONFIG t.
Proof.
  intros H. revert t. induction H as [| [c e] h He _ IH]; intros t.
  - reflexivity.
  - unfold replay in *. simpl in *. rewrite IH.
    destruct e; try reflexivity. unfold prelude_event in He.
    destruct (tags_get TAG_RAY_RUNTIME_CONFIG tags) eqn:E; [discriminate |].
    now apply tags_get_update_absent.
Qed.

Lemma update_plan_fingerprint env u t t' :
  tags_get TAG_RAY_RUNTIME_CONFIG t = tags_get TAG_RAY_RUNTIME_CONFIG t' ->
  update_plan env u t = update_plan env u t'.
Proof. unfold update_plan, fingerprint_matches. now intros ->. Qed.

Section Reading.

Variable env : Env.
Variable u : NodeUpdater.

Lemma reads_then_bind {A B} (m : M A) (k : A -> M B) :
  within prelude_event is_Exception m ->
  (forall a, reads_then env u (k a)) ->
  reads_then env u (bind m k).
Proof.
  intros Hm Hk s. apply wp_bind.
  eapply wp_mono; [apply Hm |]. intros [a | e] s1 (ev1 & G1 & R1).
  - eapply wp_mono; [apply Hk |].
    intros r s2 (ev2 & G2 & R2 & Hpre & Hread & Hplan).
    assert (F1 : Forall (fun te => prelude_event (snd te) = true) ev1)
      by apply G1.
    assert (Efp : update_plan env u (node_tags s1) =
                  update_plan env u (node_tags s)).
    { apply update_plan_fingerprint.
      destruct G1 as (_ & -> & _). now apply replay_prelude. }
    exists (ev1 ++ ev2). split.
    + eapply grows_trans; [| exact G2].
      eapply grows_weaken; [| exact G1]. reflexivity.
    + rewrite after_tag_read_prelude, before_tag_read_prelude by exact F1.
      rewrite <- Efp. split; [exact R2 |].
      split; [apply Forall_app; auto | auto].
  - exists ev1. split; [eapply grows_weaken; [| exact G1]; reflexivity |].
    split; [exact R1 |].
    split; [rewrite <- (app_nil_r ev1), before_tag_read_prelude by apply G1;
            simpl; rewrite app_nil_r; apply G1 |].
    split; [intros [] |].
    intros post Hp.
    rewrite <- (app_nil_r ev1), after_tag_read_prelude in Hp by apply G1.
    discriminate.
Qed.

Lemma reads_then_read {B} (k : Tags -> M B) :
  (forall tags, planned not_tag_read is_Exception (k tags)
                  (update_plan env u tags)) ->
  reads_then env u (bind (provider_node_tags env) k).
Proof.
  intros Hk s. apply wp_bind. intros r s1 E.
  unfold provider_node_tags, bind in E. simpl in E. inversion E; subst.
  clear E. simpl.
  intros r s2 E. destruct (Hk _ _ _ _ E) as (ev & G & R & N & F).
  destruct G as (T & Nt & Xc & C & Fa). simpl in *.
  exists ((clock s, EvNodeTags) :: ev). split; [| split; [exact R |]].
  - unfold grows. simpl. rewrite T, <- app_assoc. simpl.
    split; [reflexivity |]. split; [rewrite Nt; reflexivity |].
    split; [exact Xc |]. split; [lia |].
    constructor; [reflexivity |].
    eapply Forall_impl; [| exact Fa]. reflexivity.
  - simpl. split; [constructor |]. split; [intros _; discriminate |].
    intros post Hp. inversion Hp; subst. auto.
Qed.

End Reading.

Lemma planned_is_within (P : Event -> bool) (X : Exn -> bool) {A} (m : M A)
    plan :
  planned P X m plan -> within P X m.
Proof.
  intros H s r s' E. destruct (H s r s' E) as (evs & G & R & _).
  exists evs. auto.
Qed.

Section UpdateFootprint.

Variable env : Env.

Lemma within_set_node_tags (P : Event -> bool) (X : Exn -> bool) tags :
  P (EvSetNodeTags tags) = true ->
  within P X (provider_set_node_tags env tags).
Proof.
  intros HP s r s' E. unfold provider_set_node_tags, bind in E.
  simpl in E. inversion E; subst. clear E.
  exists [(clock s, EvSetNodeTags tags)]. split; [| exact I].
  unfold grows; simpl. repeat split; auto. lia.
Qed.

Lemma planned_set_node_tags (P : Event -> bool) (X : Exn -> bool) tags :
  P (EvSetNodeTags tags) = true ->
  planned P X (provider_set_node_tags env tags) [].
Proof.
  intros HP s r s' E.
  destruct (within_set_node_tags P X tags HP s r s' E) as (evs & G & R).
  exists evs. split; [exact G |]. split; [exact R |].
  unfold provider_set_node_tags, bind in E. simpl in E. inversion E; subst.
  destruct G as (T & _). simpl in T. apply app_inv_head in T. subst evs.
  split; [exists O |]; reflexivity.
Qed.

Lemma within_poll c fuel timeout :
  within poll_event ordinary (run_cmd env c fuel "uptime" timeout).
Proof.
  eapply planned_is_within, planned_run_cmd;
    [apply background_poll | reflexivity].
Qed.

Lemma within_describe_error (P : Event -> bool) e colon :
  within P ordinary (describe_error e colon).
Proof. unfold describe_error. bg_tac. Qed.

Lemma within_wait_ready_loop n u fuel deadline :
  within poll_event ordinary (wait_ready_loop env n u fuel deadline).
Proof.
  pose proof (within_time_time poll_event ordinary).
  pose proof within_poll.
  pose proof (within_describe_error poll_event).
  assert (forall secs, within poll_event ordinary (time_sleep env secs))
    by (intros; eapply within_weaken;
        [apply background_poll | intros e He; exact He
        | apply bg_time_sleep]).
  induction n as [| n IH]; simpl.
  - intros s r s' E. discriminate.
  - unfold is_terminated, unable_to_connect. bg_tac.
Qed.

Lemma within_forget_known_host host timeout :
  within background is_Exception (forget_known_host env host timeout).
Proof. unfold forget_known_host. bg_tac. Qed.

Lemma within_remove_node_from_known_hosts u fuel :
  within background is_Exception (remove_node_from_known_hosts env u fuel).
Proof.
  pose proof within_forget_known_host.
  assert (forall g t d sl,
             within background is_Exception (wait_for_ip env g fuel t d sl))
    by (intros; eapply within_weaken;
        [intros e He; exact He | apply ordinary_is_Exception
        | apply bg_wait_for_ip]).
  unfold remove_node_from_known_hosts. bg_tac.
Qed.

Lemma planned_after_read u fuel tags :
  planned not_tag_read is_Exception
    ((if fingerprint_matches tags (runtime_hash u)
      then ret tt
      else
        provider_set_node_tags env
          [(TAG_RAY_NODE_STATUS, VStatus STATUS_SYNCING_FILES)] ;;
        sync_file_mounts env u fuel (rsync_up env u fuel) ;;
        provider_set_node_tags env
          [(TAG_RAY_NODE_STATUS, VStatus STATUS_SETTING_UP)] ;;
        run_all env u fuel (initialization_commands u) ;;
        run_all env u fuel (setup_commands u)) ;;
     run_all env u fuel (ray_start_commands u))
    (update_plan env u tags).
Proof.
  assert (Hrun : forall cmds, planned not_tag_read is_Exception
                   (run_all env u fuel cmds) (run_plan cmds))
    by (intros; eapply planned_weaken;
        [apply off_tags_not_tag_read | apply ordinary_is_Exception
        | apply planned_run_all]).
  unfold update_plan. destruct (fingerprint_matches tags (runtime_hash u)).
  - change (run_plan (ray_start_commands u))
      with ([] ++ run_plan (ray_start_commands u)).
    apply planned_bind; [| intros _; apply Hrun].
    apply planned_ret. intros e He.
    now apply off_tags_not_tag_read, background_off_tags.
  - rewrite 2 app_assoc.
    apply planned_bind; [| intros _; apply Hrun].
    rewrite <- app_assoc.
    change (sync_plan env (file_mounts u) ++
            run_plan (initialization_commands u) ++
            run_plan (setup_commands u))
      with ([] ++ sync_plan env (file_mounts u) ++ [] ++
            run_plan (initialization_commands u) ++
            run_plan (setup_commands u)).
    apply planned_bind; [now apply planned_set_node_tags | intros _].
    apply planned_bind; [| intros _].
    { eapply planned_weaken;
        [apply off_tags_not_tag_read | apply ordinary_is_Exception
        | apply planned_sync_file_mounts]. }
    apply planned_bind; [now apply planned_set_node_tags | intros _].
    apply planned_bind; [| intros _]; apply Hrun.
Qed.

Lemma reads_then_do_update u fuel : reads_then env u (do_update env u fuel).
Proof.
  unfold do_update.
  apply reads_then_bind; [| intros _].
  { destruct (remove_node_from_known_hosts_before_use u).
    - eapply within_weaken;
        [apply background_prelude | intros e He; exact He
        | apply within_remove_node_from_known_hosts].
    - apply within_ret. }
  apply reads_then_bind; [now apply within_set_node_tags | intros _].
  apply reads_then_bind; [apply within_time_time | intros now].
  apply reads_then_bind; [| intros _].
  { eapply within_weaken;
      [apply poll_prelude | apply ordinary_is_Exception
      | apply within_wait_ready_loop]. }
  apply reads_then_read. intros tags. apply planned_after_read.
Qed.

End UpdateFootprint.

Lemma invocations_prelude h e :
  Forall (fun te => prelude_event (snd te) = true) h ->
  In e (invocations h) -> e = ready_poll.
Proof.
  intros F Hin. unfold invocations, events in Hin.
  apply filter_In in Hin as [Hin Hi].
  apply in_map_iff in Hin as (te & <- & Hte).
  rewrite Forall_forall in F. apply poll_invocation; auto.
Qed.


(** The first of two ray-start commands fails on a node whose stored
    fingerprint is the desired one: the second one is never run. *)
Lemma do_update_start_not_in_full :
  fingerprint_matches (node_tags Sample.matching)
    (runtime_hash Sample.kube_updater) = true /\
  ray_start_commands Sample.kube_updater = ["start1"; "start2"]%string /\
  exists s',
    do_update Sample.start1_fails Sample.kube_updater 5 Sample.matching =
      Done (Raise (CalledProcessError 1 (Sample.kube_line "start1"))) s' /\
    invocations (trace s') =
      [ready_poll; EvRun (Some "start1"%string) PfNone] /\
    ~ In (EvRun (Some "start2"%string) PfNone) (invocations (trace s')).
Proof.
  split; [reflexivity |]. split; [reflexivity |].
  exists (Sample.final (do_update Sample.start1_fails Sample.kube_updater 5
                          Sample.matching)).
  split; [vm_compute; reflexivity |].
  split; [vm_compute; reflexivity |].
  vm_compute. intros [H | [H | []]]; discriminate.
Qed.

(* ================================================================== *)
(** * Running a computation step by step *)
(* ================================================================== *)

Lemma bind_ok {A B} (m : M A) (k : A -> M B) s a s1 :
  m s = Done (Ok a) s1 -> bind m k s = k a s1.
Proof. unfold bind. now intros ->. Qed.

Lemma bind_raise {A B} (m : M A) (k : A -> M B) s e s1 :
  m s = Done (Raise e) s1 -> bind m k s = Done (Raise e) s1.
Proof. unfold bind. now intros ->. Qed.

Lemma try_ok {A} (m : M A) (c : Exn -> bool) (h : Exn -> M A) s a s1 :
  m s = Done (Ok a) s1 -> try_except m c h s = Done (Ok a) s1.
Proof. unfold try_except. now intros ->. Qed.

Lemma try_caught {A} (m : M A) (c : Exn -> bool) (h : Exn -> M A) s e s1 :
  m s = Done (Raise e) s1 -> c e = true -> try_except m c h s = h e s1.
Proof. unfold try_except. now intros -> ->. Qed.

Lemma total_done {A} (m : M A) s :
  total m s -> exists r s', m s = Done r s'.
Proof.
  unfold total. destruct (m s) as [r s' |]; [eauto | congruence].
Qed.

Lemma describe_ordinary e colon s :
  ordinary e = true ->
  exists str, describe_error e colon s = Done (Ok str) s.
Proof.
  unfold describe_error. destruct e; try discriminate; simpl; eauto.
Qed.

(* ================================================================== *)
(** * Termination *)
(* ================================================================== *)

Section Termination.

Variable env : Env.

Lemma total_check_call args s : total (check_call env args) s.
Proof.
  unfold total, check_call, bind, ask. simpl.
  destruct (process_runner env (trace s) args) as [[| p | p] out | k m];
    discriminate.
Qed.

Lemma total_check_output args s : total (check_output env args) s.
Proof.
  unfold total, check_output, bind, ask. simpl.
  destruct (process_runner env (trace s) args) as [[| p | p] out | k m];
    discriminate.
Qed.

Lemma wait_for_ip_loop_S fuel g d sl :
  wait_for_ip_loop env (S fuel) g (Some d) sl =
  (now <- time_time ;;
   if now <? d then
     t <- is_terminated env ;;
     if t then ret None
     else
       ip <- get_ip env g ;;
       match ip with
       | Some a => ret (Some a)
       | None => time_sleep env sl ;; wait_for_ip_loop env fuel g (Some d) sl
       end
   else ret None).
Proof. reflexivity. Qed.

Lemma is_terminated_runs s t s1 :
  is_terminated env s = Done (Ok t) s1 ->
  t = provider_is_terminated env (trace s) /\ clock s <= clock s1 /\
  trace s1 = trace s ++ [(clock s, EvIsTerminated)].
Proof.
  unfold is_terminated, ask, bind. simpl. intros E. inversion E; subst.
  simpl. repeat split; lia.
Qed.

Lemma is_terminated_done s :
  exists s1,
    is_terminated env s =
      Done (Ok (provider_is_terminated env (trace s))) s1 /\
    clock s <= clock s1.
Proof. eexists. split; [reflexivity | simpl; lia]. Qed.

Lemma get_ip_runs g s ip s1 :
  get_ip env g s = Done (Ok ip) s1 -> clock s <= clock s1.
Proof.
  unfold get_ip, internal_ip, external_ip, ask, bind.
  destruct (ig_use_internal_ip g); simpl; intros E; inversion E; subst;
    simpl; lia.
Qed.

Lemma time_sleep_runs secs s r s1 :
  time_sleep env secs s = Done r s1 ->
  (r = Ok tt /\ 0 <= secs /\ clock s + secs <= clock s1) \/
  (secs < 0 /\ exists e, r = Raise e /\ ordinary e = true).
Proof.
  unfold time_sleep, bind, advance.
  destruct (secs <? 0) eqn:Neg; simpl; intros E; inversion E; subst.
  - right. apply Z.ltb_lt in Neg. split; [lia |]. eexists; split; eauto.
  - left. apply Z.ltb_ge in Neg. simpl. repeat split; lia.
Qed.

Lemma total_time_sleep secs s : total (time_sleep env secs) s.
Proof.
  unfold total, time_sleep, bind, advance.
  destruct (secs <? 0); discriminate.
Qed.

(** The polling loop of [wait_for_ip] ends within as many rounds as there
    are seconds left, when it sleeps at least one second a round. *)
Lemma total_wait_for_ip_loop g d sl :
  1 <= sl ->
  forall n s, d - clock s <= Z.of_nat n ->
              total (wait_for_ip_loop env (S n) g (Some d) sl) s.
Proof.
  intros Hsl. induction n as [| n IH]; intros s Hd;
    rewrite wait_for_ip_loop_S;
    (apply total_bind; [discriminate |]); intros now s1 E;
    inversion E; subst; clear E;
    (destruct (clock s1 <? d) eqn:Lt; [| discriminate]);
    apply Z.ltb_lt in Lt.
  - simpl in Hd. lia.
  - apply total_bind; [discriminate |]. intros t s2 E.
    apply is_terminated_runs in E as (_ & C2 & _).
    destruct t; [discriminate |].
    apply total_bind;
      [unfold get_ip; destruct (ig_use_internal_ip g); discriminate |].
    intros [a |] s3 E3; [discriminate |]. apply get_ip_runs in E3.
    apply total_bind; [apply total_time_sleep |]. intros [] s4 E4.
    apply time_sleep_runs in E4 as [(_ & _ & C4) | (Neg & _)]; [| lia].
    apply IH. lia.
Qed.

Lemma total_wait_for_ip_deadline g fuel d s :
  (300 < fuel)%nat -> d - clock s <= 300 ->
  total (wait_for_ip env g fuel None (Some d) 10) s.
Proof.
  intros Hf Hd. unfold wait_for_ip. simpl.
  destruct fuel as [| n]; [lia |].
  unfold total. rewrite (bind_ok _ _ s (Some d) s) by reflexivity.
  apply total_wait_for_ip_loop; lia.
Qed.

Lemma total_set_ssh_ip_if_required r fuel s :
  (300 < fuel)%nat -> total (set_ssh_ip_if_required env r fuel) s.
Proof.
  intros Hf. unfold set_ssh_ip_if_required.
  apply total_bind; [discriminate |]. intros cached s1 E.
  inversion E; subst. destruct (ssh_ip s1); [discriminate |].
  apply total_bind; [discriminate |]. intros now s2 E2.
  inversion E2; subst.
  apply total_bind.
  - unfold s_wait_for_ip. apply total_wait_for_ip_deadline; auto.
    unfold NODE_START_WAIT_S. lia.
  - intros [ip |] s3 _; [| discriminate].
    apply total_bind; [discriminate |]. intros _ s4 _.
    apply total_bind.
    + apply total_try; [apply total_check_call | discriminate].
    + intros _ s5 _.
      apply total_try; [apply total_check_call | discriminate].
Qed.

Lemma total_runner_run c fuel cmd timeout tty xf pf out s :
  (300 < fuel)%nat ->
  total (runner_run env c fuel cmd timeout tty xf pf out) s.
Proof.
  intros Hf. destruct c as [r | r]; simpl.
  - unfold k_run. apply total_bind; [discriminate |]. intros _ s1 _.
    destruct (PyStr.truthy cmd && pf_truthy pf)%bool; [discriminate |].
    destruct (pf_truthy pf).
    + apply total_bind; [discriminate |].
      intros [rc o | k m] s2 _; discriminate.
    + destruct cmd as [c |]; [| discriminate].
      apply total_try.
      * destruct out.
        -- apply total_bind; [apply total_check_output | discriminate].
        -- apply total_bind; [apply total_check_call | discriminate].
      * intros e s2 _ _. destruct xf; [| discriminate].
        apply total_bind; discriminate.
  - unfold s_run. apply total_bind; [discriminate |]. intros _ s1 _.
    apply total_bind; [now apply total_set_ssh_ip_if_required |].
    intros _ s2 _. apply total_bind; [discriminate |]. intros ip s3 _.
    apply total_try.
    + destruct out.
      * apply total_bind; [apply total_check_output | discriminate].
      * apply total_bind; [apply total_check_call | discriminate].
    + intros e s4 _ _. destruct xf; discriminate.
Qed.

Lemma total_run_cmd c fuel cmd timeout s :
  (300 < fuel)%nat -> total (run_cmd env c fuel cmd timeout) s.
Proof.
  intros Hf. unfold run_cmd.
  apply total_bind; [now apply total_runner_run | discriminate].
Qed.

Lemma total_rsync_up u fuel source target s :
  (300 < fuel)%nat -> total (rsync_up env u fuel source target) s.
Proof.
  intros Hf. unfold rsync_up, runner_run_rsync_up.
  destruct (cmd_runner u) as [r | r].
  - unfold k_run_rsync_up. apply total_bind; [discriminate |].
    intros _ s1 _. apply total_try; [apply total_check_call |].
    intros e s2 _ _. apply total_bind; [discriminate |].
    intros _ s3 _. apply total_check_call.
  - unfold s_run_rsync_up. apply total_bind; [discriminate |].
    intros _ s1 _.
    apply total_bind; [now apply total_set_ssh_ip_if_required |].
    intros _ s2 _. apply total_bind; [discriminate |].
    intros ip s3 _. apply total_check_call.
Qed.

End Termination.

(* ================================================================== *)
(** * wait_ready *)
(* ================================================================== *)

Section Readiness.

Variable env : Env.
Variable u : NodeUpdater.
Variable fuel : nat.
Variable deadline : Z.

Hypothesis never_terminated : forall h, provider_is_terminated env h = false.
Hypothesis never_ready :
  forall s r s',
    run_cmd env (cmd_runner u) fuel "uptime" 5 s = Done r s' -> r <> Ok tt.
Hypothesis enough_fuel : (300 < fuel)%nat.

Lemma wait_ready_loop_S n :
  wait_ready_loop env (S n) u fuel deadline =
  (now <- time_time ;;
   if now <? deadline then
     t <- is_terminated env ;;
     if t then raise unable_to_connect
     else
       try_except
         (run_cmd env (cmd_runner u) fuel "uptime" 5 ;; ret true)
         is_Exception
         (fun e =>
            describe_error e ":" ;;
            time_sleep env READY_CHECK_INTERVAL ;;
            wait_ready_loop env n u fuel deadline)
   else raise unable_to_connect).
Proof. reflexivity. Qed.

Lemma wait_ready_loop_gives_up n :
  forall s, deadline - clock s <= Z.of_nat n ->
  exists s', wait_ready_loop env (S n) u fuel deadline s =
               Done (Raise unable_to_connect) s' /\
             deadline <= clock s'.
Proof.
  induction n as [| n IH]; intros s Hd; rewrite wait_ready_loop_S;
    rewrite (bind_ok _ _ s (clock s) s) by reflexivity;
    (destruct (clock s <? deadline) eqn:Lt;
     [apply Z.ltb_lt in Lt
     | apply Z.ltb_ge in Lt; exists s; split; [reflexivity | exact Lt]]).
  - simpl in Hd. lia.
  - destruct (is_terminated_done env s) as (s1 & E1 & C1).
    rewrite (bind_ok _ _ _ _ _ E1), never_terminated.
    destruct (total_done _ _
                (total_run_cmd env (cmd_runner u) fuel "uptime" 5 s1
                   enough_fuel)) as (r & s2 & E2).
    destruct (within_poll env _ _ _ _ _ _ E2) as (ev2 & G2 & R2).
    destruct r as [[] | e]; [now apply never_ready in E2 |].
    simpl in R2.
    rewrite (try_caught _ _ _ _ e s2);
      [| now apply bind_raise | now apply ordinary_is_Exception].
    destruct (describe_ordinary e ":" s2 R2) as (str & E3).
    rewrite (bind_ok _ _ _ _ _ E3).
    destruct (total_done _ _ (total_time_sleep env READY_CHECK_INTERVAL s2))
      as (r4 & s4 & E4).
    destruct (time_sleep_runs _ _ _ _ _ E4) as [(-> & _ & C4) | (Neg & _)];
      [| unfold READY_CHECK_INTERVAL in Neg; lia].
    rewrite (bind_ok _ _ _ _ _ E4).
    unfold READY_CHECK_INTERVAL in C4.
    assert (C2 : clock s1 <= clock s2) by apply G2.
    apply IH. rewrite Nat2Z.inj_succ in Hd. lia.
Qed.

End Readiness.

(** Claim C4.  When the node is never reported terminated and no
    attempt of the readiness command succeeds, [wait_ready] does not poll
    forever: with fuel for the rounds that fit before the deadline, the
    loop stops once the clock has reached the deadline and the call raises
    the assertion error "Unable to connect to node". *)
Theorem wait_ready_gives_up env u fuel deadline s :
  (forall h, provider_is_terminated env h = false) ->
  (forall s0 r s1,
      run_cmd env (cmd_runner u) fuel "uptime" 5 s0 = Done r s1 ->
      r <> Ok tt) ->
  (300 < fuel)%nat ->
  deadline - clock s < Z.of_nat fuel ->
  exists s',
    wait_ready env u fuel deadline s = Done (Raise unable_to_connect) s' /\
    deadline <= clock s'.
Proof.
  intros Hterm Hready Hfuel Hd. unfold wait_ready.
  destruct fuel as [| n] eqn:Ef; [lia |]. rewrite <- Ef in *.
  assert (En : wait_ready_loop env fuel u fuel deadline =
               wait_ready_loop env (S n) u fuel deadline) by now rewrite Ef.
  rewrite En.
  apply wait_ready_loop_gives_up; auto. rewrite Ef in Hd. lia.
Qed.

(** A node on which every process fails, waited for during 300 seconds. *)
Lemma wait_ready_gives_up_witness :
  (forall h, provider_is_terminated Sample.unreachable h = false) /\
  (forall s0 r s1,
      run_cmd Sample.unreachable (cmd_runner Sample.kube_updater) 301
        "uptime" 5 s0 = Done r s1 ->
      r <> Ok tt) /\
  (300 < 301)%nat /\
  1300 - clock (Sample.fresh []) < Z.of_nat 301 /\
  exists s',
    wait_ready Sample.unreachable Sample.kube_updater 301 1300
      (Sample.fresh []) = Done (Raise unable_to_connect) s' /\
    1300 <= clock s'.
Proof.
  assert (H1 : forall h, provider_is_terminated Sample.unreachable h = false)
    by reflexivity.
  assert (H2 : forall s0 r s1,
             run_cmd Sample.unreachable (cmd_runner Sample.kube_updater) 301
               "uptime" 5 s0 = Done r s1 -> r <> Ok tt).
  { intros s0 r s1 E. cbv in E. inversion E. discriminate. }
  assert (H3 : (300 < 301)%nat) by lia.
  assert (H4 : 1300 - clock (Sample.fresh []) < Z.of_nat 301)
    by (simpl; lia).
  repeat split; try assumption.
  exact (wait_ready_gives_up Sample.unreachable Sample.kube_updater 301 1300
           (Sample.fresh []) H1 H2 H3 H4).
Defined.

(* ================================================================== *)
(** * wait_for_ip *)
(* ================================================================== *)

(** Every round of the polling loop starts before the deadline, and the
    loop raises nothing but the complaint about a negative sleep. *)
Lemma wait_for_ip_loop_bounded env g d sl fuel :
  forall s r s',
    wait_for_ip_loop env fuel g (Some d) sl s = Done r s' ->
    (is_ok r \/ r = Raise negative_sleep) /\
    (d <= clock s -> r = Ok None /\ s' = s) /\
    exists evs,
      trace s' = trace s ++ evs /\
      Forall (fun te => snd te = EvIsTerminated -> fst te < d) evs.
Proof.
  induction fuel as [| fuel IH]; intros s r s' E; [discriminate |].
  rewrite wait_for_ip_loop_S in E.
  rewrite (bind_ok _ _ s (clock s) s) in E by reflexivity.
  destruct (clock s <? d) eqn:Lt.
  2:{ inversion E; subst. split; [left; exact I |].
      split; [auto |]. exists []. now rewrite app_nil_r. }
  apply Z.ltb_lt in Lt.
  destruct (is_terminated_done env s) as (s1 & E1 & C1).
  pose proof (is_terminated_runs _ _ _ _ E1) as (_ & _ & T1).
  rewrite (bind_ok _ _ _ _ _ E1) in E.
  assert (F1 : Forall (fun te => snd te = EvIsTerminated -> fst te < d)
                 [(clock s, EvIsTerminated)]) by (constructor; auto).
  destruct (provider_is_terminated env (trace s)).
  { inversion E; subst. split; [left; exact I |]. split; [lia |].
    eexists; split; [exact T1 | exact F1]. }
  assert (E2 : exists ip s2 q,
             get_ip env g s1 = Done (Ok ip) s2 /\
             trace s2 = trace s1 ++ [(clock s1, q)] /\ q <> EvIsTerminated).
  { unfold get_ip, internal_ip, external_ip, ask, bind.
    destruct (ig_use_internal_ip g); simpl;
      do 3 eexists; (split; [reflexivity |]); simpl; split;
      try reflexivity; discriminate. }
  destruct E2 as (ip & s2 & q & E2 & T2 & Hq).
  rewrite (bind_ok _ _ _ _ _ E2) in E.
  assert (F2 : Forall (fun te => snd te = EvIsTerminated -> fst te < d)
                 ([(clock s, EvIsTerminated)] ++ [(clock s1, q)])).
  { apply Forall_app. split; [exact F1 |]. constructor; [| constructor].
    simpl. intros Hq'. now contradiction Hq. }
  assert (T12 : trace s2 = trace s ++ [(clock s, EvIsTerminated)] ++
                                       [(clock s1, q)])
    by (rewrite T2, T1, <- app_assoc; reflexivity).
  destruct ip as [a |].
  { inversion E; subst. split; [left; exact I |]. split; [lia |].
    eexists; split; [exact T12 | exact F2]. }
  unfold time_sleep in E. destruct (sl <? 0) eqn:Neg.
  { inversion E; subst. split; [right; reflexivity |]. split; [lia |].
    eexists; split; [exact T12 | exact F2]. }
  unfold bind at 1 2, advance in E. simpl in E.
  apply IH in E as (Hr & _ & evs & T & F). split; [exact Hr |].
  split; [lia |]. simpl in T.
  exists (([(clock s, EvIsTerminated)] ++ [(clock s1, q)]) ++
          (clock s2, EvSleep sl) :: evs).
  split.
  - rewrite T, T12. rewrite <- !app_assoc. reflexivity.
  - apply Forall_app. split; [exact F2 |]. constructor; [discriminate | exact F].
Qed.

(** Claim C5, for truthy arguments.  A call of [wait_for_ip] with a timeout and a deadline
    that are both truthy (given and not zero) raises the ValueError at
    once: the state, and with it the history, is untouched, so the
    provider is not asked anything. *)
Theorem wait_for_ip_rejects_both env g fuel t d sl s :
  t <> 0 -> d <> 0 ->
  wait_for_ip env g fuel (Some t) (Some d) sl s =
    Done (Raise both_specified) s.
Proof.
  intros Ht Hd. unfold wait_for_ip, num_truthy.
  apply Z.eqb_neq in Ht, Hd. now rewrite Ht, Hd.
Qed.

Lemma wait_for_ip_rejects_both_witness :
  300 <> 0 /\ 1300 <> 0 /\
  wait_for_ip Sample.calm Sample.getter 5 (Some 300) (Some 1300) 10
    (Sample.fresh []) = Done (Raise both_specified) (Sample.fresh []).
Proof.
  assert (H1 : 300 <> 0) by lia. assert (H2 : 1300 <> 0) by lia.
  split; [exact H1 |]. split; [exact H2 |].
  exact (wait_for_ip_rejects_both Sample.calm Sample.getter 5 300 1300 10
           (Sample.fresh []) H1 H2).
Defined.

(** Both arguments are supplied, the timeout being 0: the call does not
    fail; it asks the provider twice and returns the address. *)
Lemma wait_for_ip_both_supplied_polls :
  wait_for_ip Sample.calm Sample.getter 5 (Some 0) (Some 1300) 10
    (Sample.fresh []) =
  Done (Ok (Some "10.0.0.1"%string))
       (mkState 1000 [] None None
          [(1000, EvIsTerminated); (1000, EvExternalIp)]).
Proof. reflexivity. Qed.


(** The both-arguments error is raised only by the guard, hence only
    when both arguments are truthy. *)
Lemma both_specified_needs_both env g fuel timeout deadline sl s s' :
  wait_for_ip env g fuel timeout deadline sl s =
    Done (Raise both_specified) s' ->
  num_truthy timeout = true /\ num_truthy deadline = true.
Proof.
  unfold wait_for_ip.
  destruct (num_truthy timeout && num_truthy deadline)%bool eqn:B;
    [intros _; now apply andb_true_iff in B |].
  intros E. exfalso.
  assert (L : forall d s0,
             wait_for_ip_loop env fuel g d sl s0 <>
             Done (Raise both_specified) s').
  { intros [d |] s0 E0.
    - apply wait_for_ip_loop_bounded in E0 as ([[] | H] & _). discriminate.
    - destruct fuel; simpl in E0; discriminate. }
  destruct (num_truthy timeout).
  - rewrite (bind_ok _ _ s _ s) in E by reflexivity. exact (L _ _ E).
  - rewrite (bind_ok _ _ s deadline s) in E by reflexivity. exact (L _ _ E).
Qed.

(* ================================================================== *)
(** * The two [run] methods *)
(* ================================================================== *)

Lemma emit_runs env e s : emit env e s = Done (Ok tt) (record env e s).
Proof. reflexivity. Qed.

(** A process call that exits with a non-zero code raises
    [CalledProcessError], whichever of the two calls it is. *)
Lemma failing_call env (out : bool) args s rc o :
  process_runner env (trace s) args = Exited rc o -> rc <> 0 ->
  exists s1,
    (if out
     then x <- check_output env args ;; ret (Some x)
     else check_call env args ;; ret None) s =
      Done (Raise (CalledProcessError rc args)) s1 /\
    trace s1 = trace s ++ [(clock s, proc_event out args)] /\
    ssh_ip s1 = ssh_ip s.
Proof.
  intros Hp Hrc.
  destruct out; unfold check_output, check_call, ask, bind; simpl;
    rewrite Hp; destruct rc; try congruence; simpl; eexists;
    (split; [reflexivity |]); simpl; auto.
Qed.

Lemma kube_gate_closed cmd pf :
  pf_truthy pf = false -> (PyStr.truthy cmd && pf_truthy pf)%bool = false.
Proof. intros ->. apply andb_false_r. Qed.

Lemma truthy_nonempty c : c <> ""%string -> PyStr.truthy (Some c) = true.
Proof. destruct c; [congruence | reflexivity]. Qed.

Section RunMethods.

Variable env : Env.

(** The Kubernetes runner refuses a command together with a port
    forward, having started nothing. *)
Lemma k_run_refuses_both r c timeout tty xf pf out s :
  c <> ""%string -> pf_truthy pf = true ->
  exists s1,
    k_run env r (Some c) timeout tty xf pf out s =
      Done (Raise both_together) s1 /\
    trace s1 = trace s ++ [(clock s, EvRun (Some c) pf)].
Proof.
  intros Hc Hpf. unfold k_run.
  rewrite (bind_ok _ _ _ _ _ (emit_runs env _ s)).
  rewrite (truthy_nonempty c Hc), Hpf. simpl.
  exists (record env (EvRun (Some c) pf) s). split; reflexivity.
Qed.

(** The SSH runner, its address known, starts one ssh process for
    whatever it is given. *)
Lemma s_run_starts_ssh r fuel cmd timeout tty xf pf out s ip :
  ssh_ip s = Some ip ->
  let final := s_final_cmd r (Some ip) cmd timeout tty pf in
  exists s0,
    trace s0 = trace s ++ [(clock s, EvRun cmd pf)] /\
    ssh_ip s0 = Some ip /\
    s_run env r fuel cmd timeout tty xf pf out s =
      try_except
        (if out
         then x <- check_output env (Argv final) ;; ret (Some x)
         else check_call env (Argv final) ;; ret None)
        is_CalledProcessError
        (fun e =>
           if xf
           then raise (ClickException (command_failed (quoted_cmd final)))
           else raise e) s0.
Proof.
  intros Hip final. unfold s_run.
  rewrite (bind_ok _ _ _ _ _ (emit_runs env _ s)).
  exists (record env (EvRun cmd pf) s).
  split; [reflexivity |]. split; [exact Hip |].
  unfold set_ssh_ip_if_required.
  unfold bind at 1 2, get_ssh_ip at 1. simpl. rewrite Hip.
  unfold bind at 1, get_ssh_ip. simpl. rewrite Hip. reflexivity.
Qed.

End RunMethods.

Section RunOutcomes.

Variable env : Env.

(** How the process call at the end of the SSH [run] turns out. *)
Lemma s_run_tail (out xf : bool) final s0 :
  exists res s1,
    try_except
      (if out
       then x <- check_output env (Argv final) ;; ret (Some x)
       else check_call env (Argv final) ;; ret None)
      is_CalledProcessError
      (fun e =>
         if xf
         then raise (ClickException (command_failed (quoted_cmd final)))
         else raise e) s0 = Done res s1 /\
    trace s1 = trace s0 ++ [(clock s0, proc_event out (Argv final))] /\
    match process_runner env (trace s0) (Argv final) with
    | Exited 0 o => res = Ok (if out then Some o else None)
    | Exited rc _ =>
        res = Raise (if xf
                     then ClickException (command_failed (quoted_cmd final))
                     else CalledProcessError rc (Argv final))
    | SpawnFailed k m => res = Raise (OSError k m)
    end.
Proof.
  destruct (process_runner env (trace s0) (Argv final))
    as [rc o | k m] eqn:Hp.
  - destruct (Z.eq_dec rc 0) as [-> | Hrc].
    + destruct out; unfold try_except, check_output, check_call, ask, bind;
        simpl; rewrite Hp; simpl; do 2 eexists;
        (split; [reflexivity |]); split; reflexivity.
    + destruct (failing_call env out _ _ _ _ Hp Hrc) as (s1 & E & T & _).
      rewrite (try_caught _ _ _ _ _ _ E) by reflexivity.
      exists (Raise (if xf
                     then ClickException (command_failed (quoted_cmd final))
                     else CalledProcessError rc (Argv final))), s1.
      split; [now destruct xf |]. split; [exact T |].
      destruct rc; [congruence | reflexivity | reflexivity].
  - destruct out; unfold try_except, check_output, check_call, ask, bind;
      simpl; rewrite Hp; simpl; do 2 eexists;
      (split; [reflexivity |]); split; reflexivity.
Qed.

Lemma forward_opts_start pf :
  pf_truthy pf = true -> exists rest, s_forward_opts pf = "-L"%string :: rest.
Proof.
  unfold s_forward_opts. intros H. rewrite H.
  destruct pf as [| l r | [| [l r] ps]]; try discriminate; simpl; eauto.
Qed.

End RunOutcomes.

(** Claim C6, variant by variant.  Given a non-empty command together with a non-empty
    port-forward specification, the Kubernetes [run] raises its usage error
    right after being entered, with no process started.  The SSH [run] has
    no such check: with the node's address known it starts one ssh process
    whose arguments hold both the [-L] forwarding options and the command,
    and it never raises that usage error. *)
Theorem run_command_with_port_forward env kr sr fuel c timeout tty xf pf out
    s ip :
  c <> ""%string -> pf_truthy pf = true -> ssh_ip s = Some ip ->
  (exists s1,
      k_run env kr (Some c) timeout tty xf pf out s =
        Done (Raise both_together) s1 /\
      trace s1 = trace s ++ [(clock s, EvRun (Some c) pf)]) /\
  (exists res s1 t,
      s_run env sr fuel (Some c) timeout tty xf pf out s = Done res s1 /\
      trace s1 =
        trace s ++
        [(clock s, EvRun (Some c) pf);
         (t, proc_event out
               (Argv (s_final_cmd sr (Some ip) (Some c) timeout tty pf)))] /\
      res <> Raise both_together /\
      In "-L"%string (s_final_cmd sr (Some ip) (Some c) timeout tty pf) /\
      exists pre,
        s_final_cmd sr (Some ip) (Some c) timeout tty pf =
        pre ++ with_interactive c).
Proof.
  intros Hc Hpf Hip. split; [now apply k_run_refuses_both |].
  destruct (s_run_starts_ssh env sr fuel (Some c) timeout tty xf pf out s ip
              Hip) as (s0 & T0 & _ & E).
  destruct (s_run_tail env out xf
              (s_final_cmd sr (Some ip) (Some c) timeout tty pf) s0)
    as (res & s1 & E1 & T1 & Hres).
  exists res, s1, (clock s0). rewrite E. split; [exact E1 |].
  split; [rewrite T1, T0, <- app_assoc; reflexivity |].
  split; [| split].
  - destruct (process_runner env (trace s0) _) as [[| p | p] o | k m];
      rewrite Hres; try discriminate; destruct xf; discriminate.
  - unfold s_final_cmd.
    destruct (forward_opts_start pf Hpf) as (rest & ->).
    destruct tty; simpl; auto.
  - unfold s_final_cmd. destruct c as [| a c]; [congruence |].
    eexists. rewrite !app_assoc. reflexivity.
Qed.

Lemma run_command_with_port_forward_witness :
  "ls"%string <> ""%string /\
  pf_truthy Sample.forward = true /\
  ssh_ip Sample.connected = Some "10.0.0.1"%string /\
  (exists s1,
      k_run Sample.calm Sample.kube (Some "ls"%string) 120 false false
        Sample.forward false Sample.connected =
        Done (Raise both_together) s1 /\
      trace s1 =
        trace Sample.connected ++
        [(clock Sample.connected, EvRun (Some "ls"%string) Sample.forward)]) /\
  (exists res s1 t,
      s_run Sample.calm Sample.ssh 5 (Some "ls"%string) 120 false false
        Sample.forward false Sample.connected = Done res s1 /\
      trace s1 =
        trace Sample.connected ++
        [(clock Sample.connected, EvRun (Some "ls"%string) Sample.forward);
         (t, proc_event false
               (Argv (s_final_cmd Sample.ssh (Some "10.0.0.1"%string)
                        (Some "ls"%string) 120 false Sample.forward)))] /\
      res <> Raise both_together /\
      In "-L"%string
         (s_final_cmd Sample.ssh (Some "10.0.0.1"%string) (Some "ls"%string)
            120 false Sample.forward) /\
      exists pre,
        s_final_cmd Sample.ssh (Some "10.0.0.1"%string) (Some "ls"%string)
          120 false Sample.forward =
        pre ++ with_interactive "ls").
Proof.
  assert (H1 : "ls"%string <> ""%string) by discriminate.
  assert (H2 : pf_truthy Sample.forward = true) by reflexivity.
  assert (H3 : ssh_ip Sample.connected = Some "10.0.0.1"%string)
    by reflexivity.
  split; [exact H1 |]. split; [exact H2 |]. split; [exact H3 |].
  exact (run_command_with_port_forward Sample.calm Sample.kube Sample.ssh 5
           "ls" 120 false false Sample.forward false Sample.connected
           "10.0.0.1" H1 H2 H3).
Defined.

(** The SSH runner, given a command and a port forward at once, runs the
    command over ssh with the forwarding option and returns normally. *)
Lemma ssh_run_forwards_and_executes :
  s_run Sample.calm Sample.ssh 5 (Some "ls"%string) 120 false false
    Sample.forward false Sample.connected =
  Done (Ok None)
    (mkState 1000 [] (Some "10.0.0.1"%string) None
       [(1000, EvRun (Some "ls"%string) (PfList [(8080, 80)]));
        (1000,
         EvCheckCall
           (Argv
              ["ssh"; "-L"; "80:localhost:8080"; "-i"; "key.pem"; "-o";
               "ConnectTimeout=120s"; "-o"; "StrictHostKeyChecking=no";
               "-o"; "ControlMaster=auto"; "-o";
               "ControlPath=/tmp/ray_ssh_0123456789/abcdef0123/%C";
               "-o"; "ControlPersist=10s"; "-o"; "IdentitiesOnly=yes";
               "-o"; "ExitOnForwardFailure=yes"; "-o";
               "ServerAliveInterval=5"; "-o"; "ServerAliveCountMax=3";
               "ubuntu@10.0.0.1"; "bash"; "--login"; "-c"; "-i";
               "'true && source ~/.bashrc && export OMP_NUM_THREADS=1 PYTHONWARNINGS=ignore && ls'"]%string))]).
Proof. vm_compute. reflexivity. Qed.

(** Claim C7, variant by variant.  With [exit_on_fail] set and the command exiting with a
    non-zero code, the Kubernetes [run] logs an error record holding the
    command line with its last argument quoted and then raises
    [SystemExit(1)], which is not an [Exception]: the process ends with
    status 1 unless the exit is intercepted.  The SSH [run], its address
    known, logs nothing and raises a [ClickException] that carries the
    same kind of quoted command line; this is an [Exception], which the
    caller can catch. *)
Theorem run_exit_on_fail env kr sr fuel c cmd timeout tty pf out s ip rc o :
  rc <> 0 ->
  (pf_truthy pf = false ->
   process_runner env (trace s ++ [(clock s, EvRun (Some c) pf)])
     (ShellCommand (PyStr.join " " (k_final_cmd kr c tty))) = Exited rc o ->
   exists s1 t1 t2,
     k_run env kr (Some c) timeout tty true pf out s =
       Done (Raise (SystemExit 1)) s1 /\
     trace s1 =
       trace s ++
       [(clock s, EvRun (Some c) pf);
        (t1, proc_event out
               (ShellCommand (PyStr.join " " (k_final_cmd kr c tty))));
        (t2, EvLogError
               (LogText (k_log_prefix kr ++
                         command_failed
                           (PyStr.join " "
                              (removelast (k_final_cmd kr c tty) ++
                               [Shlex.quote
                                  (last (k_final_cmd kr c tty) "")])))%string))]
     /\
     is_Exception (SystemExit 1) = false) /\
  (ssh_ip s = Some ip ->
   process_runner env (trace s ++ [(clock s, EvRun cmd pf)])
     (Argv (s_final_cmd sr (Some ip) cmd timeout tty pf)) = Exited rc o ->
   exists s1 t1 msg,
     s_run env sr fuel cmd timeout tty true pf out s =
       Done (Raise (ClickException msg)) s1 /\
     msg =
       command_failed
         (PyStr.join " "
            (removelast (s_final_cmd sr (Some ip) cmd timeout tty pf) ++
             [Shlex.quote
                (last (s_final_cmd sr (Some ip) cmd timeout tty pf) "")])) /\
     trace s1 =
       trace s ++
       [(clock s, EvRun cmd pf);
        (t1, proc_event out
               (Argv (s_final_cmd sr (Some ip) cmd timeout tty pf)))] /\
     is_Exception (ClickException msg) = true).
Proof.
  intros Hrc. split.
  - intros Hpf Hp. unfold k_run.
    rewrite (bind_ok _ _ _ _ _ (emit_runs env _ s)).
    rewrite (kube_gate_closed (Some c) pf Hpf), Hpf.
    destruct (failing_call env out
                (ShellCommand (PyStr.join " " (k_final_cmd kr c tty)))
                (record env (EvRun (Some c) pf) s) rc o Hp Hrc)
      as (s1 & E & T & _).
    rewrite (try_caught _ _ _ _ _ _ E) by reflexivity.
    rewrite (bind_ok _ _ _ _ _ (emit_runs env _ s1)).
    eexists (record env _ s1), (clock (record env (EvRun (Some c) pf) s)),
            (clock s1).
    split; [reflexivity |]. split; [| reflexivity].
    simpl. rewrite T. simpl. rewrite <- !app_assoc. reflexivity.
  - intros Hip Hp.
    destruct (s_run_starts_ssh env sr fuel cmd timeout tty true pf out s ip
                Hip) as (s0 & T0 & _ & E).
    destruct (s_run_tail env out true
                (s_final_cmd sr (Some ip) cmd timeout tty pf) s0)
      as (res & s1 & E1 & T1 & Hres).
    rewrite T0, Hp in Hres.
    assert (Er : res = Raise (ClickException
                   (command_failed
                      (quoted_cmd
                         (s_final_cmd sr (Some ip) cmd timeout tty pf)))))
      by (destruct rc; [congruence | exact Hres | exact Hres]).
    subst res. rewrite E.
    eexists s1, (clock s0), _. split; [exact E1 |].
    split; [reflexivity |]. split; [| reflexivity].
    rewrite T1, T0, <- app_assoc. reflexivity.
Qed.

Lemma run_exit_on_fail_witness :
  1 <> 0 /\
  pf_truthy PfNone = false /\
  process_runner Sample.unreachable
    (trace Sample.connected ++
     [(clock Sample.connected, EvRun (Some "ls"%string) PfNone)])
    (ShellCommand (PyStr.join " " (k_final_cmd Sample.kube "ls" false))) =
    Exited 1 "" /\
  (exists s1 t1 t2,
     k_run Sample.unreachable Sample.kube (Some "ls"%string) 120 false true
       PfNone false Sample.connected = Done (Raise (SystemExit 1)) s1 /\
     trace s1 =
       trace Sample.connected ++
       [(clock Sample.connected, EvRun (Some "ls"%string) PfNone);
        (t1, proc_event false
               (ShellCommand
                  (PyStr.join " " (k_final_cmd Sample.kube "ls" false))));
        (t2, EvLogError
               (LogText (k_log_prefix Sample.kube ++
                         command_failed
                           (PyStr.join " "
                              (removelast (k_final_cmd Sample.kube "ls" false)
                               ++
                               [Shlex.quote
                                  (last (k_final_cmd Sample.kube "ls" false)
                                     "")])))%string))] /\
     is_Exception (SystemExit 1) = false) /\
  ssh_ip Sample.connected = Some "10.0.0.1"%string /\
  process_runner Sample.unreachable
    (trace Sample.connected ++
     [(clock Sample.connected, EvRun (Some "ls"%string) PfNone)])
    (Argv (s_final_cmd Sample.ssh (Some "10.0.0.1"%string)
             (Some "ls"%string) 120 false PfNone)) = Exited 1 "" /\
  (exists s1 t1 msg,
     s_run Sample.unreachable Sample.ssh 5 (Some "ls"%string) 120 false true
       PfNone false Sample.connected = Done (Raise (ClickException msg)) s1 /\
     msg =
       command_failed
         (PyStr.join " "
            (removelast (s_final_cmd Sample.ssh (Some "10.0.0.1"%string)
                           (Some "ls"%string) 120 false PfNone) ++
             [Shlex.quote
                (last (s_final_cmd Sample.ssh (Some "10.0.0.1"%string)
                         (Some "ls"%string) 120 false PfNone) "")])) /\
     trace s1 =
       trace Sample.connected ++
       [(clock Sample.connected, EvRun (Some "ls"%string) PfNone);
        (t1, proc_event false
               (Argv (s_final_cmd Sample.ssh (Some "10.0.0.1"%string)
                        (Some "ls"%string) 120 false PfNone)))] /\
     is_Exception (ClickException msg) = true).
Proof.
  assert (H : 1 <> 0) by lia.
  destruct (run_exit_on_fail Sample.unreachable Sample.kube Sample.ssh 5
              "ls" (Some "ls"%string) 120 false PfNone false Sample.connected
              "10.0.0.1" 1 "" H) as [K S].
  split; [exact H |]. split; [reflexivity |]. split; [reflexivity |].
  split; [exact (K eq_refl eq_refl) |].
  split; [reflexivity |]. split; [reflexivity |].
  exact (S eq_refl eq_refl).
Defined.

(** With [exit_on_fail] set, the SSH runner answers a failing command with
    an exception the caller can catch, and logs no error. *)
Lemma ssh_exit_on_fail_is_catchable :
  exists msg s1,
    s_run Sample.unreachable Sample.ssh 5 (Some "ls"%string) 120 false true
      PfNone false Sample.connected = Done (Raise (ClickException msg)) s1 /\
    is_Exception (ClickException msg) = true /\
    events (trace s1) =
      [EvRun (Some "ls"%string) PfNone;
       EvCheckCall
         (Argv (s_final_cmd Sample.ssh (Some "10.0.0.1"%string)
                  (Some "ls"%string) 120 false PfNone))].
Proof.
  do 2 eexists. split; [vm_compute; reflexivity |].
  split; reflexivity.
Qed.

(* ================================================================== *)
(** * A mount whose local path is missing *)
(* ================================================================== *)

Lemma for_each_app {A} (l1 l2 : list A) (body : A -> M unit) s :
  for_each (l1 ++ l2) body s =
  bind (for_each l1 body) (fun _ => for_each l2 body) s.
Proof.
  revert s. induction l1 as [| a l1 IH]; intros s; [reflexivity |].
  simpl. unfold bind.
  destruct (body a s) as [[[] | e] s1 |]; auto.
Qed.

Lemma total_for_each {A} (l : list A) (body : A -> M unit) :
  (forall a s, total (body a) s) -> forall s, total (for_each l body) s.
Proof.
  intros Hb. induction l as [| a l IH]; intros s; [discriminate |].
  simpl. apply total_bind; auto.
Qed.

Lemma total_sync_file_mount env u fuel remote_path local_path s :
  (300 < fuel)%nat ->
  total (sync_file_mount env u fuel (rsync_up env u fuel)
           remote_path local_path) s.
Proof.
  intros Hf. unfold sync_file_mount.
  destruct (os_path_exists env local_path); simpl; [| discriminate].
  apply total_bind; [now apply total_run_cmd |].
  intros _ s1 _. now apply total_rsync_up.
Qed.


(** The second of two mounts is missing: the first one has been given its
    mkdir and its sync by the time the call fails. *)
Lemma sync_runs_mounts_before_missing :
  os_path_exists Sample.b_missing "./b/" = false /\
  exists s',
    sync_file_mounts Sample.b_missing Sample.kube_updater 5
      (rsync_up Sample.b_missing Sample.kube_updater 5) (Sample.fresh []) =
      Done (Raise (AssertionError "./b/")) s' /\
    invocations (trace s') =
      [EvRun (Some "mkdir -p /app"%string) PfNone;
       EvRsyncUp "./a" "/app/a"].
Proof.
  split; [reflexivity |]. eexists.
  split; [vm_compute; reflexivity | reflexivity].
Qed.

(* ================================================================== *)
(** * NodeUpdater.run and the thread's exit code *)
(* ================================================================== *)

Section RunFacts.

Variable env : Env.

Lemma within_do_update u fuel :
  within any_event any_exn (do_update env u fuel).
Proof.
  intros s r s' E.
  destruct (reads_then_do_update env u fuel s r s' E) as (evs & G & _).
  exists evs. split; [exact G | now destruct r].
Qed.

(** The [try ... except Exception] part of [run]. *)
Lemma within_run_guard u fuel :
  within any_event any_exn
    (try_except (do_update env u fuel) is_Exception
       (fun e =>
          error_str <- describe_error e "" ;;
          emit env (EvLogError (LogText (log_prefix u ++ "Error updating " ++
                                         error_str)%string)) ;;
          provider_set_node_tags env
            [(TAG_RAY_NODE_STATUS, VStatus STATUS_UPDATE_FAILED)] ;;
          raise e)).
Proof.
  apply within_try; [apply within_do_update |]. intros e _.
  apply within_bind.
  - eapply within_weaken; [| | apply (within_describe_error any_event)];
      auto.
  - intros str. apply within_bind;
      [apply within_emit; [reflexivity | discriminate] | intros _].
    apply within_bind; [now apply within_set_node_tags | intros _].
    now apply within_raise.
Qed.

(** [run] ends with exit code 0 when it returns and leaves the exit code
    alone when it raises. *)
Lemma run_exitcode u fuel s r s' :
  NodeUpdater_run env u fuel s = Done r s' ->
  (r = Ok tt -> exitcode s' = Some 0) /\
  (forall e, r = Raise e -> exitcode s' = exitcode s).
Proof.
  unfold NodeUpdater_run. intros E. unfold bind at 1 in E.
  match type of E with
  | match ?g s with _ => _ end = _ => destruct (g s) as [r1 s1 |] eqn:Eg
  end; [| discriminate].
  destruct (within_run_guard u fuel s r1 s1 Eg) as (evs & G & _).
  destruct r1 as [[] | e1].
  - unfold provider_set_node_tags, bind, set_exitcode in E. simpl in E.
    inversion E; subst. simpl. split; [reflexivity | discriminate].
  - inversion E; subst. split; [discriminate |].
    intros e _. apply G.
Qed.

End RunFacts.

(** Claim C9, with the exit code of a failed run.
    [NodeUpdaterThread.__init__] sets the exit code to -1;
    a run that returns sets it to 0; a run that fails re-raises the error
    and leaves the exit code at -1, the value it had before the run. *)
Theorem thread_exitcode env node_id provider_config provider_namespace
    auth_config cluster_name file_mounts initialization_commands
    setup_commands ray_start_commands runtime_hash use_internal_ip
    remove_node_from_known_hosts_before_use s0 u s1 fuel r s2 :
  NodeUpdaterThread_init env node_id provider_config provider_namespace
    auth_config cluster_name file_mounts initialization_commands
    setup_commands ray_start_commands runtime_hash use_internal_ip
    remove_node_from_known_hosts_before_use s0 = Done (Ok u) s1 ->
  NodeUpdater_run env u fuel s1 = Done r s2 ->
  exitcode s1 = Some (-1) /\
  (r = Ok tt -> exitcode s2 = Some 0) /\
  (forall e, r = Raise e -> exitcode s2 = Some (-1)).
Proof.
  intros Ei Er.
  assert (X1 : exitcode s1 = Some (-1)).
  { unfold NodeUpdaterThread_init, NodeUpdater_init in Ei.
    destruct (String.eqb (pc_type provider_config) "kubernetes");
      unfold bind, SSHCommandRunner_init, set_ssh_ip, set_exitcode in Ei;
      simpl in Ei; inversion Ei; reflexivity. }
  destruct (run_exitcode env u fuel s1 r s2 Er) as [Hok Hfail].
  split; [exact X1 |]. split; [exact Hok |].
  intros e He. rewrite (Hfail e He). exact X1.
Qed.

Lemma thread_exitcode_witness :
  NodeUpdaterThread_init Sample.gone "n1" (mkProviderConfig "kubernetes" false)
    "ns" (mkAuthConfig "key.pem" "ubuntu") "c1" [] [] [] ["start1"%string]
    "h1" false false (Sample.fresh []) =
    Done (Ok (mkNodeUpdater false "NodeUpdater: n1: "
                (Kubernetes Sample.kube) "n1" [] [] [] ["start1"%string] "h1"
                false))
         (mkState 1000 [] None (Some (-1)) []) /\
  NodeUpdater_run Sample.gone
    (mkNodeUpdater false "NodeUpdater: n1: " (Kubernetes Sample.kube) "n1"
       [] [] [] ["start1"%string] "h1" false)
    5 (mkState 1000 [] None (Some (-1)) []) =
    Done (Raise unable_to_connect)
         (Sample.final
            (NodeUpdater_run Sample.gone
               (mkNodeUpdater false "NodeUpdater: n1: "
                  (Kubernetes Sample.kube) "n1" [] [] [] ["start1"%string]
                  "h1" false)
               5 (mkState 1000 [] None (Some (-1)) []))) /\
  exitcode (mkState 1000 [] None (Some (-1)) []) = Some (-1) /\
  (Raise unable_to_connect = Ok tt ->
   exitcode
     (Sample.final
        (NodeUpdater_run Sample.gone
           (mkNodeUpdater false "NodeUpdater: n1: "
              (Kubernetes Sample.kube) "n1" [] [] [] ["start1"%string]
              "h1" false)
           5 (mkState 1000 [] None (Some (-1)) []))) = Some 0) /\
  (forall e, @Raise unit unable_to_connect = Raise e ->
   exitcode
     (Sample.final
        (NodeUpdater_run Sample.gone
           (mkNodeUpdater false "NodeUpdater: n1: "
              (Kubernetes Sample.kube) "n1" [] [] [] ["start1"%string]
              "h1" false)
           5 (mkState 1000 [] None (Some (-1)) []))) = Some (-1)).
Proof.
  assert (H1 : NodeUpdaterThread_init Sample.gone "n1"
                 (mkProviderConfig "kubernetes" false) "ns"
                 (mkAuthConfig "key.pem" "ubuntu") "c1" [] [] []
                 ["start1"%string] "h1" false false (Sample.fresh []) =
               Done (Ok (mkNodeUpdater false "NodeUpdater: n1: "
                           (Kubernetes Sample.kube) "n1" [] [] []
                           ["start1"%string] "h1" false))
                    (mkState 1000 [] None (Some (-1)) []))
    by reflexivity.
  assert (H2 : NodeUpdater_run Sample.gone
                 (mkNodeUpdater false "NodeUpdater: n1: "
                    (Kubernetes Sample.kube) "n1" [] [] [] ["start1"%string]
                    "h1" false)
                 5 (mkState 1000 [] None (Some (-1)) []) =
               Done (Raise unable_to_connect)
                 (Sample.final
                    (NodeUpdater_run Sample.gone
                       (mkNodeUpdater false "NodeUpdater: n1: "
                          (Kubernetes Sample.kube) "n1" [] [] []
                          ["start1"%string] "h1" false)
                       5 (mkState 1000 [] None (Some (-1)) []))))
    by (vm_compute; reflexivity).
  split; [exact H1 |]. split; [exact H2 |].
  exact (thread_exitcode _ _ _ _ _ _ _ _ _ _ _ _ _ _ _ _ _ _ _ H1 H2).
Defined.

(** A thread whose run fails ends with the exit code it started with, the
    sentinel -1, although the failure was recorded in the status tag. *)
Lemma failed_thread_keeps_sentinel :
  exists u s1 s2,
    NodeUpdaterThread_init Sample.gone "n1"
      (mkProviderConfig "kubernetes" false) "ns"
      (mkAuthConfig "key.pem" "ubuntu") "c1" [] [] [] ["start1"%string]
      "h1" false false (Sample.fresh []) = Done (Ok u) s1 /\
    exitcode s1 = Some (-1) /\
    NodeUpdater_run Sample.gone u 5 s1 = Done (Raise unable_to_connect) s2 /\
    status_writes (trace s2) =
      [VStatus STATUS_WAITING_FOR_SSH; VStatus STATUS_UPDATE_FAILED] /\
    exitcode s2 = Some (-1).
Proof.
  do 3 eexists. split; [reflexivity |]. split; [reflexivity |].
  split; [vm_compute; reflexivity |]. split; reflexivity.
Qed.

(** Claim C2, where the code departs from it.  The known-hosts cleanup runs ssh-keygen with a timeout
    of 3 seconds; when that time runs out, [do_update] raises
    [TimeoutExpired], which has a [cmd] but no [returncode].  The handler
    in [run] then fails with an [AttributeError] while it builds the error
    text, before it logs and before it writes [update_failed]: the call
    ends with the status tag never written, left as it was. *)
Theorem run_cleanup_timeout_skips_update_failed :
  do_update Sample.slow_keygen Sample.ssh_updater 5
    (Sample.fresh Sample.uninitialized) =
    Done (Raise (TimeoutExpired
                   (Argv ["ssh-keygen"; "-R"; "10.0.0.1"]%string) 3))
         (mkState 1000 Sample.uninitialized None None
            [(1000, EvIsTerminated); (1000, EvExternalIp);
             (1000, EvSubprocessRun ["ssh-keygen"; "-R"; "10.0.0.1"]%string
                      3)]) /\
  NodeUpdater_run Sample.slow_keygen Sample.ssh_updater 5
    (Sample.fresh Sample.uninitialized) =
    Done (Raise (AttributeError
                   "'TimeoutExpired' object has no attribute 'returncode'"))
         (mkState 1000 Sample.uninitialized None None
            [(1000, EvIsTerminated); (1000, EvExternalIp);
             (1000, EvSubprocessRun ["ssh-keygen"; "-R"; "10.0.0.1"]%string
                      3)]) /\
  status_writes
    [(1000, EvIsTerminated); (1000, EvExternalIp);
     (1000, EvSubprocessRun ["ssh-keygen"; "-R"; "10.0.0.1"]%string 3)] = [] /\
  tags_get TAG_RAY_NODE_STATUS Sample.uninitialized =
    Some (VStr "uninitialized").
Proof.
  split; [vm_compute; reflexivity |].
  split; [vm_compute; reflexivity |].
  split; reflexivity.
Qed.

(** Outside that case: when ssh-keygen never runs out of time,
    [do_update] raises ordinary exceptions only and [run] ends with the
    status written last being [up_to_date], together with the fingerprint
    in one write, or [update_failed]. *)
Section StatusAfterRun.

Variable env : Env.
Hypothesis keygen_ends : forall h argv, subprocess_run env h argv <> RunTimedOut.

Lemma ordinary_forget_known_host host timeout :
  within any_event ordinary (forget_known_host env host timeout).
Proof.
  unfold forget_known_host. destruct host as [h |]; [| bg_tac].
  intros s r s' E. unfold ask, bind in E. simpl in E.
  destruct (subprocess_run env (trace s) ["ssh-keygen"; "-R"; h]%string)
    as [rc | k m |] eqn:Hr;
    [| | now apply keygen_ends in Hr];
    inversion E; subst;
    (eexists; split;
     [apply grows_emit; [reflexivity | discriminate] | reflexivity]).
Qed.

Lemma ordinary_do_update u fuel :
  within any_event ordinary (do_update env u fuel).
Proof.
  assert (W : forall {A} (m : M A),
             within off_tags ordinary m -> within any_event ordinary m)
    by (intros A m; apply within_weaken; auto).
  assert (B : forall {A} (m : M A),
             within background ordinary m -> within any_event ordinary m)
    by (intros A m; apply within_weaken; auto).
  pose proof (within_time_time any_event ordinary).
  assert (forall tags, within any_event ordinary
                         (provider_set_node_tags env tags))
    by (intros; now apply within_set_node_tags).
  assert (forall n d, within any_event ordinary
                        (wait_ready_loop env n u fuel d))
    by (intros; eapply within_weaken;
        [| | apply within_wait_ready_loop]; auto).
  assert (within any_event ordinary
            (sync_file_mounts env u fuel (rsync_up env u fuel)))
    by (apply W; eapply planned_is_within, planned_sync_file_mounts).
  assert (forall cmds, within any_event ordinary (run_all env u fuel cmds))
    by (intros; apply W; eapply planned_is_within, planned_run_all).
  assert (forall g t d sl,
             within any_event ordinary (wait_for_ip env g fuel t d sl))
    by (intros; apply B, bg_wait_for_ip).
  pose proof ordinary_forget_known_host. clear W B.
  unfold do_update, remove_node_from_known_hosts, wait_ready,
    provider_node_tags.
  bg_tac.
  apply (within_state _ _ node_tags (fun s => s)).
  intros; repeat split; lia.
Qed.

Lemma run_status_when_cleanup_ends u fuel s r s' :
  NodeUpdater_run env u fuel s = Done r s' ->
  exists evs,
    trace s' = trace s ++ evs /\
    (r = Ok tt ->
     exists pre t,
       evs = pre ++
             [(t, EvSetNodeTags
                    [(TAG_RAY_NODE_STATUS, VStatus STATUS_UP_TO_DATE);
                     (TAG_RAY_RUNTIME_CONFIG, VStr (runtime_hash u))])]) /\
    (forall e, r = Raise e ->
     exists pre t,
       evs = pre ++
             [(t, EvSetNodeTags
                    [(TAG_RAY_NODE_STATUS, VStatus STATUS_UPDATE_FAILED)])]).
Proof.
  unfold NodeUpdater_run. intros E. unfold bind at 1 in E.
  destruct (do_update env u fuel s) as [r0 s0 |] eqn:E0.
  2:{ unfold try_except in E. rewrite E0 in E. discriminate. }
  destruct (ordinary_do_update u fuel s r0 s0 E0) as (ev0 & G0 & R0).
  destruct G0 as (T0 & _).
  destruct r0 as [[] | e0].
  - rewrite (try_ok _ _ _ _ _ _ E0) in E.
    unfold provider_set_node_tags, bind, set_exitcode in E. simpl in E.
    inversion E; subst. simpl. rewrite T0, <- app_assoc.
    eexists. split; [reflexivity |]. split; [eauto | discriminate].
  - simpl in R0.
    rewrite (try_caught _ _ _ _ _ _ E0) in E
      by now apply ordinary_is_Exception.
    destruct (describe_ordinary e0 "" s0 R0) as (str & Ed).
    unfold bind at 1 in E. rewrite Ed in E.
    unfold provider_set_node_tags, bind in E. simpl in E.
    inversion E; subst. simpl. rewrite T0, <- !app_assoc.
    eexists. split; [reflexivity |]. split; [discriminate |].
    intros e _. eexists (ev0 ++ [_]), _. rewrite <- app_assoc. reflexivity.
Qed.

End StatusAfterRun.

(* ================================================================== *)
(** * Every run ends *)
(* ================================================================== *)

Section RunsEnd.

Variable env : Env.
Variable u : NodeUpdater.
Variable fuel : nat.
Hypothesis enough_fuel : (300 < fuel)%nat.

Lemma total_describe_error e colon s : total (describe_error e colon) s.
Proof.
  unfold total, describe_error.
  destruct (hasattr_cmd e); [destruct (getattr_returncode e) |]; discriminate.
Qed.

Lemma describe_error_state e colon s r s' :
  describe_error e colon s = Done r s' -> s' = s.
Proof.
  unfold describe_error.
  destruct (hasattr_cmd e); [destruct (getattr_returncode e) |];
    intros E; inversion E; reflexivity.
Qed.

(** The readiness wait ends within as many rounds as there are seconds
    left before the deadline. *)
Lemma total_wait_ready_loop deadline n :
  forall s, deadline - clock s <= Z.of_nat n ->
            total (wait_ready_loop env (S n) u fuel deadline) s.
Proof.
  induction n as [| n IH]; intros s Hd; rewrite wait_ready_loop_S;
    (apply total_bind; [discriminate |]); intros now s0 E0;
    inversion E0; subst; clear E0;
    (destruct (clock s0 <? deadline) eqn:Lt; [| discriminate]);
    apply Z.ltb_lt in Lt.
  - simpl in Hd. lia.
  - apply total_bind; [discriminate |]. intros t s1 E1.
    apply is_terminated_runs in E1 as (_ & C1 & _).
    destruct t; [discriminate |].
    apply total_try.
    + apply total_bind; [now apply total_run_cmd | discriminate].
    + intros e s2 E2 _.
      assert (C2 : clock s1 <= clock s2).
      { unfold bind in E2.
        destruct (run_cmd env (cmd_runner u) fuel "uptime" 5 s1)
          as [[[] | e'] s2' |] eqn:Er; try discriminate.
        inversion E2; subst.
        destruct (within_poll env _ _ _ _ _ _ Er) as (evs & G & _).
        apply G. }
      apply total_bind; [apply total_describe_error |]. intros str s3 E3.
      apply describe_error_state in E3. subst s3.
      apply total_bind; [apply total_time_sleep |]. intros [] s4 E4.
      apply time_sleep_runs in E4 as [(_ & _ & C4) | (Neg & _)];
        [| unfold READY_CHECK_INTERVAL in Neg; lia].
      unfold READY_CHECK_INTERVAL in C4.
      apply IH. rewrite Nat2Z.inj_succ in Hd. lia.
Qed.

Lemma fuel_succ : exists n, fuel = S n /\ (300 <= n)%nat.
Proof. exists (pred fuel). lia. Qed.

Lemma total_wait_ready deadline s :
  deadline - clock s <= 300 -> total (wait_ready env u fuel deadline) s.
Proof.
  intros Hd. destruct fuel_succ as (n & Ef & Hn).
  assert (H : total (wait_ready_loop env (S n) u fuel deadline) s)
    by (apply total_wait_ready_loop; lia).
  rewrite <- Ef in H. exact H.
Qed.

Lemma total_remove_node_from_known_hosts s :
  total (remove_node_from_known_hosts env u fuel) s.
Proof.
  unfold remove_node_from_known_hosts. apply total_bind.
  - unfold wait_for_ip. simpl. unfold NODE_START_WAIT_S.
    apply total_bind; [discriminate |]. intros d s1 E1.
    inversion E1; subst.
    destruct fuel_succ as (n & Ef & Hn).
    assert (H : total (wait_for_ip_loop env (S n)
                         (mkProviderIpGetter (log_prefix u) (node_id u)
                            (use_internal_ip u))
                         (Some (clock s1 + 300)) 10) s1)
      by (apply total_wait_for_ip_loop; lia).
    rewrite <- Ef in H. exact H.
  - intros ip s1 _. apply total_try; [| discriminate].
    unfold forget_known_host. destruct ip as [h |]; [| discriminate].
    apply total_bind; [discriminate |].
    intros [rc | k m |] s2 _; discriminate.
Qed.

Lemma total_run_all cmds s : total (run_all env u fuel cmds) s.
Proof.
  unfold run_all. apply total_for_each. intros c s0.
  now apply total_run_cmd.
Qed.

(** With fuel for 300 rounds [do_update] and [run] end, whatever the world
    does. *)
Lemma total_do_update s : total (do_update env u fuel) s.
Proof.
  unfold do_update.
  apply total_bind.
  { destruct (remove_node_from_known_hosts_before_use u);
      [apply total_remove_node_from_known_hosts | discriminate]. }
  intros _ s1 _. apply total_bind; [discriminate |]. intros _ s2 _.
  apply total_bind; [discriminate |]. intros now s3 E3.
  inversion E3; subst. apply total_bind.
  { apply total_wait_ready. unfold NODE_START_WAIT_S. lia. }
  intros _ s4 _. apply total_bind; [discriminate |]. intros tags s5 _.
  apply total_bind; [| intros; apply total_run_all].
  destruct (match tags_get TAG_RAY_RUNTIME_CONFIG tags with
            | Some v => TagValue_eqb v (VStr (runtime_hash u))
            | None => false
            end); [discriminate |].
  apply total_bind; [discriminate |]. intros _ s6 _.
  apply total_bind.
  { unfold sync_file_mounts. apply total_for_each. intros rl s0.
    now apply total_sync_file_mount. }
  intros _ s7 _. apply total_bind; [discriminate |]. intros _ s8 _.
  apply total_bind; intros; apply total_run_all.
Qed.

Lemma total_NodeUpdater_run s : total (NodeUpdater_run env u fuel) s.
Proof.
  unfold NodeUpdater_run. apply total_bind.
  - apply total_try; [apply total_do_update |]. intros e s1 _ _.
    apply total_bind; [apply total_describe_error |]. intros str s2 _.
    apply total_bind; [discriminate |]. intros _ s3 _.
    apply total_bind; discriminate.
  - intros _ s1 _. apply total_bind; discriminate.
Qed.

End RunsEnd.

(* ================================================================== *)
(** * Strings handed to the shell *)
(* ================================================================== *)

Lemma str_app_assoc (a b c : string) :
  ((a ++ b) ++ c = a ++ (b ++ c))%string.
Proof. induction a as [| x a IH]; simpl; congruence. Qed.

Lemma str_app_nil_r (a : string) : (a ++ "")%string = a.
Proof. induction a as [| x a IH]; simpl; congruence. Qed.

Lemma rev_onto_acc s acc :
  PyStr.rev_onto s acc = (PyStr.rev_onto s "" ++ acc)%string.
Proof.
  revert acc. induction s as [| c s IH]; intros acc; simpl; [reflexivity |].
  rewrite IH, (IH (String c "")). rewrite str_app_assoc. reflexivity.
Qed.

Lemma rev_app a b :
  PyStr.rev (a ++ b)%string = (PyStr.rev b ++ PyStr.rev a)%string.
Proof.
  unfold PyStr.rev. induction a as [| c a IH]; simpl.
  - now rewrite str_app_nil_r.
  - rewrite rev_onto_acc, IH, (rev_onto_acc a (String c "")).
    now rewrite str_app_assoc.
Qed.

Lemma rev_involutive s : PyStr.rev (PyStr.rev s) = s.
Proof.
  induction s as [| c s IH]; [reflexivity |].
  change (String c s) with (String c "" ++ s)%string at 1.
  rewrite rev_app, rev_app, IH. reflexivity.
Qed.

Lemma endswith_slashed p : PyStr.endswith (slashed p) "/" = true.
Proof.
  unfold slashed. destruct (PyStr.endswith p "/") eqn:E; [exact E |].
  unfold PyStr.endswith. rewrite rev_app. reflexivity.
Qed.

(** The directory part of a path to which a slash was added is the path
    itself. *)
Lemma dirname_added_slash p :
  p <> ""%string -> PyStr.endswith p "/" = false ->
  PosixPath.dirname (p ++ "/") = p.
Proof.
  intros Hp He. unfold PosixPath.dirname, PyStr.endswith in *.
  rewrite rev_app. change (PyStr.rev "/") with "/"%string.
  change ("/" ++ PyStr.rev p)%string with (String "/" (PyStr.rev p)).
  destruct (PyStr.rev p) as [| c r] eqn:Er.
  - exfalso. apply Hp. rewrite <- (rev_involutive p), Er. reflexivity.
  - cbn [PyStr.startswith] in He.
    assert (Hc : Ascii.eqb "/" c = false)
      by (rewrite Ascii.eqb_sym; exact He).
    cbn [PyStr.drop_to]. rewrite Ascii.eqb_refl.
    cbn [PyStr.forallb_str]. rewrite Ascii.eqb_refl, Hc. cbn [andb].
    cbn [PyStr.lstrip]. rewrite Ascii.eqb_refl, He.
    rewrite <- Er. apply rev_involutive.
Qed.

Lemma escape_squotes_app a b :
  Shlex.escape_squotes (a ++ b) =
  (Shlex.escape_squotes a ++ Shlex.escape_squotes b)%string.
Proof.
  induction a as [| c a IH]; simpl; [reflexivity |].
  destruct (Ascii.eqb c PyStr.squote); simpl; now rewrite IH.
Qed.

Lemma escape_squotes_none s :
  PyStr.forallb_str (fun c => negb (Ascii.eqb c PyStr.squote)) s = true ->
  Shlex.escape_squotes s = s.
Proof.
  induction s as [| c s IH]; simpl; [reflexivity |].
  intros H. apply andb_true_iff in H as [Hc Hs].
  apply negb_true_iff in Hc. rewrite Hc, IH by exact Hs. reflexivity.
Qed.

(** X1.  [with_interactive] always yields five words, the last of which is
    one single-quoted shell word: the fixed prefix followed by the command
    with each of its single quotes escaped; a command without single quotes
    appears in it as it is. *)
Theorem with_interactive_one_word cmd :
  with_interactive cmd =
    ["bash"; "--login"; "-c"; "-i";
     String PyStr.squote
       (force_interactive ++ Shlex.escape_squotes cmd ++
        String PyStr.squote "")]%string /\
  (PyStr.forallb_str (fun c => negb (Ascii.eqb c PyStr.squote)) cmd = true ->
   last (with_interactive cmd) "" =
     String PyStr.squote
       (force_interactive ++ cmd ++ String PyStr.squote "")%string).
Proof.
  assert (E : with_interactive cmd =
    ["bash"; "--login"; "-c"; "-i";
     String PyStr.squote
       (force_interactive ++ Shlex.escape_squotes cmd ++
        String PyStr.squote "")]%string).
  { reflexivity. }
  split; [exact E |].
  intros H. rewrite E. simpl last.
  now rewrite (escape_squotes_none cmd H).
Qed.

Lemma with_interactive_one_word_witness :
  PyStr.forallb_str (fun c => negb (Ascii.eqb c PyStr.squote)) "uptime" =
    true /\
  last (with_interactive "uptime") "" =
    String PyStr.squote
      (force_interactive ++ "uptime" ++ String PyStr.squote "")%string.
Proof.
  split; [reflexivity |].
  exact (proj2 (with_interactive_one_word "uptime") eq_refl).
Defined.

(** The target that the Kubernetes runner hands to rsync and to
    [kubectl cp] never starts with a tilde. *)
Lemma k_home_no_tilde target : PyStr.startswith (k_home target) "~" = false.
Proof.
  unfold k_home. destruct (PyStr.startswith target "~") eqn:E;
    [reflexivity | exact E].
Qed.

(** X2.  For a mount whose local path is a directory, both paths are synced
    with a trailing slash; when the remote path was given without one, the
    directory that [mkdir -p] makes is the remote path itself. *)
Theorem directory_mount_paths env remote_path local_path :
  os_path_isdir env local_path = true ->
  PyStr.endswith (fst (mount_paths env remote_path local_path)) "/" = true /\
  PyStr.endswith (snd (mount_paths env remote_path local_path)) "/" = true /\
  (remote_path <> ""%string -> PyStr.endswith remote_path "/" = false ->
   fst (mount_paths env remote_path local_path) =
     (remote_path ++ "/")%string /\
   mkdir_cmd (fst (mount_paths env remote_path local_path)) =
     ("mkdir -p " ++ remote_path)%string).
Proof.
  intros Hd. unfold mount_paths. rewrite Hd. simpl.
  split; [apply endswith_slashed |]. split; [apply endswith_slashed |].
  intros Hn He. unfold slashed. rewrite He. split; [reflexivity |].
  unfold mkdir_cmd. now rewrite dirname_added_slash.
Qed.

Lemma directory_mount_paths_witness :
  os_path_isdir Sample.calm "./b/" = true /\
  PyStr.endswith (fst (mount_paths Sample.calm "/app/b" "./b/")) "/" = true /\
  PyStr.endswith (snd (mount_paths Sample.calm "/app/b" "./b/")) "/" = true /\
  ("/app/b"%string <> ""%string ->
   PyStr.endswith "/app/b" "/" = false ->
   fst (mount_paths Sample.calm "/app/b" "./b/") = ("/app/b" ++ "/")%string /\
   mkdir_cmd (fst (mount_paths Sample.calm "/app/b" "./b/")) =
     ("mkdir -p " ++ "/app/b")%string).
Proof.
  split; [reflexivity |].
  exact (directory_mount_paths Sample.calm "/app/b" "./b/" eq_refl).
Defined.

(* ================================================================== *)
(** * File transfer through the Kubernetes runner *)
(* ================================================================== *)

Lemma check_call_runs env args s :
  check_call env args s =
    Done (call_result args (process_runner env (trace s) args))
         (record env (EvCheckCall args) s).
Proof.
  unfold check_call, ask, bind. simpl.
  destruct (process_runner env (trace s) args) as [[| rc | rc] o | k m];
    reflexivity.
Qed.

Lemma call_result_is_Exception args p e :
  call_result args p = Raise e -> is_Exception e = true.
Proof.
  destruct p as [[| rc | rc] o | k m]; simpl; intros H;
    inversion H; reflexivity.
Qed.

(** A process call with a fallback: the first call, and when it fails a
    warning followed by the second call, whose outcome is the outcome of
    the whole. *)
Lemma fallback_exact env first second (warn : Exn -> LogRecord) s :
  try_except (check_call env first) is_Exception
    (fun e => emit env (EvLogWarning (warn e)) ;; check_call env second) s =
  match call_result first (process_runner env (trace s) first) with
  | Ok _ => Done (Ok tt) (record env (EvCheckCall first) s)
  | Raise e =>
      Done (call_result second
              (process_runner env
                 (trace (record env (EvLogWarning (warn e))
                           (record env (EvCheckCall first) s))) second))
           (record env (EvCheckCall second)
              (record env (EvLogWarning (warn e))
                 (record env (EvCheckCall first) s)))
  end.
Proof.
  unfold try_except. rewrite check_call_runs.
  destruct (call_result first (process_runner env (trace s) first))
    as [[] | e] eqn:E; [reflexivity |].
  rewrite (call_result_is_Exception _ _ _ E).
  rewrite (bind_ok _ _ _ _ _ (emit_runs env _ _)), check_call_runs.
  reflexivity.
Qed.

Lemma events_record env e s :
  events (trace (record env e s)) = events (trace s) ++ [e].
Proof. unfold events. simpl. now rewrite map_app. Qed.

(** X3.  [KubernetesCommandRunner.run_rsync_up] always ends.  It starts the
    rsync helper.  When that succeeds, nothing else is started and the
    call returns.  When it fails, and only then, a warning with the error
    is logged and [kubectl cp] is started with the same source and
    target; the outcome of the call is then the outcome of [kubectl cp],
    so that the error of the rsync helper never reaches the caller.  The
    target handed to both never starts with a tilde. *)
Theorem kube_rsync_up_falls_back env r source target s rsync cp s0 s1 :
  rsync = Argv [KUBECTL_RSYNC env; "-avz"; source;
                k_node_id r ++ "@" ++ k_namespace r ++ ":" ++
                k_home target]%string ->
  cp = Argv (k_kubectl r ++
             ["cp"; source;
              k_namespace r ++ "/" ++ k_node_id r ++ ":" ++
              k_home target]%string) ->
  s0 = record env (EvRsyncUp source target) s ->
  s1 = record env (EvCheckCall rsync) s0 ->
  PyStr.startswith (k_home target) "~" = false /\
  (call_result rsync (process_runner env (trace s0) rsync) = Ok tt ->
   k_run_rsync_up env r source target s = Done (Ok tt) s1 /\
   events (trace s1) =
     events (trace s) ++ [EvRsyncUp source target; EvCheckCall rsync]) /\
  (forall e s2,
     call_result rsync (process_runner env (trace s0) rsync) = Raise e ->
     s2 = record env (EvLogWarning (LogRsyncFailed (k_log_prefix r) e)) s1 ->
     k_run_rsync_up env r source target s =
       Done (call_result cp (process_runner env (trace s2) cp))
            (record env (EvCheckCall cp) s2) /\
     events (trace (record env (EvCheckCall cp) s2)) =
       events (trace s) ++
       [EvRsyncUp source target; EvCheckCall rsync;
        EvLogWarning (LogRsyncFailed (k_log_prefix r) e); EvCheckCall cp]).
Proof.
  intros -> -> -> ->. split; [apply k_home_no_tilde |].
  unfold k_run_rsync_up.
  rewrite (bind_ok _ _ _ _ _ (emit_runs env _ s)), fallback_exact.
  split.
  - intros E. rewrite E. split; [reflexivity |].
    rewrite !events_record, <- app_assoc. reflexivity.
  - intros e s2 E ->. rewrite E. split; [reflexivity |].
    rewrite !events_record, <- !app_assoc. reflexivity.
Qed.

Lemma kube_rsync_up_falls_back_witness :
  PyStr.startswith (k_home "~/app") "~" = false /\
  call_result Sample.up_rsync
    (process_runner Sample.unreachable
       (trace (record Sample.unreachable (EvRsyncUp "./a" "~/app")
                 (Sample.fresh [])))
       Sample.up_rsync) =
    Raise (CalledProcessError 1 Sample.up_rsync) /\
  k_run_rsync_up Sample.unreachable Sample.kube "./a" "~/app"
    (Sample.fresh []) =
    Done (call_result Sample.up_cp
            (process_runner Sample.unreachable
               (trace Sample.up_warned) Sample.up_cp))
         (record Sample.unreachable (EvCheckCall Sample.up_cp)
            Sample.up_warned) /\
  events (trace (record Sample.unreachable (EvCheckCall Sample.up_cp)
                   Sample.up_warned)) =
    events (trace (Sample.fresh [])) ++
    [EvRsyncUp "./a" "~/app"; EvCheckCall Sample.up_rsync;
     EvLogWarning
       (LogRsyncFailed (k_log_prefix Sample.kube)
          (CalledProcessError 1 Sample.up_rsync));
     EvCheckCall Sample.up_cp].
Proof.
  pose proof (kube_rsync_up_falls_back Sample.unreachable Sample.kube "./a"
                "~/app" (Sample.fresh []) Sample.up_rsync Sample.up_cp _ _
                eq_refl eq_refl eq_refl eq_refl) as (A & _ & C).
  split; [exact A |]. split; [reflexivity |].
  exact (C (CalledProcessError 1 Sample.up_rsync) Sample.up_warned eq_refl
           eq_refl).
Defined.

(** X4.  [KubernetesCommandRunner.run_rsync_down] has the same fallback:
    [kubectl cp] is started when the rsync helper has failed, and only
    then, and its outcome is the outcome of the call.  The tilde is
    replaced in the target, which here is the local path; the remote
    source is passed on as it was given. *)
Theorem kube_rsync_down_falls_back env r source target s rsync cp s0 s1 :
  rsync = Argv [KUBECTL_RSYNC env; "-avz";
                k_node_id r ++ "@" ++ k_namespace r ++ ":" ++ source;
                k_home target]%string ->
  cp = Argv (k_kubectl r ++
             ["cp"; k_namespace r ++ "/" ++ k_node_id r ++ ":" ++ source;
              k_home target]%string) ->
  s0 = record env (EvRsyncDown source target) s ->
  s1 = record env (EvCheckCall rsync) s0 ->
  (call_result rsync (process_runner env (trace s0) rsync) = Ok tt ->
   k_run_rsync_down env r source target s = Done (Ok tt) s1 /\
   events (trace s1) =
     events (trace s) ++ [EvRsyncDown source target; EvCheckCall rsync]) /\
  (forall e s2,
     call_result rsync (process_runner env (trace s0) rsync) = Raise e ->
     s2 = record env (EvLogWarning (LogRsyncFailed (k_log_prefix r) e)) s1 ->
     k_run_rsync_down env r source target s =
       Done (call_result cp (process_runner env (trace s2) cp))
            (record env (EvCheckCall cp) s2) /\
     events (trace (record env (EvCheckCall cp) s2)) =
       events (trace s) ++
       [EvRsyncDown source target; EvCheckCall rsync;
        EvLogWarning (LogRsyncFailed (k_log_prefix r) e); EvCheckCall cp]).
Proof.
  intros -> -> -> ->. unfold k_run_rsync_down.
  rewrite (bind_ok _ _ _ _ _ (emit_runs env _ s)), fallback_exact.
  split.
  - intros E. rewrite E. split; [reflexivity |].
    rewrite !events_record, <- app_assoc. reflexivity.
  - intros e s2 E ->. rewrite E. split; [reflexivity |].
    rewrite !events_record, <- !app_assoc. reflexivity.
Qed.

Lemma kube_rsync_down_falls_back_witness :
  call_result Sample.down_rsync
    (process_runner Sample.calm
       (trace (record Sample.calm (EvRsyncDown "~/log" "~/log")
                 (Sample.fresh [])))
       Sample.down_rsync) = Ok tt /\
  k_run_rsync_down Sample.calm Sample.kube "~/log" "~/log"
    (Sample.fresh []) =
    Done (Ok tt)
         (record Sample.calm (EvCheckCall Sample.down_rsync)
            (record Sample.calm (EvRsyncDown "~/log" "~/log")
               (Sample.fresh []))) /\
  events (trace (record Sample.calm (EvCheckCall Sample.down_rsync)
                   (record Sample.calm (EvRsyncDown "~/log" "~/log")
                      (Sample.fresh [])))) =
    events (trace (Sample.fresh [])) ++
    [EvRsyncDown "~/log" "~/log"; EvCheckCall Sample.down_rsync].
Proof.
  pose proof (kube_rsync_down_falls_back Sample.calm Sample.kube "~/log"
                "~/log" (Sample.fresh []) Sample.down_rsync Sample.down_cp
                _ _ eq_refl eq_refl eq_refl eq_refl) as (A & _).
  split; [reflexivity |]. exact (A eq_refl).
Defined.


(* ================================================================== *)
(** * One process for each call of a runner *)
(* ================================================================== *)

Lemma proc_call_runs env (out : bool) args s :
  (if out
   then x <- check_output env args ;; ret (Some x)
   else check_call env args ;; ret None) s =
    Done (run_result out args (process_runner env (trace s) args))
         (record env (proc_event out args) s).
Proof.
  destruct out; unfold check_output, check_call, ask, bind; simpl;
    destruct (process_runner env (trace s) args) as [[| rc | rc] o | k m];
    reflexivity.
Qed.

(** A handler that only raises again leaves the block as it is. *)
Lemma try_reraise {A} (m : M A) (c : Exn -> bool) s :
  try_except m c (fun e => raise e) s = m s.
Proof.
  unfold try_except. destruct (m s) as [[a | e] s1 |]; try reflexivity.
  now destruct (c e).
Qed.

(** X5.  Given a command and no port forward, the Kubernetes [run] starts
    exactly one process, the shell line made of the words of [kubectl
    exec]; without [exit_on_fail] the outcome of the call is the outcome of
    that process: its output when the output was asked for and it exited
    with 0, [None] when it exited with 0 otherwise, [CalledProcessError]
    with the exit code when that is not 0. *)
Theorem kube_run_one_process env r c timeout tty pf out s line :
  pf_truthy pf = false ->
  line = ShellCommand (PyStr.join " " (k_final_cmd r c tty)) ->
  exists s1 t,
    k_run env r (Some c) timeout tty false pf out s =
      Done (run_result out line
              (process_runner env
                 (trace s ++ [(clock s, EvRun (Some c) pf)]) line)) s1 /\
    trace s1 =
      trace s ++ [(clock s, EvRun (Some c) pf); (t, proc_event out line)].
Proof.
  intros Hpf ->. unfold k_run.
  rewrite (bind_ok _ _ _ _ _ (emit_runs env _ s)).
  rewrite (kube_gate_closed _ _ Hpf), Hpf.
  rewrite try_reraise, proc_call_runs.
  do 2 eexists. split; [reflexivity |].
  simpl. rewrite <- app_assoc. reflexivity.
Qed.

Lemma kube_run_one_process_witness :
  pf_truthy PfNone = false /\
  exists s1 t,
    k_run Sample.calm Sample.kube (Some "ls"%string) 120 false false PfNone
      true (Sample.fresh []) =
      Done (run_result true (Sample.kube_line "ls")
              (process_runner Sample.calm
                 (trace (Sample.fresh []) ++
                  [(clock (Sample.fresh []), EvRun (Some "ls"%string) PfNone)])
                 (Sample.kube_line "ls"))) s1 /\
    trace s1 =
      trace (Sample.fresh []) ++
      [(clock (Sample.fresh []), EvRun (Some "ls"%string) PfNone);
       (t, proc_event true (Sample.kube_line "ls"))].
Proof.
  split; [reflexivity |].
  exact (kube_run_one_process Sample.calm Sample.kube "ls" 120 false PfNone
           true (Sample.fresh []) _ eq_refl eq_refl).
Defined.

(** X6.  Given a port forward and no command, the Kubernetes [run] never
    returns a value.  It starts [kubectl port-forward] with one
    [local:remote] word for each pair and waits for it; when the process
    cannot be started the [OSError] is raised, and once the process has
    ended the call raises a [TypeError], not the [Exception] that was to
    carry the error text. *)
Theorem kube_port_forward_never_returns env r cmd timeout tty xf pf out s :
  PyStr.truthy cmd = false -> pf_truthy pf = true ->
  exists e s1 t,
    k_run env r cmd timeout tty xf pf out s = Done (Raise e) s1 /\
    trace s1 =
      trace s ++
      [(clock s, EvRun cmd pf);
       (t, EvPopen
             (k_kubectl r ++ ["port-forward"; k_node_id r]%string ++
              map (fun lr => (PyStr.str_of_Z (fst lr) ++ ":" ++
                              PyStr.str_of_Z (snd lr))%string)
                  (pf_pairs pf)))] /\
    ((exists m, e = TypeError m) \/ (exists k m, e = OSError k m)).
Proof.
  intros Hc Hpf. unfold k_run.
  rewrite (bind_ok _ _ _ _ _ (emit_runs env _ s)).
  rewrite Hc, Hpf. cbn [andb]. unfold ask, bind. simpl.
  destruct (subprocess_popen env _ _) as [rc o | k m];
    do 3 eexists; (split; [reflexivity |]); simpl;
    rewrite <- app_assoc; (split; [reflexivity |]).
  - left. eexists. reflexivity.
  - right. eauto.
Qed.

Lemma kube_port_forward_never_returns_witness :
  PyStr.truthy None = false /\ pf_truthy Sample.forward = true /\
  exists e s1 t,
    k_run Sample.calm Sample.kube None 120 false false Sample.forward false
      (Sample.fresh []) = Done (Raise e) s1 /\
    trace s1 =
      trace (Sample.fresh []) ++
      [(clock (Sample.fresh []), EvRun None Sample.forward);
       (t, EvPopen
             (k_kubectl Sample.kube ++
              ["port-forward"; k_node_id Sample.kube]%string ++
              map (fun lr => (PyStr.str_of_Z (fst lr) ++ ":" ++
                              PyStr.str_of_Z (snd lr))%string)
                  (pf_pairs Sample.forward)))] /\
    ((exists m, e = TypeError m) \/ (exists k m, e = OSError k m)).
Proof.
  split; [reflexivity |]. split; [reflexivity |].
  exact (kube_port_forward_never_returns Sample.calm Sample.kube None 120
           false false Sample.forward false (Sample.fresh []) eq_refl
           eq_refl).
Defined.

(* ================================================================== *)
(** * The address of the node *)
(* ================================================================== *)

Lemma get_ip_answer env g s :
  get_ip env g s =
    Done (Ok (ip_oracle env g (trace s))) (record env (get_ip_event g) s).
Proof.
  unfold get_ip, ip_oracle, get_ip_event.
  destruct (ig_use_internal_ip g); reflexivity.
Qed.

Lemma is_terminated_answer env s :
  is_terminated env s =
    Done (Ok (provider_is_terminated env (trace s)))
         (record env EvIsTerminated s).
Proof. reflexivity. Qed.

Lemma time_sleep_ok env sl s :
  0 <= sl ->
  exists s1,
    time_sleep env sl s = Done (Ok tt) s1 /\
    trace s1 = trace s ++ [(clock s, EvSleep sl)] /\
    ssh_ip s1 = ssh_ip s /\ clock s + sl <= clock s1.
Proof.
  intros H. unfold time_sleep.
  destruct (sl <? 0) eqn:E; [apply Z.ltb_lt in E; lia |].
  eexists. split; [reflexivity |]. simpl. repeat split; lia.
Qed.

Lemma lookup_get_ip_event g : lookup_event (get_ip_event g) = true.
Proof. unfold get_ip_event. now destruct (ig_use_internal_ip g). Qed.

(** How the polling loop ends: with an address that the provider gave as
    its last answer, or with nothing once the deadline has passed or the
    provider has reported the node terminated. *)
Lemma wait_for_ip_loop_result env g d sl :
  0 <= sl ->
  forall fuel s r s',
    wait_for_ip_loop env fuel g (Some d) sl s = Done r s' ->
    ssh_ip s' = ssh_ip s /\
    exists evs,
      trace s' = trace s ++ evs /\
      Forall (fun te => lookup_event (snd te) = true) evs /\
      ((exists a pre t,
           r = Ok (Some a) /\ evs = pre ++ [(t, get_ip_event g)] /\
           ip_oracle env g (trace s ++ pre) = Some a) \/
       (r = Ok None /\
        (d <= clock s' \/
         exists pre t,
           evs = pre ++ [(t, EvIsTerminated)] /\
           provider_is_terminated env (trace s ++ pre) = true))).
Proof.
  intros Hsl. induction fuel as [| fuel IH]; intros s r s' H;
    [discriminate |].
  rewrite wait_for_ip_loop_S in H. unfold bind at 1, time_time in H.
  destruct (clock s <? d) eqn:Hd.
  - rewrite (bind_ok _ _ _ _ _ (is_terminated_answer env s)) in H.
    destruct (provider_is_terminated env (trace s)) eqn:Ht.
    + inversion H; subst. split; [reflexivity |].
      exists [(clock s, EvIsTerminated)]. split; [reflexivity |].
      split; [repeat constructor |]. right. split; [reflexivity |].
      right. exists [], (clock s). rewrite app_nil_r. auto.
    + rewrite (bind_ok _ _ _ _ _ (get_ip_answer env g _)) in H.
      destruct (ip_oracle env g (trace (record env EvIsTerminated s)))
        as [a |] eqn:Hip.
      * inversion H; subst. split; [reflexivity |].
        eexists. split; [simpl; rewrite <- app_assoc; reflexivity |].
        split.
        { repeat constructor. apply lookup_get_ip_event. }
        left. exists a, [(clock s, EvIsTerminated)]. eexists.
        split; [reflexivity |]. split; [reflexivity | exact Hip].
      * destruct (time_sleep_ok env sl
                    (record env (get_ip_event g)
                       (record env EvIsTerminated s)) Hsl)
          as (s3 & E3 & T3 & I3 & C3).
        rewrite (bind_ok _ _ _ _ _ E3) in H.
        apply IH in H. destruct H as (Hi & evs & T & F & R).
        split; [rewrite Hi, I3; reflexivity |].
        rewrite T3 in T. simpl in T. repeat rewrite <- app_assoc in T.
        simpl in T.
        eexists. split; [exact T |]. split.
        { repeat constructor; [apply lookup_get_ip_event | exact F]. }
        rewrite T3 in R. simpl in R.
        destruct R as [(a & pre & t & -> & -> & O) |
                       (-> & [C | (pre & t & -> & O)])].
        -- left. exists a. eexists. exists t. split; [reflexivity |].
           split.
           ++ rewrite !app_comm_cons. reflexivity.
           ++ rewrite <- O. f_equal. repeat rewrite <- app_assoc.
              reflexivity.
        -- right. split; [reflexivity |]. left. exact C.
        -- right. split; [reflexivity |]. right. eexists. exists t. split.
           ++ rewrite !app_comm_cons. reflexivity.
           ++ rewrite <- O. f_equal. repeat rewrite <- app_assoc.
              reflexivity.
  - inversion H; subst. split; [reflexivity |]. exists [].
    split; [now rewrite app_nil_r |]. split; [constructor |].
    right. split; [reflexivity |]. left. apply Z.ltb_ge in Hd. exact Hd.
Qed.

(** X7.  What [ProviderIpGetter.wait_for_ip] hands back.  An address is
    the answer the provider gave to the last query of the call; [None]
    comes only after the provider reported the node terminated or once the
    time limit has passed; and the call does nothing but query the
    provider and sleep. *)
Theorem wait_for_ip_answer env g fuel timeout deadline sl s r s' :
  0 <= sl ->
  wait_for_ip env g fuel timeout deadline sl s = Done r s' ->
  exists evs,
    trace s' = trace s ++ evs /\
    Forall (fun te => lookup_event (snd te) = true) evs /\
    (forall a, r = Ok (Some a) ->
       exists pre t,
         evs = pre ++ [(t, get_ip_event g)] /\
         ip_oracle env g (trace s ++ pre) = Some a) /\
    (r = Ok None ->
       (exists pre t,
           evs = pre ++ [(t, EvIsTerminated)] /\
           provider_is_terminated env (trace s ++ pre) = true) \/
       ((forall t, timeout = Some t -> t <> 0 -> clock s + t <= clock s') /\
        (forall d, num_truthy timeout = false -> deadline = Some d ->
                   d <= clock s'))).
Proof.
  intros Hsl H. unfold wait_for_ip in H.
  destruct (num_truthy timeout) eqn:Ht.
  - destruct (num_truthy deadline) eqn:Hd; simpl in H.
    + inversion H; subst. exists []. rewrite app_nil_r.
      repeat split; try constructor; discriminate.
    + unfold bind at 1 2, time_time in H. simpl in H.
      destruct (wait_for_ip_loop_result env g _ sl Hsl _ _ _ _ H)
        as (_ & evs & T & F & R).
      exists evs. split; [exact T |]. split; [exact F |]. split.
      * intros a ->.
        destruct R as [(a' & pre & t & E & -> & O) | (E & _)];
          [| discriminate].
        inversion E; subst. eauto.
      * intros ->.
        destruct R as [(a' & pre & t & E & _) | (_ & [C | Tm])];
          [discriminate | | left; exact Tm].
        right. split; [| discriminate].
        intros t E Hn. subst timeout. exact C.
  - simpl in H. unfold bind at 1 in H. simpl in H.
    destruct deadline as [d |].
    + destruct (wait_for_ip_loop_result env g _ sl Hsl _ _ _ _ H)
        as (_ & evs & T & F & R).
      exists evs. split; [exact T |]. split; [exact F |]. split.
      * intros a ->.
        destruct R as [(a' & pre & t & E & -> & O) | (E & _)];
          [| discriminate].
        inversion E; subst. eauto.
      * intros ->.
        destruct R as [(a' & pre & t & E & _) | (_ & [C | Tm])];
          [discriminate | | left; exact Tm].
        right. split.
        -- intros t -> Hn. simpl in Ht.
           apply negb_false_iff, Z.eqb_eq in Ht. contradiction.
        -- intros d' _ E. inversion E; subst. exact C.
    + destruct fuel; [discriminate |]. simpl in H.
      unfold bind, time_time in H. simpl in H. inversion H; subst.
      exists []. rewrite app_nil_r.
      repeat split; try constructor; discriminate.
Qed.

Lemma wait_for_ip_answer_witness :
  0 <= 10 /\
  exists evs,
    trace (mkState 1000 [] None None
             [(1000, EvIsTerminated); (1000, EvExternalIp)]) =
      trace (Sample.fresh []) ++ evs /\
    Forall (fun te => lookup_event (snd te) = true) evs /\
    (forall a, Ok (Some "10.0.0.1"%string) = Ok (Some a) ->
       exists pre t,
         evs = pre ++ [(t, get_ip_event Sample.getter)] /\
         ip_oracle Sample.calm Sample.getter
           (trace (Sample.fresh []) ++ pre) = Some a) /\
    (@Ok (option string) (Some "10.0.0.1"%string) = Ok None ->
       (exists pre t,
           evs = pre ++ [(t, EvIsTerminated)] /\
           provider_is_terminated Sample.calm
             (trace (Sample.fresh []) ++ pre) = true) \/
       ((forall t, Some 300 = Some t -> t <> 0 ->
                   clock (Sample.fresh []) + t <=
                   clock (mkState 1000 [] None None
                            [(1000, EvIsTerminated); (1000, EvExternalIp)]))
        /\
        (forall d, num_truthy (Some 300) = false -> @None Z = Some d ->
                   d <= clock (mkState 1000 [] None None
                                 [(1000, EvIsTerminated);
                                  (1000, EvExternalIp)])))).
Proof.
  split; [lia |].
  exact (wait_for_ip_answer Sample.calm Sample.getter 5 (Some 300) None 10
           (Sample.fresh []) _ _ ltac:(lia) eq_refl).
Defined.

(** A process call whose non-zero exit only leaves a warning. *)
Lemma tolerant_call_runs env args (warn : Exn -> LogRecord) s :
  exists res s1 evs,
    try_except (check_call env args) is_CalledProcessError
      (fun e => emit env (EvLogWarning (warn e))) s = Done res s1 /\
    ssh_ip s1 = ssh_ip s /\
    trace s1 = trace s ++ evs /\
    (res = Ok tt \/ exists k m, res = Raise (OSError k m)).
Proof.
  unfold try_except. rewrite check_call_runs.
  destruct (process_runner env (trace s) args) as [[| rc | rc] o | k m];
    simpl; do 3 eexists;
    (split; [reflexivity |]); (split; [reflexivity |]);
    (split; [simpl; try rewrite <- app_assoc; reflexivity |]); eauto.
Qed.

(** X8.  [SSHCommandRunner.set_ssh_ip_if_required] settles the address
    once: with an address already stored it does nothing at all; when it
    returns, an address is stored; a non-zero exit of [mkdir] or [chmod]
    never makes it fail.  It fails only with the assertion error, having
    done nothing but query the provider and sleep and with no address
    stored, or with the [OSError] of a process that could not be started,
    the address being stored by then. *)
Theorem ssh_address_is_settled env r fuel s res s' :
  set_ssh_ip_if_required env r fuel s = Done res s' ->
  (ssh_ip s <> None -> res = Ok tt /\ s' = s) /\
  (res = Ok tt -> ssh_ip s' <> None) /\
  (forall e, res = Raise e ->
     (e = AssertionError "Unable to find IP of node" /\ ssh_ip s' = None /\
      exists evs,
        trace s' = trace s ++ evs /\
        Forall (fun te => lookup_event (snd te) = true) evs) \/
     (exists k m, e = OSError k m /\ ssh_ip s' <> None)).
Proof.
  unfold set_ssh_ip_if_required. unfold bind at 1, get_ssh_ip.
  destruct (ssh_ip s) as [ip |] eqn:Hip.
  - intros H. inversion H; subst.
    repeat split; congruence.
  - unfold bind at 1, time_time, s_wait_for_ip, wait_for_ip. simpl.
    unfold bind at 1 2. simpl.
    destruct (wait_for_ip_loop env fuel _ _ 10 s) as [[[a |] | e] s1 |] eqn:L;
      try discriminate.
    + destruct (wait_for_ip_loop_result env _ _ 10 ltac:(lia) _ _ _ _ L)
        as (I1 & _).
      unfold bind at 1, set_ssh_ip.
      match goal with
      | |- context [try_except (check_call env ?args) _ _ ;; _] =>
          destruct (tolerant_call_runs env args
                      (fun e => LogExn "" e)
                      (mkState (clock s1) (node_tags s1) (Some a)
                         (exitcode s1) (trace s1)))
            as (r1 & s2 & ev1 & E1 & I2 & _ & R1)
      end.
simpl in I2.
      destruct R1 as [-> | (k & m & ->)].
      * rewrite (bind_ok _ _ _ _ _ E1).
        destruct (tolerant_call_runs env
                    (Argv ["chmod"; "0700"; s_ssh_control_path r]%string)
                    (fun e => LogExn (s_log_prefix r) e) s2)
          as (r2 & s3 & ev2 & E2 & I3 & _ & R2).
        rewrite E2. intros H. inversion H; subst.
        split; [congruence |]. split; [congruence |].
        intros e E. right.
        destruct R2 as [-> | (k & m & ->)]; [discriminate |].
        inversion E; subst. exists k, m. split; [reflexivity | congruence].
      * rewrite (bind_raise _ _ _ _ _ E1). intros H. inversion H; subst.
        split; [congruence |]. split; [discriminate |].
        intros e E. inversion E; subst. right. exists k, m.
        split; [reflexivity | congruence].
    + simpl. intros H. inversion H; subst.
      destruct (wait_for_ip_loop_result env _ _ 10 ltac:(lia) _ _ _ _ L)
        as (I1 & evs & T & F & _).
      split; [congruence |]. split; [discriminate |].
      intros e E. inversion E; subst. left.
      split; [reflexivity |]. split; [congruence |]. eauto.
    + destruct (wait_for_ip_loop_result env _ _ 10 ltac:(lia) _ _ _ _ L)
        as (_ & evs & _ & _ & [(a & pre & t & E & _) | (E & _)]);
        discriminate.
Qed.

Lemma ssh_address_is_settled_witness :
  (ssh_ip Sample.connected <> None ->
   Ok tt = Ok tt /\ Sample.connected = Sample.connected) /\
  (@Ok unit tt = Ok tt -> ssh_ip Sample.connected <> None) /\
  (forall e, @Ok unit tt = Raise e ->
     (e = AssertionError "Unable to find IP of node" /\
      ssh_ip Sample.connected = None /\
      exists evs,
        trace Sample.connected = trace Sample.connected ++ evs /\
        Forall (fun te => lookup_event (snd te) = true) evs) \/
     (exists k m, e = OSError k m /\ ssh_ip Sample.connected <> None)).
Proof.
  exact (ssh_address_is_settled Sample.calm Sample.ssh 5 Sample.connected
           (Ok tt) Sample.connected eq_refl).
Defined.

(** X9.  With the address of the node known, the SSH [run] asks the
    provider nothing and starts exactly one process, [ssh] with its
    options, [user@address] and the remote words; the stored address is
    kept, and without [exit_on_fail] the outcome of the call is the
    outcome of that process. *)
Theorem ssh_run_one_process env r fuel cmd timeout tty pf out s ip final :
  ssh_ip s = Some ip ->
  final = Argv (s_final_cmd r (Some ip) cmd timeout tty pf) ->
  s_run env r fuel cmd timeout tty false pf out s =
    Done (run_result out final
            (process_runner env (trace s ++ [(clock s, EvRun cmd pf)]) final))
         (record env (proc_event out final) (record env (EvRun cmd pf) s)) /\
  ssh_ip (record env (proc_event out final) (record env (EvRun cmd pf) s)) =
    Some ip /\
  events (trace (record env (proc_event out final)
                   (record env (EvRun cmd pf) s))) =
    events (trace s) ++ [EvRun cmd pf; proc_event out final].
Proof.
  intros Hip ->. split; [| split].
  - unfold s_run.
    rewrite (bind_ok _ _ _ _ _ (emit_runs env _ s)).
    unfold set_ssh_ip_if_required.
    unfold bind at 1 2, get_ssh_ip at 1. simpl. rewrite Hip.
    unfold bind at 1, get_ssh_ip. simpl. rewrite Hip.
    rewrite try_reraise, proc_call_runs. reflexivity.
  - exact Hip.
  - unfold events. simpl. rewrite <- app_assoc, map_app. reflexivity.
Qed.

Lemma ssh_run_one_process_witness :
  ssh_ip Sample.connected = Some "10.0.0.1"%string /\
  s_run Sample.calm Sample.ssh 5 None 120 false false Sample.forward false
    Sample.connected =
    Done (run_result false
            (Argv (s_final_cmd Sample.ssh (Some "10.0.0.1"%string) None 120
                     false Sample.forward))
            (process_runner Sample.calm
               (trace Sample.connected ++
                [(clock Sample.connected, EvRun None Sample.forward)])
               (Argv (s_final_cmd Sample.ssh (Some "10.0.0.1"%string) None
                        120 false Sample.forward))))
         (record Sample.calm
            (proc_event false
               (Argv (s_final_cmd Sample.ssh (Some "10.0.0.1"%string) None
                        120 false Sample.forward)))
            (record Sample.calm (EvRun None Sample.forward)
               Sample.connected)) /\
  ssh_ip
    (record Sample.calm
       (proc_event false
          (Argv (s_final_cmd Sample.ssh (Some "10.0.0.1"%string) None 120
                   false Sample.forward)))
       (record Sample.calm (EvRun None Sample.forward) Sample.connected)) =
    Some "10.0.0.1"%string /\
  events
    (trace
       (record Sample.calm
          (proc_event false
             (Argv (s_final_cmd Sample.ssh (Some "10.0.0.1"%string) None 120
                      false Sample.forward)))
          (record Sample.calm (EvRun None Sample.forward)
             Sample.connected))) =
    events (trace Sample.connected) ++
    [EvRun None Sample.forward;
     proc_event false
       (Argv (s_final_cmd Sample.ssh (Some "10.0.0.1"%string) None 120 false
                Sample.forward))].
Proof.
  split; [reflexivity |].
  exact (ssh_run_one_process Sample.calm Sample.ssh 5 None 120 false
           Sample.forward false Sample.connected "10.0.0.1" _ eq_refl
           eq_refl).
Defined.

(** X10.  With no address known and the provider reporting the node
    terminated, the SSH [run] fails at once with the assertion error
    [Unable to find IP of node]: it has asked the provider one question
    and started no process, and no address is stored. *)
Theorem ssh_run_on_terminated_node env r fuel cmd timeout tty xf pf out s :
  ssh_ip s = None -> (0 < fuel)%nat ->
  provider_is_terminated env (trace s ++ [(clock s, EvRun cmd pf)]) = true ->
  exists s',
    s_run env r fuel cmd timeout tty xf pf out s =
      Done (Raise (AssertionError "Unable to find IP of node")) s' /\
    ssh_ip s' = None /\
    events (trace s') = events (trace s) ++ [EvRun cmd pf; EvIsTerminated].
Proof.
  intros Hip Hf Ht. destruct fuel as [| fuel]; [lia |].
  unfold s_run.
  rewrite (bind_ok _ _ _ _ _ (emit_runs env _ s)).
  set (s0 := record env (EvRun cmd pf) s).
  assert (I0 : ssh_ip s0 = None) by exact Hip.
  unfold set_ssh_ip_if_required.
  unfold bind at 1 2, get_ssh_ip at 1. rewrite I0.
  unfold bind at 1, time_time, s_wait_for_ip, wait_for_ip. simpl num_truthy.
  cbn [andb]. unfold bind at 1 2. cbn [ret].
  rewrite wait_for_ip_loop_S. unfold bind at 1, time_time.
  assert (Hd : (clock s0 <? clock s0 + NODE_START_WAIT_S) = true)
    by (apply Z.ltb_lt; unfold NODE_START_WAIT_S; lia).
  rewrite Hd.
  rewrite (bind_ok _ _ _ _ _ (is_terminated_answer env s0)).
  change (trace s0) with (trace s ++ [(clock s, EvRun cmd pf)]).
  rewrite Ht. cbn [ret raise].
  eexists. split; [reflexivity |]. split; [exact Hip |].
  unfold events. simpl. rewrite <- app_assoc, map_app. reflexivity.
Qed.

Lemma ssh_run_on_terminated_node_witness :
  ssh_ip (Sample.fresh []) = None /\ (0 < 5)%nat /\
  provider_is_terminated Sample.gone
    (trace (Sample.fresh []) ++
     [(clock (Sample.fresh []), EvRun (Some "uptime"%string) PfNone)]) =
    true /\
  exists s',
    s_run Sample.gone Sample.ssh 5 (Some "uptime"%string) 5 false false PfNone
      false (Sample.fresh []) =
      Done (Raise (AssertionError "Unable to find IP of node")) s' /\
    ssh_ip s' = None /\
    events (trace s') =
      events (trace (Sample.fresh [])) ++
      [EvRun (Some "uptime"%string) PfNone; EvIsTerminated].
Proof.
  split; [reflexivity |]. split; [lia |]. split; [reflexivity |].
  exact (ssh_run_on_terminated_node Sample.gone Sample.ssh 5
           (Some "uptime"%string) 5 false false PfNone false (Sample.fresh [])
           eq_refl ltac:(lia) eq_refl).
Defined.

(** X11.  Over SSH, with the address of the node known, [rsync_up] and
    [rsync_down] of the updater each start exactly one [rsync] process
    that goes through [ssh] with the default options and a connect timeout
    of 120 seconds; the remote side, [user@address:path], is the target of
    an upload and the source of a download.  There is no fallback: the
    outcome of the call is the outcome of that process. *)
Theorem ssh_rsync_one_process env u r fuel source target s ip up down :
  cmd_runner u = SSH r ->
  ssh_ip s = Some ip ->
  up = Argv ["rsync"; "--rsh"; s_rsync_rsh r; "-avz"; source;
             s_ssh_user r ++ "@" ++ ip ++ ":" ++ target]%string ->
  down = Argv ["rsync"; "--rsh"; s_rsync_rsh r; "-avz";
               s_ssh_user r ++ "@" ++ ip ++ ":" ++ source; target]%string ->
  rsync_up env u fuel source target s =
    Done (call_result up
            (process_runner env
               (trace s ++ [(clock s, EvRsyncUp source target)]) up))
         (record env (EvCheckCall up)
            (record env (EvRsyncUp source target) s)) /\
  rsync_down env u fuel source target s =
    Done (call_result down
            (process_runner env
               (trace s ++ [(clock s, EvRsyncDown source target)]) down))
         (record env (EvCheckCall down)
            (record env (EvRsyncDown source target) s)) /\
  In "ConnectTimeout=120s"%string (get_default_ssh_options r 120).
Proof.
  intros Hr Hip -> ->.
  unfold rsync_up, rsync_down, runner_run_rsync_up, runner_run_rsync_down.
  rewrite Hr. unfold s_run_rsync_up, s_run_rsync_down.
  rewrite !(bind_ok _ _ _ _ _ (emit_runs env _ s)).
  unfold set_ssh_ip_if_required.
  split; [| split].
  - unfold bind at 1 2, get_ssh_ip at 1. simpl. rewrite Hip.
    unfold bind at 1, get_ssh_ip. simpl. rewrite Hip.
    unfold s_user_at, fmt_ip. rewrite str_app_assoc.
    rewrite check_call_runs. reflexivity.
  - unfold bind at 1 2, get_ssh_ip at 1. simpl. rewrite Hip.
    unfold bind at 1, get_ssh_ip. simpl. rewrite Hip.
    unfold s_user_at, fmt_ip. rewrite str_app_assoc.
    rewrite check_call_runs. reflexivity.
  - unfold get_default_ssh_options. simpl. auto.
Qed.

Lemma ssh_rsync_one_process_witness :
  cmd_runner Sample.ssh_updater = SSH Sample.ssh /\
  ssh_ip Sample.connected = Some "10.0.0.1"%string /\
  rsync_up Sample.calm Sample.ssh_updater 5 "./a" "/app/a" Sample.connected =
    Done (call_result
            (Argv ["rsync"; "--rsh"; s_rsync_rsh Sample.ssh; "-avz"; "./a";
                   "ubuntu@10.0.0.1:/app/a"]%string)
            (process_runner Sample.calm
               (trace Sample.connected ++
                [(clock Sample.connected, EvRsyncUp "./a" "/app/a")])
               (Argv ["rsync"; "--rsh"; s_rsync_rsh Sample.ssh; "-avz";
                      "./a"; "ubuntu@10.0.0.1:/app/a"]%string)))
         (record Sample.calm
            (EvCheckCall
               (Argv ["rsync"; "--rsh"; s_rsync_rsh Sample.ssh; "-avz";
                      "./a"; "ubuntu@10.0.0.1:/app/a"]%string))
            (record Sample.calm (EvRsyncUp "./a" "/app/a")
               Sample.connected)) /\
  rsync_down Sample.calm Sample.ssh_updater 5 "./a" "/app/a"
    Sample.connected =
    Done (call_result
            (Argv ["rsync"; "--rsh"; s_rsync_rsh Sample.ssh; "-avz";
                   "ubuntu@10.0.0.1:./a"; "/app/a"]%string)
            (process_runner Sample.calm
               (trace Sample.connected ++
                [(clock Sample.connected, EvRsyncDown "./a" "/app/a")])
               (Argv ["rsync"; "--rsh"; s_rsync_rsh Sample.ssh; "-avz";
                      "ubuntu@10.0.0.1:./a"; "/app/a"]%string)))
         (record Sample.calm
            (EvCheckCall
               (Argv ["rsync"; "--rsh"; s_rsync_rsh Sample.ssh; "-avz";
                      "ubuntu@10.0.0.1:./a"; "/app/a"]%string))
            (record Sample.calm (EvRsyncDown "./a" "/app/a")
               Sample.connected)) /\
  In "ConnectTimeout=120s"%string (get_default_ssh_options Sample.ssh 120).
Proof.
  split; [reflexivity |]. split; [reflexivity |].
  exact (ssh_rsync_one_process Sample.calm Sample.ssh_updater Sample.ssh 5
           "./a" "/app/a" Sample.connected "10.0.0.1" _ _ eq_refl eq_refl
           eq_refl eq_refl).
Defined.

(* ================================================================== *)
(** * The readiness wait *)
(* ================================================================== *)

Lemma poll_off_tags e : poll_event e = true -> off_tags e = true.
Proof. now destruct e. Qed.

Lemma firstn_length_one {A} n (x : A) : (length (firstn n [x]) <= 1)%nat.
Proof. destruct n as [| [| n]]; simpl; lia. Qed.

(** One readiness poll: it touches no tag, calls the runner at most once
    and raises nothing but what the wait goes on from. *)
Lemma ready_poll_runs env c fuel s r s1 :
  run_cmd env c fuel "uptime" 5 s = Done r s1 ->
  exists evs,
    trace s1 = trace s ++ evs /\
    Forall (fun te => poll_event (snd te) = true) evs /\
    node_tags s1 = node_tags s /\
    clock s <= clock s1 /\
    (length (invocations evs) <= 1)%nat /\
    raises_in ordinary r.
Proof.
  intros H.
  destruct (planned_run_cmd env poll_event background_poll c fuel
              "uptime" 5 eq_refl s r s1 H)
    as (evs & (T & N & _ & C & F) & R & (n & I) & _).
  exists evs. split; [exact T |]. split; [exact F |]. split.
  - rewrite N. apply replay_off_tags.
    eapply Forall_impl; [| exact F]. intros te. apply poll_off_tags.
  - split; [exact C |]. split; [| exact R].
    rewrite I. apply firstn_length_one.
Qed.

(** How the readiness wait ends, and what it has done by then. *)
Lemma wait_ready_loop_result env u fuel deadline n :
  forall s r s',
    wait_ready_loop env n u fuel deadline s = Done r s' ->
    (r = Ok true \/
     (r = Raise unable_to_connect /\
      (deadline <= clock s' \/
       exists pre t,
         trace s' = trace s ++ pre ++ [(t, EvIsTerminated)] /\
         provider_is_terminated env (trace s ++ pre) = true))) /\
    node_tags s' = node_tags s /\
    clock s <= clock s' /\
    exists evs,
      trace s' = trace s ++ evs /\
      Forall (fun te => poll_event (snd te) = true) evs /\
      5 * Z.of_nat (length (invocations evs)) <=
        Z.max 0 (deadline - clock s) + 4.
Proof.
  induction n as [| n IH]; intros s r s' H; [discriminate |].
  rewrite wait_ready_loop_S in H. unfold bind at 1, time_time in H.
  destruct (clock s <? deadline) eqn:Hd.
  - apply Z.ltb_lt in Hd.
    rewrite (bind_ok _ _ _ _ _ (is_terminated_answer env s)) in H.
    destruct (provider_is_terminated env (trace s)) eqn:Ht.
    + inversion H; subst. split.
      { right. split; [reflexivity |]. right. exists [], (clock s).
        rewrite app_nil_r. split; [reflexivity | exact Ht]. }
      split; [reflexivity |]. split; [simpl; lia |].
      exists [(clock s, EvIsTerminated)]. split; [reflexivity |].
      split; [repeat constructor |]. simpl. lia.
    + set (s1 := record env EvIsTerminated s) in *.
      assert (C1 : clock s <= clock s1) by (simpl; lia).
      unfold try_except in H.
      destruct ((run_cmd env (cmd_runner u) fuel "uptime" 5 ;; ret true) s1)
        as [[b | e] s2 |] eqn:P; [| | discriminate].
      * inversion H; subst. unfold bind in P.
        destruct (run_cmd env (cmd_runner u) fuel "uptime" 5 s1)
          as [[[] | e] s3 |] eqn:Q; try discriminate.
        inversion P; subst.
        destruct (ready_poll_runs _ _ _ _ _ _ Q)
          as (evs & T & F & N & C & L & _).
        split; [left; reflexivity |]. split; [exact N |].
        split; [lia |].
        exists ((clock s, EvIsTerminated) :: evs). split.
        { rewrite T. simpl. rewrite <- app_assoc. reflexivity. }
        split; [constructor; [reflexivity | exact F] |].
        change (invocations ((clock s, EvIsTerminated) :: evs))
          with (invocations evs). lia.
      * unfold bind in P.
        destruct (run_cmd env (cmd_runner u) fuel "uptime" 5 s1)
          as [[[] | e0] s3 |] eqn:Q; try discriminate.
        inversion P; subst e0 s3.
        destruct (ready_poll_runs _ _ _ _ _ _ Q)
          as (evs & T & F & N & C & L & R).
        simpl in R. rewrite (ordinary_is_Exception _ R) in H.
        destruct (describe_ordinary e ":" s2 R) as (str & D).
        rewrite (bind_ok _ _ _ _ _ D) in H.
        destruct (time_sleep_ok env READY_CHECK_INTERVAL s2 ltac:(unfold READY_CHECK_INTERVAL; lia))
          as (s4 & E4 & T4 & _ & C4).
        rewrite (bind_ok _ _ _ _ _ E4) in H.
        assert (N4 : node_tags s4 = node_tags s2).
        { unfold time_sleep in E4. simpl in E4. inversion E4. reflexivity. }
        apply IH in H.
        destruct H as (Hr & N' & C' & evs' & T' & F' & B').
        unfold READY_CHECK_INTERVAL in C4.
        split.
        { destruct Hr as [-> | (-> & [Hc | (pre & t & Tp & Op)])];
            [left; reflexivity | right; split; [reflexivity |] ..].
          - left. exact Hc.
          - right.
            exists ((clock s, EvIsTerminated) :: evs ++
                    (clock s2, EvSleep READY_CHECK_INTERVAL) :: pre), t.
            rewrite T4, T in Tp, Op. simpl in Tp, Op.
            repeat rewrite <- app_assoc in Tp, Op. simpl in Tp, Op.
            split.
            + rewrite Tp. simpl. repeat rewrite <- app_assoc. reflexivity.
            + exact Op. }
        split; [rewrite N', N4, N; reflexivity |]. split; [lia |].
        exists ((clock s, EvIsTerminated) :: evs ++
                (clock s2, EvSleep READY_CHECK_INTERVAL) :: evs').
        split.
        { rewrite T', T4, T. simpl. repeat rewrite <- app_assoc.
          reflexivity. }
        split.
        { constructor; [reflexivity |]. apply Forall_app. split; [exact F |].
          constructor; [reflexivity | exact F']. }
        change (invocations ((clock s, EvIsTerminated) :: evs ++
                             (clock s2, EvSleep READY_CHECK_INTERVAL) :: evs'))
          with (invocations (evs ++
                             (clock s2, EvSleep READY_CHECK_INTERVAL) :: evs')).
        rewrite invocations_app.
        change (invocations ((clock s2, EvSleep READY_CHECK_INTERVAL) :: evs'))
          with (invocations evs').
        rewrite length_app. lia.
  - apply Z.ltb_ge in Hd. inversion H; subst.
    split; [right; split; [reflexivity | left; exact Hd] |].
    split; [reflexivity |]. split; [lia |]. exists [].
    split; [now rewrite app_nil_r |]. split; [constructor |]. simpl. lia.
Qed.

(** X12.  [NodeUpdater.wait_ready] never returns [False] and lets no
    error of the probe command out: it returns [True] or raises the
    assertion error [Unable to connect to node], and it raises only once
    the deadline has passed or the provider has reported the node
    terminated.  The tags of the node are left as they were. *)
Theorem wait_ready_true_or_gives_up env u fuel deadline s r s' :
  wait_ready env u fuel deadline s = Done r s' ->
  (r = Ok true \/ r = Raise unable_to_connect) /\
  (r = Raise unable_to_connect ->
   deadline <= clock s' \/
   exists pre t,
     trace s' = trace s ++ pre ++ [(t, EvIsTerminated)] /\
     provider_is_terminated env (trace s ++ pre) = true) /\
  node_tags s' = node_tags s.
Proof.
  intros H. unfold wait_ready in H.
  destruct (wait_ready_loop_result _ _ _ _ _ _ _ _ H)
    as (R & N & _ & _).
  split; [| split; [| exact N]].
  - destruct R as [R | (R & _)]; auto.
  - intros ->. destruct R as [R | (_ & R)]; [discriminate | exact R].
Qed.

Lemma wait_ready_true_or_gives_up_witness :
  wait_ready Sample.gone Sample.kube_updater 5 1300 (Sample.fresh []) =
    Done (Raise unable_to_connect)
      (Sample.final
         (wait_ready Sample.gone Sample.kube_updater 5 1300
            (Sample.fresh []))) /\
  (@Raise bool unable_to_connect = Ok true \/
   @Raise bool unable_to_connect = Raise unable_to_connect) /\
  (@Raise bool unable_to_connect = Raise unable_to_connect ->
   1300 <=
     clock (Sample.final
              (wait_ready Sample.gone Sample.kube_updater 5 1300
                 (Sample.fresh []))) \/
   exists pre t,
     trace (Sample.final
              (wait_ready Sample.gone Sample.kube_updater 5 1300
                 (Sample.fresh []))) =
       trace (Sample.fresh []) ++ pre ++ [(t, EvIsTerminated)] /\
     provider_is_terminated Sample.gone (trace (Sample.fresh []) ++ pre) =
       true) /\
  node_tags
    (Sample.final
       (wait_ready Sample.gone Sample.kube_updater 5 1300 (Sample.fresh []))) =
    node_tags (Sample.fresh []).
Proof.
  assert (H : wait_ready Sample.gone Sample.kube_updater 5 1300
                (Sample.fresh []) =
              Done (Raise unable_to_connect)
                (Sample.final
                   (wait_ready Sample.gone Sample.kube_updater 5 1300
                      (Sample.fresh []))))
    by (vm_compute; reflexivity).
  split; [exact H |].
  exact (wait_ready_true_or_gives_up Sample.gone Sample.kube_updater 5 1300
           (Sample.fresh []) _ _ H).
Defined.

(** X13.  While it waits, [NodeUpdater.wait_ready] calls the runner only
    with [uptime], and it does so a bounded number of times: a poll starts
    before the deadline and is followed by a sleep of five seconds, so
    with [d] seconds left there are at most [(d + 4) / 5] polls, and none
    when the deadline has passed. *)
Theorem wait_ready_polls_bounded env u fuel deadline s r s' :
  wait_ready env u fuel deadline s = Done r s' ->
  exists evs,
    trace s' = trace s ++ evs /\
    (forall e, In e (invocations evs) -> e = ready_poll) /\
    5 * Z.of_nat (length (invocations evs)) <=
      Z.max 0 (deadline - clock s) + 4.
Proof.
  intros H. unfold wait_ready in H.
  destruct (wait_ready_loop_result _ _ _ _ _ _ _ _ H)
    as (_ & _ & _ & evs & T & F & B).
  exists evs. split; [exact T |]. split; [| exact B].
  intros e. apply invocations_prelude.
  eapply Forall_impl; [| exact F]. intros te. apply poll_prelude.
Qed.

Lemma wait_ready_polls_bounded_witness :
  wait_ready Sample.unreachable Sample.kube_updater 5 1012 (Sample.fresh []) =
    Done (Raise unable_to_connect)
      (Sample.final
         (wait_ready Sample.unreachable Sample.kube_updater 5 1012
            (Sample.fresh []))) /\
  exists evs,
    trace (Sample.final
             (wait_ready Sample.unreachable Sample.kube_updater 5 1012
                (Sample.fresh []))) = trace (Sample.fresh []) ++ evs /\
    (forall e, In e (invocations evs) -> e = ready_poll) /\
    5 * Z.of_nat (length (invocations evs)) <=
      Z.max 0 (1012 - clock (Sample.fresh [])) + 4.
Proof.
  assert (H : wait_ready Sample.unreachable Sample.kube_updater 5 1012
                (Sample.fresh []) =
              Done (Raise unable_to_connect)
                (Sample.final
                   (wait_ready Sample.unreachable Sample.kube_updater 5 1012
                      (Sample.fresh []))))
    by (vm_compute; reflexivity).
  split; [exact H |].
  exact (wait_ready_polls_bounded Sample.unreachable Sample.kube_updater 5
           1012 (Sample.fresh []) _ _ H).
Defined.

(* ================================================================== *)
(** * Before the update: the known-hosts cleanup and the constructor *)
(* ================================================================== *)

Lemma wait_for_ip_with_timeout env g fuel t sl s :
  t <> 0 ->
  wait_for_ip env g fuel (Some t) None sl s =
  wait_for_ip_loop env fuel g (Some (clock s + t)) sl s.
Proof.
  intros Ht. unfold wait_for_ip. simpl.
  destruct (t =? 0) eqn:E; [apply Z.eqb_eq in E; contradiction |].
  reflexivity.
Qed.

(** X14.  [NodeUpdater.remove_node_from_known_hosts] ends, given fuel
    for more than 300 rounds of waiting.  It first waits for the
    address of the node, as [wait_for_ip] with a timeout of five minutes
    does, which only queries the provider and sleeps.  With an address,
    the provider's last answer, it then runs [ssh-keygen -R <address>]
    once and does nothing more: whatever the exit code the call returns
    normally, a missing [ssh-keygen] is passed over, and only a run that
    exceeds its three seconds or fails in some other way raises.  With no
    address, which happens only once the five minutes have passed or the
    provider has reported the node terminated, it raises a [TypeError]
    and has started no process. *)
Theorem known_hosts_cleanup_outcomes env u fuel s g :
  g = mkProviderIpGetter (log_prefix u) (node_id u) (use_internal_ip u) ->
  ((300 < fuel)%nat ->
   exists r s', remove_node_from_known_hosts env u fuel s = Done r s') /\
  forall r s',
  remove_node_from_known_hosts env u fuel s = Done r s' ->
  exists found s1 evs,
    wait_for_ip env g fuel (Some NODE_START_WAIT_S) None 10 s =
      Done (Ok found) s1 /\
    trace s1 = trace s ++ evs /\
    Forall (fun te => lookup_event (snd te) = true) evs /\
    (forall ip, found = Some ip ->
       (exists pre t,
           evs = pre ++ [(t, get_ip_event g)] /\
           ip_oracle env g (trace s ++ pre) = Some ip) /\
       s' = record env (EvSubprocessRun ["ssh-keygen"; "-R"; ip]%string 3) s1
       /\
       r = match subprocess_run env (trace s1)
                   ["ssh-keygen"; "-R"; ip]%string with
           | Completed _ => Ok tt
           | RunFailed FileNotFoundError _ => Ok tt
           | RunFailed TimeoutError _ => Ok tt
           | RunFailed OtherOSError m => Raise (OSError OtherOSError m)
           | RunTimedOut =>
               Raise (TimeoutExpired
                        (Argv ["ssh-keygen"; "-R"; ip]%string) 3)
           end) /\
    (found = None ->
       s' = s1 /\ (exists m, r = Raise (TypeError m)) /\
       (clock s + NODE_START_WAIT_S <= clock s1 \/
        exists pre t,
          evs = pre ++ [(t, EvIsTerminated)] /\
          provider_is_terminated env (trace s ++ pre) = true)).
Proof.
  intros ->. split.
  { intros Hf. apply total_done.
    now apply total_remove_node_from_known_hosts. }
  intros r s' H. unfold remove_node_from_known_hosts in H.
  unfold bind at 1 in H.
  destruct (wait_for_ip env _ fuel (Some NODE_START_WAIT_S) None 10 s)
    as [[found | e] s1 |] eqn:W; [| | discriminate].
  - pose proof W as L.
    rewrite wait_for_ip_with_timeout in L by (unfold NODE_START_WAIT_S; lia).
    destruct (wait_for_ip_loop_result env _ _ 10 ltac:(lia) _ _ _ _ L)
      as (_ & evs & T & F & R).
    exists found, s1, evs. split; [reflexivity |]. split; [exact T |].
    split; [exact F |]. split.
    + intros ip ->.
      destruct R as [(a & pre & t & Ea & -> & O) | (Ea & _)];
        [| discriminate].
      inversion Ea; subst a. split; [eauto |].
      unfold try_except, forget_known_host, ask, bind in H. simpl in H.
      destruct (subprocess_run env (trace s1) _) as [rc | k m |] eqn:Q;
        simpl in H.
      * inversion H; subst. split; reflexivity.
      * destruct k; simpl in H; inversion H; subst; split; reflexivity.
      * inversion H; subst. split; reflexivity.
    + intros ->.
      destruct R as [(a & pre & t & Ea & _) | (_ & R)]; [discriminate |].
      unfold try_except, forget_known_host in H. simpl in H.
      inversion H; subst. split; [reflexivity |]. split; [eauto | exact R].
  - rewrite wait_for_ip_with_timeout in W by (unfold NODE_START_WAIT_S; lia).
    destruct (wait_for_ip_loop_result env _ _ 10 ltac:(lia) _ _ _ _ W)
      as (_ & evs & _ & _ & [(a & pre & t & E & _) | (E & _)]);
      discriminate.
Qed.

Lemma known_hosts_cleanup_outcomes_witness :
  Sample.getter =
    mkProviderIpGetter (log_prefix Sample.ssh_updater)
      (node_id Sample.ssh_updater) (use_internal_ip Sample.ssh_updater) /\
  (300 < 301)%nat /\
  (exists r s',
     remove_node_from_known_hosts Sample.calm Sample.ssh_updater 301
    (Sample.fresh []) = Done r s') /\
  remove_node_from_known_hosts Sample.calm Sample.ssh_updater 301
    (Sample.fresh []) =
    Done (Ok tt) Sample.cleaned /\
  exists found s1 evs,
    wait_for_ip Sample.calm Sample.getter 301 (Some NODE_START_WAIT_S) None 10 (Sample.fresh []) =
      Done (Ok found) s1 /\
    trace s1 = trace (Sample.fresh []) ++ evs /\
    Forall (fun te => lookup_event (snd te) = true) evs /\
    (forall ip, found = Some ip ->
       (exists pre t,
           evs = pre ++ [(t, get_ip_event Sample.getter)] /\
           ip_oracle Sample.calm Sample.getter (trace (Sample.fresh []) ++ pre) = Some ip) /\
       Sample.cleaned = record Sample.calm (EvSubprocessRun ["ssh-keygen"; "-R"; ip]%string 3) s1
       /\
       (@Ok unit tt) = match subprocess_run Sample.calm (trace s1)
                   ["ssh-keygen"; "-R"; ip]%string with
           | Completed _ => Ok tt
           | RunFailed FileNotFoundError _ => Ok tt
           | RunFailed TimeoutError _ => Ok tt
           | RunFailed OtherOSError m => Raise (OSError OtherOSError m)
           | RunTimedOut =>
               Raise (TimeoutExpired
                        (Argv ["ssh-keygen"; "-R"; ip]%string) 3)
           end) /\
    (found = None ->
       Sample.cleaned = s1 /\ (exists m, (@Ok unit tt) = Raise (TypeError m)) /\
       (clock (Sample.fresh []) + NODE_START_WAIT_S <= clock s1 \/
        exists pre t,
          evs = pre ++ [(t, EvIsTerminated)] /\
          provider_is_terminated Sample.calm (trace (Sample.fresh []) ++ pre) = true)).
Proof.
  assert (H : remove_node_from_known_hosts Sample.calm Sample.ssh_updater 301
    (Sample.fresh []) =
              Done (Ok tt) Sample.cleaned)
    by (vm_compute; reflexivity).
  pose proof (known_hosts_cleanup_outcomes Sample.calm Sample.ssh_updater 301
                (Sample.fresh []) Sample.getter eq_refl) as (T & F).
  split; [reflexivity |]. split; [lia |]. split; [exact (T ltac:(lia)) |].
  split; [exact H |]. exact (F _ _ H).
Defined.

Lemma length_str_app (a b : string) :
  String.length (a ++ b) = (String.length a + String.length b)%nat.
Proof. induction a as [| c a IH]; simpl; congruence. Qed.

Lemma length_substring n : forall m s,
  (String.length (substring n m s) <= m)%nat.
Proof.
  induction n as [| n IH]; intros m s.
  - revert s. induction m as [| m IHm]; intros [| c s]; simpl; try lia.
    specialize (IHm s). lia.
  - destruct s as [| c s]; simpl; [lia | apply IH].
Qed.

(** X15.  [NodeUpdater.__init__], given a provider configuration with a
    type and an auth configuration with a key and a user, never fails.
    For a provider of type
    [kubernetes] it builds the Kubernetes runner around [kubectl -n
    <namespace>], leaves the given [use_internal_ip] alone and touches no
    state.  For any other provider it builds the SSH runner with no
    address stored; the updater and its runner then agree on
    [use_internal_ip], which is the given flag or-ed with the provider's
    [use_internal_ips], and the control path of the runner has at most 34
    characters whatever the cluster and the user are called.  The mounts
    keep their remote paths and their order. *)
Theorem init_builds_runner env node_id provider_config provider_namespace
    auth_config cluster_name mounts initialization_commands
    setup_commands ray_start_commands runtime_hash internal
    remove_node_from_known_hosts_before_use s :
  exists u s',
    NodeUpdater_init env node_id provider_config provider_namespace
      auth_config cluster_name mounts initialization_commands
      setup_commands ray_start_commands runtime_hash internal
      remove_node_from_known_hosts_before_use s = Done (Ok u) s' /\
    map fst (file_mounts u) = map fst mounts /\
    trace s' = trace s /\
    match cmd_runner u with
    | Kubernetes k =>
        pc_type provider_config = "kubernetes"%string /\
        k_kubectl k = ["kubectl"; "-n"; provider_namespace]%string /\
        use_internal_ip u = internal /\
        s' = s
    | SSH r =>
        pc_type provider_config <> "kubernetes"%string /\
        use_internal_ip u =
          (internal || pc_use_internal_ips provider_config)%bool /\
        s_use_internal_ip r = use_internal_ip u /\
        ssh_ip s' = None /\
        (String.length (s_ssh_control_path r) <= 34)%nat
    end.
Proof.
  unfold NodeUpdater_init.
  destruct (String.eqb (pc_type provider_config) "kubernetes") eqn:E.
  - do 2 eexists. split; [reflexivity |]. simpl.
    split; [now rewrite map_map |]. split; [reflexivity |].
    apply String.eqb_eq in E. auto.
  - do 2 eexists. split; [reflexivity |]. simpl.
    split; [now rewrite map_map |]. split; [reflexivity |].
    apply String.eqb_neq in E. repeat split; auto.
    change (String.length
              ("/tmp/ray_ssh_" ++
               PyStr.take HASH_MAX_LENGTH
                 (md5_hexdigest env (getuser env)) ++ "/" ++
               PyStr.take HASH_MAX_LENGTH
                 (md5_hexdigest env cluster_name)) <= 34)%nat.
    rewrite !length_str_app. unfold PyStr.take, HASH_MAX_LENGTH.
    pose proof (length_substring 0 10 (md5_hexdigest env (getuser env))).
    pose proof (length_substring 0 10 (md5_hexdigest env cluster_name)).
    simpl String.length. lia.
Qed.

(* ================================================================== *)
(** * The status tag during an update *)
(* ================================================================== *)

Lemma status_writes_app h1 h2 :
  status_writes (h1 ++ h2) = status_writes h1 ++ status_writes h2.
Proof. unfold status_writes, events. now rewrite map_app, flat_map_app. Qed.

Lemma status_writes_off_tags h :
  Forall (fun te => off_tags (snd te) = true) h -> status_writes h = [].
Proof.
  induction 1 as [| [t e] h He _ IH]; [reflexivity |].
  change ((t, e) :: h) with ([(t, e)] ++ h).
  rewrite status_writes_app, IH, app_nil_r. now destruct e.
Qed.

Lemma off_tags_keeps e : off_tags e = true -> keeps_fingerprint e = true.
Proof. now destruct e. Qed.

Lemma replay_keeps h t :
  Forall (fun te => keeps_fingerprint (snd te) = true) h ->
  tags_get TAG_RAY_RUNTIME_CONFIG (replay h t) =
  tags_get TAG_RAY_RUNTIME_CONFIG t.
Proof.
  intros H. revert t. induction H as [| [c e] h He _ IH]; intros t.
  - reflexivity.
  - unfold replay in *. simpl in *. rewrite IH.
    destruct e; try reflexivity. simpl in He.
    destruct (tags_get TAG_RAY_RUNTIME_CONFIG tags) eqn:E; [discriminate |].
    now apply tags_get_update_absent.
Qed.

Section Stages.

Variable env : Env.

Lemma staged_quiet {A} (X : Exn -> bool) (m : M A) :
  within off_tags X m -> staged (fun _ => []) m.
Proof.
  intros H s r s' E. destruct (H s r s' E) as (evs & G & _).
  exists evs. split; [eapply grows_weaken; [apply off_tags_keeps | exact G] |].
  assert (I : status_writes evs = [])
    by (apply status_writes_off_tags; apply G).
  split; [exists O; exact I | intros _; exact I].
Qed.

Lemma staged_write v :
  staged (fun _ => [VStatus v])
    (provider_set_node_tags env [(TAG_RAY_NODE_STATUS, VStatus v)]).
Proof.
  intros s r s' E.
  destruct (within_set_node_tags env keeps_fingerprint any_exn
              [(TAG_RAY_NODE_STATUS, VStatus v)] eq_refl s r s' E)
    as (evs & G & _).
  exists evs. split; [exact G |].
  unfold provider_set_node_tags, bind in E. simpl in E. inversion E; subst.
  destruct G as (T & _). simpl in T. apply app_inv_head in T. subst evs.
  split; [exists 1%nat |]; reflexivity.
Qed.

Lemma staged_bind {A B} p1 plan (m : M A) (k : A -> M B) :
  (forall t t', tags_get TAG_RAY_RUNTIME_CONFIG t =
                tags_get TAG_RAY_RUNTIME_CONFIG t' -> plan t = plan t') ->
  staged (fun _ => p1) m -> (forall a, staged plan (k a)) ->
  staged (fun t => p1 ++ plan t) (bind m k).
Proof.
  intros Hp Hm Hk s. apply wp_bind.
  eapply wp_mono; [apply Hm |].
  intros [a | e] s1 (ev1 & G1 & [n1 I1] & F1).
  - eapply wp_mono; [apply Hk |].
    intros r s2 (ev2 & G2 & [n2 I2] & F2).
    assert (E : plan (node_tags s1) = plan (node_tags s)).
    { apply Hp. destruct G1 as (_ & -> & _ & _ & F). now apply replay_keeps. }
    rewrite E in *.
    exists (ev1 ++ ev2). split; [eapply grows_trans; eauto |].
    rewrite status_writes_app, (F1 I). split.
    + exists (length p1 + n2)%nat. now rewrite firstn_app_2, I2.
    + intros Hr. now rewrite (F2 Hr).
  - exists ev1. split; [exact G1 |].
    split; [| intros []]. rewrite I1. apply firstn_prefix_app.
Qed.

Lemma staged_read {B} plan (k : Tags -> M B) :
  (forall tags, staged (fun _ => plan tags) (k tags)) ->
  staged plan (bind (provider_node_tags env) k).
Proof.
  intros Hk s. apply wp_bind. intros r s1 E.
  unfold provider_node_tags, bind in E. simpl in E. inversion E; subst.
  clear E. simpl.
  intros r s2 E. destruct (Hk _ _ _ _ E) as (ev & G & N & F).
  destruct G as (T & Nt & Xc & C & Fa). simpl in *.
  exists ((clock s, EvNodeTags) :: ev). split; [| split; [exact N | exact F]].
  unfold grows. simpl. rewrite T, <- app_assoc. simpl.
  split; [reflexivity |]. split; [rewrite Nt; reflexivity |].
  split; [exact Xc |]. split; [lia |].
  constructor; [reflexivity | exact Fa].
Qed.

Lemma staged_run_all u fuel cmds :
  staged (fun _ => []) (run_all env u fuel cmds).
Proof.
  apply (staged_quiet ordinary).
  eapply planned_is_within. apply planned_run_all.
Qed.

Lemma staged_after_read u fuel tags :
  staged
    (fun _ => if fingerprint_matches tags (runtime_hash u)
              then []
              else [VStatus STATUS_SYNCING_FILES; VStatus STATUS_SETTING_UP])
    ((if fingerprint_matches tags (runtime_hash u)
      then ret tt
      else
        provider_set_node_tags env
          [(TAG_RAY_NODE_STATUS, VStatus STATUS_SYNCING_FILES)] ;;
        sync_file_mounts env u fuel (rsync_up env u fuel) ;;
        provider_set_node_tags env
          [(TAG_RAY_NODE_STATUS, VStatus STATUS_SETTING_UP)] ;;
        run_all env u fuel (initialization_commands u) ;;
        run_all env u fuel (setup_commands u)) ;;
     run_all env u fuel (ray_start_commands u)).
Proof.
  destruct (fingerprint_matches tags (runtime_hash u)).
  - apply (staged_bind [] (fun _ => [])); [reflexivity | |
      intros _; apply staged_run_all].
    apply (staged_quiet ordinary), within_ret.
  - apply (staged_bind
             [VStatus STATUS_SYNCING_FILES; VStatus STATUS_SETTING_UP]
             (fun _ => [])); [reflexivity | |
      intros _; apply staged_run_all].
    apply (staged_bind [VStatus STATUS_SYNCING_FILES]
             (fun _ => [VStatus STATUS_SETTING_UP]));
      [reflexivity | apply staged_write | intros _].
    apply (staged_bind [] (fun _ => [VStatus STATUS_SETTING_UP]));
      [reflexivity | | intros _].
    { apply (staged_quiet ordinary).
      eapply planned_is_within. apply planned_sync_file_mounts. }
    apply (staged_bind [VStatus STATUS_SETTING_UP] (fun _ => []));
      [reflexivity | apply staged_write | intros _].
    apply (staged_bind [] (fun _ => []));
      [reflexivity | apply staged_run_all | intros _; apply staged_run_all].
Qed.

Lemma status_plan_fingerprint u t t' :
  tags_get TAG_RAY_RUNTIME_CONFIG t = tags_get TAG_RAY_RUNTIME_CONFIG t' ->
  status_plan u t = status_plan u t'.
Proof. unfold status_plan, fingerprint_matches. now intros ->. Qed.

Lemma staged_do_update u fuel : staged (status_plan u) (do_update env u fuel).
Proof.
  unfold do_update.
  apply (staged_bind [] (status_plan u));
    [apply status_plan_fingerprint | | intros _].
  { destruct (remove_node_from_known_hosts_before_use u).
    - apply (staged_quiet is_Exception).
      eapply within_weaken;
        [apply background_off_tags | intros e He; exact He
        | apply within_remove_node_from_known_hosts].
    - apply (staged_quiet is_Exception), within_ret. }
  apply (staged_bind [VStatus STATUS_WAITING_FOR_SSH]
           (fun t => if fingerprint_matches t (runtime_hash u)
                     then []
                     else [VStatus STATUS_SYNCING_FILES;
                           VStatus STATUS_SETTING_UP]));
    [unfold fingerprint_matches; now intros t t' -> | apply staged_write
    | intros _].
  apply (staged_bind [] (fun t => if fingerprint_matches t (runtime_hash u)
                     then []
                     else [VStatus STATUS_SYNCING_FILES;
                           VStatus STATUS_SETTING_UP]));
    [unfold fingerprint_matches; now intros t t' ->
    | apply (staged_quiet ordinary), within_time_time | intros now].
  apply (staged_bind [] (fun t => if fingerprint_matches t (runtime_hash u)
                     then []
                     else [VStatus STATUS_SYNCING_FILES;
                           VStatus STATUS_SETTING_UP]));
    [unfold fingerprint_matches; now intros t t' -> | | intros _].
  { apply (staged_quiet ordinary).
    eapply within_weaken;
      [apply poll_off_tags | intros e He; exact He
      | apply within_wait_ready_loop]. }
  apply (staged_read
           (fun t => if fingerprint_matches t (runtime_hash u)
                     then []
                     else [VStatus STATUS_SYNCING_FILES;
                           VStatus STATUS_SETTING_UP])).
  intros tags. apply staged_after_read.
Qed.

End Stages.

Lemma in_firstn {A} (x : A) n : forall l, In x (firstn n l) -> In x l.
Proof.
  induction n as [| n IH]; intros [| y l]; simpl; try tauto.
  intros [H | H]; [left; exact H | right; apply IH, H].
Qed.

Lemma TagKey_eqb_refl k : TagKey_eqb k k = true.
Proof. destruct k; simpl; try reflexivity. apply String.eqb_refl. Qed.

Lemma tags_get_put_same k v t : tags_get k (tags_put k v t) = Some v.
Proof.
  induction t as [| [k0 v0] t IH]; simpl.
  - now rewrite TagKey_eqb_refl.
  - destruct (TagKey_eqb k k0) eqn:E; simpl.
    + now rewrite TagKey_eqb_refl.
    + now rewrite E.
Qed.

(** X16.  The status tag during [NodeUpdater.do_update].  The values
    written to it are, in this order and up to the point where the update
    fails: [waiting-for-ssh], and then, only when the stored fingerprint
    differs from the desired one, [syncing-files] and [setting-up]; an
    update that returns normally has written all of them.  So
    [do_update] itself writes neither [up-to-date] nor [update-failed],
    and it leaves the stored fingerprint as it was. *)
Theorem do_update_status_in_order env u fuel s r s' :
  do_update env u fuel s = Done r s' ->
  exists evs,
    trace s' = trace s ++ evs /\
    tags_get TAG_RAY_RUNTIME_CONFIG (node_tags s') =
      tags_get TAG_RAY_RUNTIME_CONFIG (node_tags s) /\
    (fingerprint_matches (node_tags s) (runtime_hash u) = true ->
     (exists n,
         status_writes evs = firstn n [VStatus STATUS_WAITING_FOR_SSH]) /\
     (r = Ok tt -> status_writes evs = [VStatus STATUS_WAITING_FOR_SSH])) /\
    (fingerprint_matches (node_tags s) (runtime_hash u) = false ->
     (exists n,
         status_writes evs =
           firstn n [VStatus STATUS_WAITING_FOR_SSH;
                     VStatus STATUS_SYNCING_FILES;
                     VStatus STATUS_SETTING_UP]) /\
     (r = Ok tt ->
      status_writes evs =
        [VStatus STATUS_WAITING_FOR_SSH; VStatus STATUS_SYNCING_FILES;
         VStatus STATUS_SETTING_UP])).
Proof.
  intros H.
  destruct (staged_do_update env u fuel s r s' H) as (evs & G & N & F).
  exists evs. split; [apply G |]. split.
  - destruct G as (_ & -> & _ & _ & K). now apply replay_keeps.
  - unfold status_plan in N, F.
    split; intros Hm; rewrite Hm in N, F; (split; [exact N |]);
      intros ->; now apply F.
Qed.

Lemma do_update_status_in_order_witness :
  do_update Sample.calm Sample.kube_updater 5
    (Sample.fresh Sample.uninitialized) =
    Done (Ok tt)
      (Sample.final (do_update Sample.calm Sample.kube_updater 5
                       (Sample.fresh Sample.uninitialized))) /\
  exists evs,
    trace (Sample.final (do_update Sample.calm Sample.kube_updater 5
                           (Sample.fresh Sample.uninitialized))) =
      trace (Sample.fresh Sample.uninitialized) ++ evs /\
    tags_get TAG_RAY_RUNTIME_CONFIG
      (node_tags
         (Sample.final (do_update Sample.calm Sample.kube_updater 5
                          (Sample.fresh Sample.uninitialized)))) =
      tags_get TAG_RAY_RUNTIME_CONFIG
        (node_tags (Sample.fresh Sample.uninitialized)) /\
    (fingerprint_matches (node_tags (Sample.fresh Sample.uninitialized))
       (runtime_hash Sample.kube_updater) = true ->
     (exists n,
         status_writes evs = firstn n [VStatus STATUS_WAITING_FOR_SSH]) /\
     (@Ok unit tt = Ok tt ->
      status_writes evs = [VStatus STATUS_WAITING_FOR_SSH])) /\
    (fingerprint_matches (node_tags (Sample.fresh Sample.uninitialized))
       (runtime_hash Sample.kube_updater) = false ->
     (exists n,
         status_writes evs =
           firstn n [VStatus STATUS_WAITING_FOR_SSH;
                     VStatus STATUS_SYNCING_FILES;
                     VStatus STATUS_SETTING_UP]) /\
     (@Ok unit tt = Ok tt ->
      status_writes evs =
        [VStatus STATUS_WAITING_FOR_SSH; VStatus STATUS_SYNCING_FILES;
         VStatus STATUS_SETTING_UP])).
Proof.
  assert (H : do_update Sample.calm Sample.kube_updater 5
                (Sample.fresh Sample.uninitialized) =
              Done (Ok tt)
                (Sample.final (do_update Sample.calm Sample.kube_updater 5
                                 (Sample.fresh Sample.uninitialized))))
    by (vm_compute; reflexivity).
  split; [exact H |].
  exact (do_update_status_in_order Sample.calm Sample.kube_updater 5
           (Sample.fresh Sample.uninitialized) (Ok tt) _ H).
Defined.

(* ================================================================== *)
(** * What a run leaves in the tags *)
(* ================================================================== *)

Section RunTags.

Variable env : Env.
Variable u : NodeUpdater.
Variable fuel : nat.

(** The [except Exception as e] block of [run]. *)
Let handler (e : Exn) : M unit :=
  error_str <- describe_error e "" ;;
  emit env (EvLogError (LogText (log_prefix u ++ "Error updating " ++
                                 error_str)%string)) ;;
  provider_set_node_tags env
    [(TAG_RAY_NODE_STATUS, VStatus STATUS_UPDATE_FAILED)] ;;
  raise e.

Lemma staged_raise {A} plan e : staged plan (@raise A e).
Proof.
  intros s r s' E. inversion E; subst. exists [].
  split; [apply grows_refl |]. split; [exists O; reflexivity | intros []].
Qed.

Lemma staged_handler e :
  staged (fun _ => [VStatus STATUS_UPDATE_FAILED]) (handler e).
Proof.
  unfold handler.
  apply (staged_bind [] (fun _ => [VStatus STATUS_UPDATE_FAILED]));
    [reflexivity | | intros str].
  { apply (staged_quiet ordinary), within_describe_error. }
  apply (staged_bind [] (fun _ => [VStatus STATUS_UPDATE_FAILED]));
    [reflexivity | | intros _].
  { apply (staged_quiet ordinary), within_emit;
      [reflexivity | discriminate]. }
  apply (staged_bind [VStatus STATUS_UPDATE_FAILED] (fun _ => []));
    [reflexivity | apply staged_write | intros _; apply staged_raise].
Qed.

Lemma handler_raises e s r s1 :
  is_Exception e = true -> handler e s = Done r s1 ->
  exists e', r = Raise e' /\ is_Exception e' = true.
Proof.
  intros He H. unfold handler, describe_error, bind in H.
  destruct (hasattr_cmd e); [destruct (getattr_returncode e) |];
    simpl in H; inversion H; subst; eauto.
Qed.

(** The guarded update of [run]: what it writes to the status tag, and
    that it raises nothing but an [Exception]. *)
Lemma guard_result s r s1 :
  try_except (do_update env u fuel) is_Exception handler s = Done r s1 ->
  exists evs,
    grows keeps_fingerprint s s1 evs /\
    raises_in is_Exception r /\
    exists n tail,
      status_writes evs = firstn n (status_plan u (node_tags s)) ++ tail /\
      (tail = [] \/ (tail = [VStatus STATUS_UPDATE_FAILED] /\ ~ is_ok r)).
Proof.
  intros H. unfold try_except in H.
  destruct (do_update env u fuel s) as [[[] | e] s0 |] eqn:D;
    [| | discriminate].
  - inversion H; subst.
    destruct (staged_do_update env u fuel s _ _ D) as (evs & G & [n I] & _).
    exists evs. split; [exact G |]. split; [exact Logic.I |].
    exists n, []. rewrite app_nil_r. auto.
  - destruct (reads_then_do_update env u fuel s _ _ D) as (ev0 & _ & R & _).
    simpl in R. rewrite R in H.
    destruct (staged_do_update env u fuel s _ _ D) as (evs & G & [n I] & _).
    destruct (staged_handler e s0 r s1 H) as (ev2 & G2 & [n2 I2] & _).
    destruct (handler_raises e s0 r s1 R H) as (e' & -> & He').
    exists (evs ++ ev2). split; [eapply grows_trans; eauto |].
    split; [exact He' |].
    exists n, (status_writes ev2). rewrite status_writes_app, I.
    split; [reflexivity |]. rewrite I2.
    destruct n2 as [| [| n2]]; simpl; auto.
Qed.

(** A run is its guarded update followed, when that went well, by the
    final write of the status and the fingerprint. *)
Lemma run_parts s r s' :
  NodeUpdater_run env u fuel s = Done r s' ->
  exists r1 s1,
    try_except (do_update env u fuel) is_Exception handler s = Done r1 s1 /\
    ((r1 = Ok tt /\ r = Ok tt /\
      node_tags s' =
        tags_update [(TAG_RAY_NODE_STATUS, VStatus STATUS_UP_TO_DATE);
                     (TAG_RAY_RUNTIME_CONFIG, VStr (runtime_hash u))]
          (node_tags s1) /\
      trace s' =
        trace s1 ++
        [(clock s1,
          EvSetNodeTags
            [(TAG_RAY_NODE_STATUS, VStatus STATUS_UP_TO_DATE);
             (TAG_RAY_RUNTIME_CONFIG, VStr (runtime_hash u))])]) \/
     (exists e, r1 = Raise e /\ r = Raise e /\ s' = s1)).
Proof.
  unfold NodeUpdater_run. fold handler. intros H. unfold bind at 1 in H.
  destruct (try_except (do_update env u fuel) is_Exception handler s)
    as [[[] | e] s1 |] eqn:G; [| | discriminate].
  - exists (Ok tt), s1. split; [reflexivity |]. left.
    unfold provider_set_node_tags, set_exitcode, bind in H. simpl in H.
    inversion H; subst. simpl. auto.
  - exists (Raise e), s1. split; [reflexivity |]. right.
    inversion H; subst. eauto.
Qed.

End RunTags.

Lemma final_write_recorded h t :
  tags_get TAG_RAY_NODE_STATUS
    (tags_update [(TAG_RAY_NODE_STATUS, VStatus STATUS_UP_TO_DATE);
                  (TAG_RAY_RUNTIME_CONFIG, VStr h)] t) =
    Some (VStatus STATUS_UP_TO_DATE) /\
  fingerprint_matches
    (tags_update [(TAG_RAY_NODE_STATUS, VStatus STATUS_UP_TO_DATE);
                  (TAG_RAY_RUNTIME_CONFIG, VStr h)] t) h = true.
Proof.
  unfold tags_update, fingerprint_matches. simpl. split.
  - rewrite tags_get_put_other by reflexivity. apply tags_get_put_same.
  - rewrite tags_get_put_same. simpl. apply String.eqb_refl.
Qed.

(** X17.  A run that returns normally leaves the status [up-to-date] and
    the desired fingerprint in the tags of the node.  As long as the tags
    stay like that, a further update of the same configuration takes the
    short way: it writes no status but [waiting-for-ssh], and after
    reading the tags it calls the runner for the ray-start commands
    only. *)
Theorem run_success_is_recorded env u fuel s s' :
  NodeUpdater_run env u fuel s = Done (Ok tt) s' ->
  tags_get TAG_RAY_NODE_STATUS (node_tags s') =
    Some (VStatus STATUS_UP_TO_DATE) /\
  fingerprint_matches (node_tags s') (runtime_hash u) = true /\
  forall env2 fuel2 s2 r2 s3,
    node_tags s2 = node_tags s' ->
    do_update env2 u fuel2 s2 = Done r2 s3 ->
    exists evs,
      trace s3 = trace s2 ++ evs /\
      (exists n,
          status_writes evs = firstn n [VStatus STATUS_WAITING_FOR_SSH]) /\
      forall post, after_tag_read evs = Some post ->
        exists n, invocations post = firstn n (run_plan (ray_start_commands u)).
Proof.
  intros H.
  destruct (run_parts env u fuel s _ _ H)
    as (r1 & s1 & _ & [(_ & _ & N & _) | (e & _ & E & _)]);
    [| discriminate].
  destruct (final_write_recorded (runtime_hash u) (node_tags s1)) as (A & B).
  rewrite <- N in A, B. split; [exact A |]. split; [exact B |].
  intros env2 fuel2 s2 r2 s3 Ht H2. rewrite <- Ht in B.
  destruct (staged_do_update env2 u fuel2 s2 r2 s3 H2)
    as (evs & G & Ns & _).
  destruct (reads_then_do_update env2 u fuel2 s2 r2 s3 H2)
    as (evs' & G' & _ & _ & _ & P).
  assert (E : evs' = evs).
  { destruct G as (T & _), G' as (T' & _). rewrite T in T'.
    now apply app_inv_head in T'. }
  subst evs'. exists evs. split; [apply G |].
  unfold status_plan in Ns. unfold update_plan in P. rewrite B in Ns, P.
  split; [exact Ns |]. intros post Hp. now apply P.
Qed.

Lemma run_success_is_recorded_witness :
  NodeUpdater_run Sample.calm Sample.kube_updater 5
    (Sample.fresh Sample.uninitialized) =
    Done (Ok tt)
      (Sample.final
         (NodeUpdater_run Sample.calm Sample.kube_updater 5
            (Sample.fresh Sample.uninitialized))) /\
  tags_get TAG_RAY_NODE_STATUS
    (node_tags
       (Sample.final
          (NodeUpdater_run Sample.calm Sample.kube_updater 5
             (Sample.fresh Sample.uninitialized)))) =
    Some (VStatus STATUS_UP_TO_DATE) /\
  fingerprint_matches
    (node_tags
       (Sample.final
          (NodeUpdater_run Sample.calm Sample.kube_updater 5
             (Sample.fresh Sample.uninitialized))))
    (runtime_hash Sample.kube_updater) = true /\
  forall env2 fuel2 s2 r2 s3,
    node_tags s2 =
      node_tags
        (Sample.final
           (NodeUpdater_run Sample.calm Sample.kube_updater 5
              (Sample.fresh Sample.uninitialized))) ->
    do_update env2 Sample.kube_updater fuel2 s2 = Done r2 s3 ->
    exists evs,
      trace s3 = trace s2 ++ evs /\
      (exists n,
          status_writes evs = firstn n [VStatus STATUS_WAITING_FOR_SSH]) /\
      forall post, after_tag_read evs = Some post ->
        exists n,
          invocations post =
            firstn n (run_plan (ray_start_commands Sample.kube_updater)).
Proof.
  assert (H : NodeUpdater_run Sample.calm Sample.kube_updater 5
                (Sample.fresh Sample.uninitialized) =
              Done (Ok tt)
                (Sample.final
                   (NodeUpdater_run Sample.calm Sample.kube_updater 5
                      (Sample.fresh Sample.uninitialized))))
    by (vm_compute; reflexivity).
  split; [exact H |].
  exact (run_success_is_recorded Sample.calm Sample.kube_updater 5
           (Sample.fresh Sample.uninitialized) _ H).
Defined.

(** X18.  A run that fails raises an [Exception], never a bare
    [SystemExit]; it has not written [up-to-date] to the status tag, and
    the fingerprint stored for the node is the one that was there before
    the run, so that the next update does not take the node for
    configured. *)
Theorem run_failure_keeps_fingerprint env u fuel s e s' :
  NodeUpdater_run env u fuel s = Done (Raise e) s' ->
  is_Exception e = true /\
  tags_get TAG_RAY_RUNTIME_CONFIG (node_tags s') =
    tags_get TAG_RAY_RUNTIME_CONFIG (node_tags s) /\
  exists evs,
    trace s' = trace s ++ evs /\
    ~ In (VStatus STATUS_UP_TO_DATE) (status_writes evs).
Proof.
  intros H.
  destruct (run_parts env u fuel s _ _ H)
    as (r1 & s1 & G & [(_ & E & _) | (e' & -> & E & ->)]);
    [discriminate |].
  inversion E; subst e'.
  destruct (guard_result env u fuel s _ _ G)
    as (evs & Gr & R & n & tail & I & Ht).
  split; [exact R |]. split.
  - destruct Gr as (_ & -> & _ & _ & K). now apply replay_keeps.
  - exists evs. split; [apply Gr |]. rewrite I. intros Hin.
    apply in_app_or in Hin. destruct Hin as [Hin | Hin].
    + apply in_firstn in Hin. unfold status_plan in Hin.
      destruct (fingerprint_matches (node_tags s) (runtime_hash u));
        simpl in Hin; intuition discriminate.
    + destruct Ht as [-> | (-> & _)]; simpl in Hin; intuition discriminate.
Qed.

Lemma run_failure_keeps_fingerprint_witness :
  NodeUpdater_run Sample.gone Sample.kube_updater 5
    (Sample.fresh Sample.uninitialized) =
    Done (Raise unable_to_connect)
      (Sample.final
         (NodeUpdater_run Sample.gone Sample.kube_updater 5
            (Sample.fresh Sample.uninitialized))) /\
  is_Exception unable_to_connect = true /\
  tags_get TAG_RAY_RUNTIME_CONFIG
    (node_tags
       (Sample.final
          (NodeUpdater_run Sample.gone Sample.kube_updater 5
             (Sample.fresh Sample.uninitialized)))) =
    tags_get TAG_RAY_RUNTIME_CONFIG
      (node_tags (Sample.fresh Sample.uninitialized)) /\
  exists evs,
    trace (Sample.final
             (NodeUpdater_run Sample.gone Sample.kube_updater 5
                (Sample.fresh Sample.uninitialized))) =
      trace (Sample.fresh Sample.uninitialized) ++ evs /\
    ~ In (VStatus STATUS_UP_TO_DATE) (status_writes evs).
Proof.
  assert (H : NodeUpdater_run Sample.gone Sample.kube_updater 5
                (Sample.fresh Sample.uninitialized) =
              Done (Raise unable_to_connect)
                (Sample.final
                   (NodeUpdater_run Sample.gone Sample.kube_updater 5
                      (Sample.fresh Sample.uninitialized))))
    by (vm_compute; reflexivity).
  split; [exact H |].
  exact (run_failure_keeps_fingerprint Sample.gone Sample.kube_updater 5
           (Sample.fresh Sample.uninitialized) _ _ H).
Defined.

(** X19.  When [ssh-keygen] never runs out of its time, a run with fuel
    for more than 300 rounds of waiting always ends, and the status tag
    stored for the node tells how: [up-to-date], with the result code 0,
    after a normal return, and [update-failed], with the result code left
    as it was, after a failure. *)
Theorem run_ends_with_status env u fuel s :
  (forall h argv, subprocess_run env h argv <> RunTimedOut) ->
  (300 < fuel)%nat ->
  exists r s',
    NodeUpdater_run env u fuel s = Done r s' /\
    (r = Ok tt ->
     tags_get TAG_RAY_NODE_STATUS (node_tags s') =
       Some (VStatus STATUS_UP_TO_DATE) /\
     exitcode s' = Some 0) /\
    (forall e, r = Raise e ->
     tags_get TAG_RAY_NODE_STATUS (node_tags s') =
       Some (VStatus STATUS_UPDATE_FAILED) /\
     exitcode s' = exitcode s).
Proof.
  intros Hk Hf.
  destruct (total_done _ _ (total_NodeUpdater_run env u fuel Hf s))
    as (r & s' & H).
  exists r, s'. split; [exact H |].
  destruct (run_exitcode env u fuel s r s' H) as (X0 & X1).
  destruct (run_parts env u fuel s _ _ H)
    as (r1 & s1 & G & [(_ & -> & N & _) | (e' & -> & -> & ->)]).
  - split; [| discriminate]. intros _. split; [| exact (X0 eq_refl)].
    rewrite N. apply final_write_recorded.
  - split; [discriminate |]. intros e E. inversion E; subst e'.
    split; [| exact (X1 _ eq_refl)].
    destruct (guard_result env u fuel s _ _ G) as (evs & Gr & _).
    destruct (run_status_when_cleanup_ends env Hk u fuel s _ _ H)
      as (evs' & T' & _ & F).
    destruct (F e eq_refl) as (pre & t & ->).
    destruct Gr as (T & -> & _).
    rewrite T in T'. apply app_inv_head in T'. subst evs.
    rewrite replay_app. unfold replay at 1. simpl. unfold tags_update. simpl.
    apply tags_get_put_same.
Qed.

Lemma run_ends_with_status_witness :
  (forall h argv, subprocess_run Sample.calm h argv <> RunTimedOut) /\
  (300 < 301)%nat /\
  exists r s',
    NodeUpdater_run Sample.calm Sample.ssh_updater 301
      (Sample.fresh Sample.uninitialized) = Done r s' /\
    (r = Ok tt ->
     tags_get TAG_RAY_NODE_STATUS (node_tags s') =
       Some (VStatus STATUS_UP_TO_DATE) /\
     exitcode s' = Some 0) /\
    (forall e, r = Raise e ->
     tags_get TAG_RAY_NODE_STATUS (node_tags s') =
       Some (VStatus STATUS_UPDATE_FAILED) /\
     exitcode s' = exitcode (Sample.fresh Sample.uninitialized)).
Proof.
  split; [intros h argv; discriminate |]. split; [lia |].
  exact (run_ends_with_status Sample.calm Sample.ssh_updater 301
           (Sample.fresh Sample.uninitialized)
           ltac:(intros h argv; discriminate) ltac:(lia)).
Defined.

(* ================================================================== *)
(** * An update through the Kubernetes runner *)
(* ================================================================== *)

Section KubeFootprint.

Variable env : Env.
Variable u : NodeUpdater.
Variable r : KubernetesCommandRunner.
Variable fuel : nat.
Hypothesis kube_runner : cmd_runner u = Kubernetes r.

Abbreviation kb := (within kube_event is_Exception).

Lemma kb_time_sleep secs : kb (time_sleep env secs).
Proof.
  unfold time_sleep. destruct (secs <? 0) eqn:E; bg_tac.
  apply (within_state _ _ (fun _ => tt)
           (fun s => mkState (clock s + secs) (node_tags s) (ssh_ip s)
                       (exitcode s) (trace s))).
  intros; simpl; repeat split; lia.
Qed.

Lemma kb_check_call args : kb (check_call env args).
Proof. unfold check_call. bg_tac. Qed.

Lemma kb_check_output args : kb (check_output env args).
Proof. unfold check_output. bg_tac. Qed.

Lemma kb_run_cmd cmd timeout : kb (run_cmd env (cmd_runner u) fuel cmd timeout).
Proof.
  pose proof kb_check_call. pose proof kb_check_output.
  rewrite kube_runner. unfold run_cmd, runner_run, k_run.
  cbn [pf_truthy]. rewrite andb_false_r. bg_tac.
Qed.

Lemma kb_rsync_up source target : kb (rsync_up env u fuel source target).
Proof.
  pose proof kb_check_call.
  unfold rsync_up, runner_run_rsync_up. rewrite kube_runner.
  unfold k_run_rsync_up. bg_tac.
Qed.

Lemma kb_for_each {A} (l : list A) (body : A -> M unit) :
  (forall a, kb (body a)) -> kb (for_each l body).
Proof.
  intros Hb. induction l as [| a l IH]; simpl; bg_tac.
Qed.

Lemma kb_sync_file_mounts :
  kb (sync_file_mounts env u fuel (rsync_up env u fuel)).
Proof.
  pose proof kb_run_cmd. pose proof kb_rsync_up.
  unfold sync_file_mounts. apply kb_for_each. intros [remote locl].
  unfold sync_file_mount. bg_tac.
Qed.

Lemma kb_run_all cmds : kb (run_all env u fuel cmds).
Proof. unfold run_all. apply kb_for_each. intros c. apply kb_run_cmd. Qed.

Lemma kb_wait_ready_loop n deadline :
  kb (wait_ready_loop env n u fuel deadline).
Proof.
  pose proof (within_time_time kube_event is_Exception).
  pose proof kb_time_sleep. pose proof kb_run_cmd.
  assert (forall e colon, kb (describe_error e colon)).
  { intros e colon. eapply within_weaken;
      [| | apply (within_describe_error kube_event)];
      [auto | apply ordinary_is_Exception]. }
  induction n as [| n IH]; simpl.
  - intros s r0 s' E. discriminate.
  - unfold is_terminated, unable_to_connect. bg_tac.
Qed.

Lemma kb_do_update :
  remove_node_from_known_hosts_before_use u = false ->
  kb (do_update env u fuel).
Proof.
  intros Hc.
  pose proof (within_time_time kube_event is_Exception).
  pose proof kb_wait_ready_loop. pose proof kb_sync_file_mounts.
  pose proof kb_run_all.
  assert (forall tags, kb (provider_set_node_tags env tags))
    by (intros; now apply within_set_node_tags).
  assert (kb (provider_node_tags env)).
  { unfold provider_node_tags. bg_tac.
    apply (within_state _ _ node_tags (fun s => s)).
    intros; repeat split; lia. }
  unfold do_update, wait_ready. rewrite Hc. bg_tac.
Qed.

End KubeFootprint.

(** X20.  An update through the Kubernetes runner with the known-hosts
    cleanup switched off never asks the provider for an address of the
    node, runs no [ssh-keygen] and starts no port forward; and it raises
    nothing but an [Exception]. *)
Theorem kube_update_asks_no_address env u r fuel s res s' :
  cmd_runner u = Kubernetes r ->
  remove_node_from_known_hosts_before_use u = false ->
  do_update env u fuel s = Done res s' ->
  raises_in is_Exception res /\
  exists evs,
    trace s' = trace s ++ evs /\
    Forall (fun te => kube_event (snd te) = true) evs.
Proof.
  intros Hr Hc H.
  destruct (kb_do_update env u r fuel Hr Hc s res s' H) as (evs & G & R).
  split; [exact R |]. exists evs. split; apply G.
Qed.

Lemma kube_update_asks_no_address_witness :
  cmd_runner Sample.kube_updater = Kubernetes Sample.kube /\
  remove_node_from_known_hosts_before_use Sample.kube_updater = false /\
  do_update Sample.calm Sample.kube_updater 5
    (Sample.fresh Sample.uninitialized) =
    Done (Ok tt)
      (Sample.final (do_update Sample.calm Sample.kube_updater 5
                       (Sample.fresh Sample.uninitialized))) /\
  raises_in is_Exception (@Ok unit tt) /\
  exists evs,
    trace (Sample.final (do_update Sample.calm Sample.kube_updater 5
                           (Sample.fresh Sample.uninitialized))) =
      trace (Sample.fresh Sample.uninitialized) ++ evs /\
    Forall (fun te => kube_event (snd te) = true) evs.
Proof.
  assert (H : do_update Sample.calm Sample.kube_updater 5
                (Sample.fresh Sample.uninitialized) =
              Done (Ok tt)
                (Sample.final (do_update Sample.calm Sample.kube_updater 5
                                 (Sample.fresh Sample.uninitialized))))
    by (vm_compute; reflexivity).
  split; [reflexivity |]. split; [reflexivity |]. split; [exact H |].
  exact (kube_update_asks_no_address Sample.calm Sample.kube_updater
           Sample.kube 5 (Sample.fresh Sample.uninitialized) (Ok tt) _
           eq_refl eq_refl H).
Defined.

(* ================================================================== *)
(** * The failure handler of a run *)
(* ================================================================== *)

(** X21.  When the update fails with an error that the handler of [run]
    can describe (any [Exception] but [TimeoutExpired]), [run] logs one
    error, then writes [update-failed] to the status tag, and raises the
    very error the update failed with.  The logged text ends with
    [str(e)], or for a failed process with its exit status followed by
    the joined command; the command of the Kubernetes runner being one
    shell line, joining it puts a space between every two of its
    characters. *)
Theorem run_reports_and_reraises env u fuel s e s0 :
  do_update env u fuel s = Done (Raise e) s0 ->
  ordinary e = true ->
  exists text s1 t1 t2,
    NodeUpdater_run env u fuel s = Done (Raise e) s1 /\
    trace s1 =
      trace s0 ++
      [(t1, EvLogError (LogText (log_prefix u ++ "Error updating " ++
                                 text)%string));
       (t2, EvSetNodeTags
              [(TAG_RAY_NODE_STATUS, VStatus STATUS_UPDATE_FAILED)])] /\
    (hasattr_cmd e = None -> text = str_exn e) /\
    (forall rc line, e = CalledProcessError rc (ShellCommand line) ->
       text = ("(Exit Status " ++ PyStr.str_of_Z rc ++ ") " ++
               spaced line)%string) /\
    (forall rc argv, e = CalledProcessError rc (Argv argv) ->
       text = ("(Exit Status " ++ PyStr.str_of_Z rc ++ ") " ++
               PyStr.join " " argv)%string).
Proof.
  intros H He.
  destruct (describe_ordinary e "" s0 He) as (text & D).
  unfold NodeUpdater_run. unfold bind at 1.
  rewrite (try_caught _ _ _ _ _ _ H (ordinary_is_Exception _ He)).
  rewrite (bind_ok _ _ _ _ _ D).
  unfold provider_set_node_tags, bind. simpl.
  do 4 eexists. split; [reflexivity |]. split.
  { simpl. rewrite <- app_assoc. reflexivity. }
  unfold describe_error in D.
  split; [| split].
  - intros Hn. rewrite Hn in D. now inversion D.
  - intros rc line ->. simpl in D. now inversion D.
  - intros rc argv ->. simpl in D. now inversion D.
Qed.

Lemma run_reports_and_reraises_witness :
  do_update Sample.start1_fails Sample.kube_updater 5 Sample.matching =
    Done (Raise (CalledProcessError 1 (Sample.kube_line "start1")))
      (Sample.final
         (do_update Sample.start1_fails Sample.kube_updater 5
            Sample.matching)) /\
  ordinary (CalledProcessError 1 (Sample.kube_line "start1")) = true /\
  exists text s1 t1 t2,
    NodeUpdater_run Sample.start1_fails Sample.kube_updater 5
      Sample.matching =
      Done (Raise (CalledProcessError 1 (Sample.kube_line "start1"))) s1 /\
    trace s1 =
      trace (Sample.final
               (do_update Sample.start1_fails Sample.kube_updater 5
                  Sample.matching)) ++
      [(t1, EvLogError
              (LogText (log_prefix Sample.kube_updater ++
                        "Error updating " ++ text)%string));
       (t2, EvSetNodeTags
              [(TAG_RAY_NODE_STATUS, VStatus STATUS_UPDATE_FAILED)])] /\
    (hasattr_cmd (CalledProcessError 1 (Sample.kube_line "start1")) = None ->
     text = str_exn (CalledProcessError 1 (Sample.kube_line "start1"))) /\
    (forall rc line,
       CalledProcessError 1 (Sample.kube_line "start1") =
         CalledProcessError rc (ShellCommand line) ->
       text = ("(Exit Status " ++ PyStr.str_of_Z rc ++ ") " ++
               spaced line)%string) /\
    (forall rc argv,
       CalledProcessError 1 (Sample.kube_line "start1") =
         CalledProcessError rc (Argv argv) ->
       text = ("(Exit Status " ++ PyStr.str_of_Z rc ++ ") " ++
               PyStr.join " " argv)%string).
Proof.
  assert (H : do_update Sample.start1_fails Sample.kube_updater 5
                Sample.matching =
              Done (Raise (CalledProcessError 1 (Sample.kube_line "start1")))
                (Sample.final
                   (do_update Sample.start1_fails Sample.kube_updater 5
                      Sample.matching)))
    by (vm_compute; reflexivity).
  split; [exact H |]. split; [reflexivity |].
  exact (run_reports_and_reraises Sample.start1_fails Sample.kube_updater 5
           Sample.matching _ _ H eq_refl).
Defined.

(* ================================================================== *)
(** * The steps of an update, one after the other *)
(* ================================================================== *)

Section Steps.

Variable env : Env.
Variable u : NodeUpdater.
Variable fuel : nat.

Lemma runs_app l1 l2 s s1 r s' ran1 ran2 :
  runs_steps env u fuel l1 s (Ok tt) s1 ran1 ->
  runs_steps env u fuel l2 s1 r s' ran2 ->
  runs_steps env u fuel (l1 ++ l2) s r s' (ran1 ++ ran2).
Proof.
  intros H1 H2. remember (Ok tt) as r1 eqn:Er.
  induction H1 as [s | x rest s s0 r1 s1 ran E _ IH | x rest s e s1 E];
    simpl.
  - exact H2.
  - eapply runs_ok; [exact E | now apply IH].
  - discriminate.
Qed.

Lemma runs_cut l1 l2 s e s' ran :
  runs_steps env u fuel l1 s (Raise e) s' ran ->
  runs_steps env u fuel (l1 ++ l2) s (Raise e) s' ran.
Proof.
  intros H. remember (Raise e) as r eqn:Er.
  induction H as [s | x rest s s0 r s1 ran E _ IH | x rest s e0 s1 E];
    simpl.
  - discriminate.
  - eapply runs_ok; [exact E | now apply IH].
  - now apply runs_fail.
Qed.

(** A run that returns normally has run all the steps; one that fails has
    run the steps up to the one that raised the error. *)
Lemma runs_shape steps s r s' ran :
  runs_steps env u fuel steps s r s' ran ->
  (r = Ok tt -> ran = steps) /\
  (forall e, r = Raise e ->
     exists done x rest, steps = done ++ x :: rest /\ ran = done ++ [x]).
Proof.
  induction 1 as [s | x rest s s0 r s1 ran E _ [IH1 IH2] | x rest s e s1 E].
  - split; [reflexivity | discriminate].
  - split.
    + intros Hr. now rewrite (IH1 Hr).
    + intros e Hr. destruct (IH2 e Hr) as (done & y & rest' & -> & ->).
      exists (x :: done), y, rest'. split; reflexivity.
  - split; [discriminate |]. intros e0 _.
    exists [], x, rest. split; reflexivity.
Qed.

Lemma scripted_ret : scripted env u fuel [] (ret tt).
Proof. intros s r s' E. inversion E; subst. eexists. constructor. Qed.

Lemma scripted_step x : scripted env u fuel [x] (exec_step env u fuel x).
Proof.
  intros s [[] | e] s' E.
  - eexists. eapply runs_ok; [exact E | constructor].
  - eexists. now apply runs_fail.
Qed.

Lemma scripted_bind l1 l2 (m k : M unit) :
  scripted env u fuel l1 m -> scripted env u fuel l2 k ->
  scripted env u fuel (l1 ++ l2) (m ;; k).
Proof.
  intros Hm Hk s r s' E. unfold bind in E.
  destruct (m s) as [[[] | e] s1 |] eqn:Em; [| | discriminate].
  - destruct (Hm _ _ _ Em) as (ran1 & R1).
    destruct (Hk _ _ _ E) as (ran2 & R2).
    eexists. eapply runs_app; eassumption.
  - inversion E; subst. destruct (Hm _ _ _ Em) as (ran1 & R1).
    eexists. apply runs_cut. exact R1.
Qed.

Lemma scripted_for_each {A} (l : list A) (body : A -> M unit) f :
  (forall x, scripted env u fuel (f x) (body x)) ->
  scripted env u fuel (flat_map f l) (for_each l body).
Proof.
  intros Hb. induction l as [| x l IH]; simpl.
  - apply scripted_ret.
  - apply scripted_bind; [apply Hb | exact IH].
Qed.

Lemma scripted_run_all cmds :
  scripted env u fuel (map RunCommand cmds) (run_all env u fuel cmds).
Proof.
  unfold run_all.
  replace (map RunCommand cmds) with (flat_map (fun c => [RunCommand c]) cmds)
    by (induction cmds; simpl; congruence).
  apply scripted_for_each. intros c. apply (scripted_step (RunCommand c)).
Qed.

(** The paths of a mount as [sync_file_mounts] adjusts them are the ones
    written out in [mount_steps]. *)
Lemma mount_steps_paths remote locl :
  mount_steps env (remote, locl) =
    [CheckExists locl;
     RunCommand (mkdir_cmd (fst (mount_paths env remote locl)));
     SyncUp (snd (mount_paths env remote locl))
            (fst (mount_paths env remote locl))].
Proof.
  unfold mount_steps, mount_paths, mkdir_cmd, slashed. simpl.
  destruct (os_path_isdir env locl); simpl; [| reflexivity].
  destruct (PyStr.endswith remote "/"), (PyStr.endswith locl "/");
    reflexivity.
Qed.

Lemma scripted_sync_file_mount rl :
  scripted env u fuel (mount_steps env rl)
    (sync_file_mount env u fuel (rsync_up env u fuel) (fst rl) (snd rl)).
Proof.
  destruct rl as [remote locl]. rewrite mount_steps_paths. simpl fst.
  simpl snd. unfold sync_file_mount.
  intros s r s' E.
  destruct (os_path_exists env locl) eqn:Ex; simpl in E.
  - destruct (scripted_bind [_] [_] _ _
                (scripted_step (RunCommand
                   (mkdir_cmd (fst (mount_paths env remote locl)))))
                (scripted_step (SyncUp (snd (mount_paths env remote locl))
                                  (fst (mount_paths env remote locl))))
                s r s' E) as (ran & R).
    eexists. eapply runs_ok; [| exact R]. simpl. now rewrite Ex.
  - inversion E; subst. eexists. apply runs_fail. simpl. now rewrite Ex.
Qed.

Lemma scripted_sync_mounts mounts :
  scripted env u fuel (flat_map (mount_steps env) mounts)
    (for_each mounts
       (fun rl => sync_file_mount env u fuel (rsync_up env u fuel)
                    (fst rl) (snd rl))).
Proof. apply scripted_for_each, scripted_sync_file_mount. Qed.

(** What [do_update] does once it has read the tags is a run of
    [update_steps]. *)
Lemma scripted_after_read tags :
  scripted env u fuel (update_steps env u tags)
    ((if fingerprint_matches tags (runtime_hash u)
      then ret tt
      else
        provider_set_node_tags env
          [(TAG_RAY_NODE_STATUS, VStatus STATUS_SYNCING_FILES)] ;;
        sync_file_mounts env u fuel (rsync_up env u fuel) ;;
        provider_set_node_tags env
          [(TAG_RAY_NODE_STATUS, VStatus STATUS_SETTING_UP)] ;;
        run_all env u fuel (initialization_commands u) ;;
        run_all env u fuel (setup_commands u)) ;;
     run_all env u fuel (ray_start_commands u)).
Proof.
  unfold update_steps. destruct (fingerprint_matches tags (runtime_hash u)).
  - apply (scripted_bind [] _); [apply scripted_ret | apply scripted_run_all].
  - change (SetStatus STATUS_SYNCING_FILES ::
            flat_map (mount_steps env) (file_mounts u) ++
            SetStatus STATUS_SETTING_UP ::
            map RunCommand (initialization_commands u) ++
            map RunCommand (setup_commands u) ++
            map RunCommand (ray_start_commands u))
      with ([SetStatus STATUS_SYNCING_FILES] ++
            flat_map (mount_steps env) (file_mounts u) ++
            [SetStatus STATUS_SETTING_UP] ++
            map RunCommand (initialization_commands u) ++
            map RunCommand (setup_commands u) ++
            map RunCommand (ray_start_commands u)).
    rewrite !app_assoc.
    apply scripted_bind; [| apply scripted_run_all].
    rewrite <- !app_assoc.
    apply scripted_bind; [apply (scripted_step (SetStatus _)) |].
    apply scripted_bind; [apply scripted_sync_mounts |].
    apply scripted_bind; [apply (scripted_step (SetStatus _)) |].
    apply scripted_bind; apply scripted_run_all.
Qed.

End Steps.

Section StepCalls.

Variable env : Env.
Variable u : NodeUpdater.
Variable fuel : nat.

(** A runner method leaves its mark, whether it returns or raises. *)
Lemma mark_exact {A} (X : Exn -> bool) (m : M A) mk s r s' :
  is_invocation mk = true -> within background X m ->
  (emit env mk ;; m) s = Done r s' ->
  exists evs, trace s' = trace s ++ evs /\ invocations evs = [mk].
Proof.
  intros Hi Hm E. rewrite (bind_ok _ _ _ _ _ (emit_runs env mk s)) in E.
  destruct (Hm _ _ _ E) as (ev & G & _).
  exists ((clock s, mk) :: ev). split.
  - destruct G as (T & _). rewrite T. simpl. now rewrite <- app_assoc.
  - change ((clock s, mk) :: ev) with ([(clock s, mk)] ++ ev).
    rewrite invocations_app, (invocations_background ev) by apply G.
    unfold invocations. simpl. now rewrite Hi.
Qed.

Lemma run_cmd_call c cmd timeout s r s' :
  run_cmd env c fuel cmd timeout s = Done r s' ->
  exists evs,
    trace s' = trace s ++ evs /\ invocations evs = [EvRun (Some cmd) PfNone].
Proof.
  pose proof (within_get_ssh_ip background ordinary).
  pose proof (bg_set_ssh_ip_if_required env).
  pose proof (bg_check_call env). pose proof (bg_check_output env).
  unfold run_cmd. intros E. unfold bind at 1 in E.
  destruct (runner_run env c fuel (Some cmd) timeout false false PfNone false s)
    as [[o | e] s1 |] eqn:R; [| | discriminate];
    inversion E; subst; clear E;
    (destruct c as [kr | sr]; simpl in R;
     [ unfold k_run, both_together, none_concat in R
     | unfold s_run in R ];
     (eapply (mark_exact ordinary); [reflexivity | | exact R]); bg_tac).
Qed.

Lemma rsync_up_call source target s r s' :
  rsync_up env u fuel source target s = Done r s' ->
  exists evs,
    trace s' = trace s ++ evs /\ invocations evs = [EvRsyncUp source target].
Proof.
  pose proof (within_get_ssh_ip background ordinary).
  pose proof (bg_set_ssh_ip_if_required env).
  pose proof (bg_check_call env).
  unfold rsync_up, runner_run_rsync_up. intros E.
  destruct (cmd_runner u) as [kr | sr];
    [ unfold k_run_rsync_up in E | unfold s_run_rsync_up in E ];
    (eapply (mark_exact ordinary); [reflexivity | | exact E]); bg_tac.
Qed.

(** The runner call of a step is made whether the step returns or
    raises. *)
Lemma step_exact x s r s' :
  exec_step env u fuel x s = Done r s' ->
  exists evs, trace s' = trace s ++ evs /\ invocations evs = step_calls x.
Proof.
  destruct x as [p | c | a b | v]; simpl; intros E.
  - exists []. rewrite app_nil_r.
    destruct (os_path_exists env p); inversion E; auto.
  - eapply run_cmd_call; eassumption.
  - eapply rsync_up_call; eassumption.
  - unfold provider_set_node_tags, bind in E. simpl in E.
    inversion E; subst. simpl. eexists. split; reflexivity.
Qed.

Lemma runs_trace steps s r s' ran :
  runs_steps env u fuel steps s r s' ran ->
  exists evs,
    trace s' = trace s ++ evs /\ invocations evs = flat_map step_calls ran.
Proof.
  induction 1 as [s | x rest s s0 r s1 ran E _ (ev2 & T2 & I2)
                 | x rest s e s1 E].
  - exists []. now rewrite app_nil_r.
  - destruct (step_exact _ _ _ _ E) as (ev1 & T1 & I1).
    exists (ev1 ++ ev2). split.
    + now rewrite T2, T1, app_assoc.
    + rewrite invocations_app, I1, I2. reflexivity.
  - destruct (step_exact _ _ _ _ E) as (ev1 & T1 & I1).
    exists ev1. split; [exact T1 |]. simpl. now rewrite app_nil_r.
Qed.

Lemma update_steps_fingerprint t t' :
  tags_get TAG_RAY_RUNTIME_CONFIG t = tags_get TAG_RAY_RUNTIME_CONFIG t' ->
  update_steps env u t = update_steps env u t'.
Proof. unfold update_steps, fingerprint_matches. now intros ->. Qed.

(** The way of a computation to its read of the tags: it ends before it
    reads them, having caused prelude events only, or it reads them in a
    state [s0] and from there on is a run of the steps of the update. *)
Let reaches (m : M unit) : Prop :=
  forall s r s', m s = Done r s' ->
    (exists evs,
        trace s' = trace s ++ evs /\
        Forall (fun te => prelude_event (snd te) = true) evs) \/
    (exists s0 pre t ran,
        trace s0 = trace s ++ pre ++ [(t, EvNodeTags)] /\
        Forall (fun te => prelude_event (snd te) = true) pre /\
        runs_steps env u fuel (update_steps env u (node_tags s)) s0 r s' ran).

Lemma reaches_bind {A} (m : M A) (k : A -> M unit) :
  within prelude_event is_Exception m ->
  (forall a, reaches (k a)) -> reaches (bind m k).
Proof.
  intros Hm Hk s r s' E. unfold bind in E.
  destruct (m s) as [[a | e] s1 |] eqn:Em; [| | discriminate].
  - destruct (Hm _ _ _ Em) as (ev1 & G1 & _).
    assert (F1 : Forall (fun te => prelude_event (snd te) = true) ev1)
      by apply G1.
    assert (Efp : update_steps env u (node_tags s1) =
                  update_steps env u (node_tags s)).
    { apply update_steps_fingerprint.
      destruct G1 as (_ & -> & _). now apply replay_prelude. }
    destruct G1 as (T1 & _).
    destruct (Hk a _ _ _ E)
      as [(ev2 & T2 & F2) | (s0 & pre & t & ran & T0 & Fp & R)].
    + left. exists (ev1 ++ ev2). split.
      * now rewrite T2, T1, app_assoc.
      * now apply Forall_app.
    + right. exists s0, (ev1 ++ pre), t, ran. split; [| split].
      * rewrite T0, T1. now rewrite !app_assoc.
      * now apply Forall_app.
      * now rewrite <- Efp.
  - inversion E; subst. left.
    destruct (Hm _ _ _ Em) as (ev1 & G1 & _).
    exists ev1. split; apply G1.
Qed.

Lemma reaches_read (k : Tags -> M unit) :
  (forall tags, scripted env u fuel (update_steps env u tags) (k tags)) ->
  reaches (bind (provider_node_tags env) k).
Proof.
  intros Hk s r s' E. unfold provider_node_tags, bind in E. simpl in E.
  destruct (Hk _ _ _ _ E) as (ran & R).
  right. eexists. exists [], (clock s), ran.
  split; [| split; [constructor | exact R]]. reflexivity.
Qed.

Lemma reaches_do_update : reaches (do_update env u fuel).
Proof.
  unfold do_update.
  apply reaches_bind; [| intros _].
  { destruct (remove_node_from_known_hosts_before_use u).
    - eapply within_weaken;
        [apply background_prelude | intros e He; exact He
        | apply within_remove_node_from_known_hosts].
    - apply within_ret. }
  apply reaches_bind; [now apply within_set_node_tags | intros _].
  apply reaches_bind; [apply within_time_time | intros now].
  apply reaches_bind; [| intros _].
  { eapply within_weaken;
      [apply poll_prelude | apply ordinary_is_Exception
      | apply within_wait_ready_loop]. }
  apply reaches_read. intros tags. apply scripted_after_read.
Qed.

(** [do_update], from the read of the tags on. *)
Lemma do_update_steps s r s' :
  do_update env u fuel s = Done r s' ->
  (exists evs,
      trace s' = trace s ++ evs /\
      Forall (fun te => prelude_event (snd te) = true) evs) \/
  (exists s0 pre t ran,
      trace s0 = trace s ++ pre ++ [(t, EvNodeTags)] /\
      Forall (fun te => prelude_event (snd te) = true) pre /\
      runs_steps env u fuel (update_steps env u (node_tags s)) s0 r s' ran).
Proof. apply reaches_do_update. Qed.

End StepCalls.

Lemma runs_fail_at env u fuel steps s e s' ran :
  runs_steps env u fuel steps s (Raise e) s' ran ->
  exists done x rest s1,
    steps = done ++ x :: rest /\ ran = done ++ [x] /\
    runs_steps env u fuel done s (Ok tt) s1 done /\
    exec_step env u fuel x s1 = Done (Raise e) s'.
Proof.
  intros H. remember (Raise e) as r eqn:Er.
  induction H as [s | x rest s s0 r s1 ran E _ IH | x rest s e0 s1 E].
  - discriminate.
  - destruct (IH Er) as (done & y & rest' & s2 & -> & -> & R & F).
    exists (x :: done), y, rest', s2. repeat split; auto.
    eapply runs_ok; eassumption.
  - inversion Er; subst. exists [], x, rest, s.
    repeat split; auto. constructor.
Qed.

Lemma runs_commands_fail_at env u fuel cmds s e s' ran :
  runs_steps env u fuel (map RunCommand cmds) s (Raise e) s' ran ->
  exists done c rest s1,
    cmds = done ++ c :: rest /\ ran = map RunCommand (done ++ [c]) /\
    runs_steps env u fuel (map RunCommand done) s (Ok tt) s1
      (map RunCommand done) /\
    run_cmd env (cmd_runner u) fuel c 120 s1 = Done (Raise e) s'.
Proof.
  intros H.
  destruct (runs_fail_at _ _ _ _ _ _ _ _ H)
    as (done & x & rest & s1 & Es & -> & R & F).
  apply map_eq_app in Es.
  destruct Es as (d & l2 & -> & <- & E2).
  destruct l2 as [| c l2]; [discriminate |]. simpl in E2.
  inversion E2; subst. exists d, c, l2, s1.
  repeat split; auto. now rewrite map_app.
Qed.

Lemma step_calls_commands cmds :
  flat_map step_calls (map RunCommand cmds) = run_plan cmds.
Proof.
  unfold run_plan. induction cmds as [| c l IH]; simpl; [reflexivity |].
  now rewrite IH.
Qed.

(** Claim C1, with its limits.  Split the events of a [do_update] run at
    its read of the node's tags.  Before the read the only runner calls
    are readiness polls.  After it, when the stored fingerprint equals
    [runtime_hash], the run is a run of the ray-start commands and of
    nothing else, in order, up to and including the first one that fails:
    the commands before that one returned normally, that one raised the
    error the update ends with, and none after it was started; all of
    them were run when the update returns normally.  No sync,
    initialization or setup call is made.  When the fingerprint differs,
    the run is in the same way a run of these steps: the status
    syncing-files; for each mount in order the check that the local path
    exists, the mkdir and the upload; the status setting-up; the
    initialization commands; the setup commands; the ray-start commands.
    A run that returns normally has read the tags, and with fuel for
    more than 300 rounds of waiting every run ends. *)
Theorem do_update_by_fingerprint env u fuel s :
  ((300 < fuel)%nat ->
   exists r s', do_update env u fuel s = Done r s') /\
  forall r s',
  do_update env u fuel s = Done r s' ->
  exists evs,
    trace s' = trace s ++ evs /\
    (forall e, In e (invocations (before_tag_read evs)) -> e = ready_poll) /\
    (r = Ok tt -> after_tag_read evs <> None) /\
    forall post, after_tag_read evs = Some post ->
      (fingerprint_matches (node_tags s) (runtime_hash u) = true ->
       (exists n,
           invocations post = firstn n (run_plan (ray_start_commands u))) /\
       (r = Ok tt -> invocations post = run_plan (ray_start_commands u)) /\
       (exists s0 ran,
           trace s' = trace s0 ++ post /\
           runs_steps env u fuel (map RunCommand (ray_start_commands u))
             s0 r s' ran /\
           invocations post = flat_map step_calls ran) /\
       (forall e, r = Raise e ->
          exists done c rest s1,
            ray_start_commands u = done ++ c :: rest /\
            invocations post = run_plan (done ++ [c]) /\
            run_cmd env (cmd_runner u) fuel c 120 s1 = Done (Raise e) s')) /\
      (fingerprint_matches (node_tags s) (runtime_hash u) = false ->
       (exists n,
           invocations post =
             firstn n (sync_plan env (file_mounts u) ++
                       run_plan (initialization_commands u) ++
                       run_plan (setup_commands u) ++
                       run_plan (ray_start_commands u))) /\
       (r = Ok tt ->
        invocations post =
          sync_plan env (file_mounts u) ++
          run_plan (initialization_commands u) ++
          run_plan (setup_commands u) ++
          run_plan (ray_start_commands u)) /\
       (exists s0 ran,
           trace s' = trace s0 ++ post /\
           runs_steps env u fuel
             (SetStatus STATUS_SYNCING_FILES ::
              flat_map (mount_steps env) (file_mounts u) ++
              SetStatus STATUS_SETTING_UP ::
              map RunCommand (initialization_commands u) ++
              map RunCommand (setup_commands u) ++
              map RunCommand (ray_start_commands u))
             s0 r s' ran /\
           invocations post = flat_map step_calls ran)).
Proof.
  split; [intros Hf; apply total_done; now apply total_do_update |].
  intros r s' E.
  destruct (reads_then_do_update env u fuel s r s' E)
    as (evs & G & _ & Hpre & Hread & Hplan).
  exists evs. split; [apply G |].
  split; [intros e; now apply invocations_prelude |].
  split; [intros ->; now apply Hread |].
  intros post Hp. destruct (Hplan post Hp) as [Hn Hfull].
  assert (S : exists s0 ran,
             trace s' = trace s0 ++ post /\
             runs_steps env u fuel (update_steps env u (node_tags s))
               s0 r s' ran /\
             invocations post = flat_map step_calls ran).
  { destruct G as (T & _).
    destruct (do_update_steps env u fuel s r s' E)
      as [(ev' & T' & F') | (s0 & pre & t & ran & T0 & Fp & R)].
    - rewrite T in T'. apply app_inv_head in T'. subst ev'.
      rewrite <- (app_nil_r evs), after_tag_read_prelude in Hp by exact F'.
      discriminate.
    - destruct (runs_trace _ _ _ _ _ _ _ _ R) as (post' & T' & I').
      rewrite T0, T in T'. rewrite <- !app_assoc in T'.
      apply app_inv_head in T'. subst evs.
      rewrite after_tag_read_prelude in Hp by exact Fp. simpl in Hp.
      inversion Hp; subst post'. exists s0, ran.
      split; [rewrite T, T0; now rewrite <- !app_assoc | auto]. }
  unfold update_plan, update_steps in *.
  split; intros Hm; rewrite Hm in *.
  - split; [exact Hn |]. split; [intros ->; now apply Hfull |].
    split; [exact S |]. intros e ->.
    destruct S as (s0 & ran & _ & R & I).
    destruct (runs_commands_fail_at _ _ _ _ _ _ _ _ R)
      as (done & c & rest & s1 & Ec & -> & _ & F).
    exists done, c, rest, s1. split; [exact Ec |]. split; [| exact F].
    rewrite I. apply step_calls_commands.
  - split; [exact Hn |]. split; [intros ->; now apply Hfull | exact S].
Qed.

(** A run with a matching fingerprint, seen through the theorem. *)
Lemma do_update_by_fingerprint_witness :
  (300 < 301)%nat /\
  (exists r s',
     do_update Sample.calm Sample.kube_updater 301 Sample.matching = Done r s') /\
  do_update Sample.calm Sample.kube_updater 301 Sample.matching =
    Done (Ok tt) Sample.matched_end /\
  exists evs,
    trace Sample.matched_end = trace Sample.matching ++ evs /\
    (forall e, In e (invocations (before_tag_read evs)) -> e = ready_poll) /\
    ((@Ok unit tt) = Ok tt -> after_tag_read evs <> None) /\
    forall post, after_tag_read evs = Some post ->
      (fingerprint_matches (node_tags Sample.matching) (runtime_hash Sample.kube_updater) = true ->
       (exists n,
           invocations post = firstn n (run_plan (ray_start_commands Sample.kube_updater))) /\
       ((@Ok unit tt) = Ok tt -> invocations post = run_plan (ray_start_commands Sample.kube_updater)) /\
       (exists s0 ran,
           trace Sample.matched_end = trace s0 ++ post /\
           runs_steps Sample.calm Sample.kube_updater 301 (map RunCommand (ray_start_commands Sample.kube_updater))
             s0 (@Ok unit tt) Sample.matched_end ran /\
           invocations post = flat_map step_calls ran) /\
       (forall e, (@Ok unit tt) = Raise e ->
          exists done c rest s1,
            ray_start_commands Sample.kube_updater = done ++ c :: rest /\
            invocations post = run_plan (done ++ [c]) /\
            run_cmd Sample.calm (cmd_runner Sample.kube_updater) 301 c 120 s1 = Done (Raise e) Sample.matched_end)) /\
      (fingerprint_matches (node_tags Sample.matching) (runtime_hash Sample.kube_updater) = false ->
       (exists n,
           invocations post =
             firstn n (sync_plan Sample.calm (file_mounts Sample.kube_updater) ++
                       run_plan (initialization_commands Sample.kube_updater) ++
                       run_plan (setup_commands Sample.kube_updater) ++
                       run_plan (ray_start_commands Sample.kube_updater))) /\
       ((@Ok unit tt) = Ok tt ->
        invocations post =
          sync_plan Sample.calm (file_mounts Sample.kube_updater) ++
          run_plan (initialization_commands Sample.kube_updater) ++
          run_plan (setup_commands Sample.kube_updater) ++
          run_plan (ray_start_commands Sample.kube_updater)) /\
       (exists s0 ran,
           trace Sample.matched_end = trace s0 ++ post /\
           runs_steps Sample.calm Sample.kube_updater 301
             (SetStatus STATUS_SYNCING_FILES ::
              flat_map (mount_steps Sample.calm) (file_mounts Sample.kube_updater) ++
              SetStatus STATUS_SETTING_UP ::
              map RunCommand (initialization_commands Sample.kube_updater) ++
              map RunCommand (setup_commands Sample.kube_updater) ++
              map RunCommand (ray_start_commands Sample.kube_updater))
             s0 (@Ok unit tt) Sample.matched_end ran /\
           invocations post = flat_map step_calls ran)).
Proof.
  assert (H : do_update Sample.calm Sample.kube_updater 301 Sample.matching =
              Done (Ok tt) Sample.matched_end)
    by (vm_compute; reflexivity).
  split; [lia |].
  split; [exact (proj1 (do_update_by_fingerprint Sample.calm
                          Sample.kube_updater 301 Sample.matching)
                   ltac:(lia)) |].
  split; [exact H |].
  exact (proj2 (do_update_by_fingerprint Sample.calm Sample.kube_updater 301
                  Sample.matching) (Ok tt) _ H).
Defined.

Lemma forallb_str_app p a b :
  PyStr.forallb_str p (a ++ b) =
  (PyStr.forallb_str p a && PyStr.forallb_str p b)%bool.
Proof.
  induction a as [| c a IH]; simpl; [reflexivity |].
  now rewrite IH, andb_assoc.
Qed.

Lemma forallb_str_rev p s :
  PyStr.forallb_str p (PyStr.rev s) = PyStr.forallb_str p s.
Proof.
  induction s as [| c s IH]; [reflexivity |].
  change (String c s) with (String c "" ++ s)%string at 1.
  rewrite rev_app, forallb_str_app, IH. simpl.
  now rewrite andb_true_r, andb_comm.
Qed.

Lemma drop_to_slash x y :
  PyStr.forallb_str (fun c => negb (Ascii.eqb c "/")) x = true ->
  PyStr.drop_to "/" (x ++ String "/" y) = String "/" y.
Proof.
  induction x as [| c x IH]; simpl.
  - intros _. reflexivity.
  - intros H. apply andb_true_iff in H as [Hc Hx].
    apply negb_true_iff in Hc. rewrite Hc. now apply IH.
Qed.

(** The directory part of [d/b], for a name [b] without a slash, is [d]:
    the parent directory. *)
Lemma dirname_child d b :
  d <> ""%string -> PyStr.endswith d "/" = false ->
  PyStr.forallb_str (fun c => negb (Ascii.eqb c "/")) b = true ->
  PosixPath.dirname (d ++ "/" ++ b) = d.
Proof.
  intros Hd He Hb. unfold PosixPath.dirname, PyStr.endswith in *.
  rewrite rev_app, rev_app. change (PyStr.rev "/") with "/"%string.
  rewrite str_app_assoc.
  change ("/" ++ PyStr.rev d)%string with (String "/" (PyStr.rev d)).
  rewrite drop_to_slash by (now rewrite forallb_str_rev).
  destruct (PyStr.rev d) as [| c r] eqn:Er.
  - exfalso. apply Hd. rewrite <- (rev_involutive d), Er. reflexivity.
  - cbn [PyStr.startswith] in He.
    assert (Hc : Ascii.eqb "/" c = false)
      by (rewrite Ascii.eqb_sym; exact He).
    cbn [PyStr.forallb_str]. rewrite Ascii.eqb_refl, Hc. cbn [andb].
    cbn [PyStr.lstrip]. rewrite Ascii.eqb_refl, He.
    rewrite <- Er. apply rev_involutive.
Qed.

Lemma mount_plan_steps env rl :
  mount_plan env rl = flat_map step_calls (mount_steps env rl).
Proof.
  destruct rl as [remote locl]. rewrite mount_steps_paths. reflexivity.
Qed.

Lemma sync_plan_steps env mounts :
  sync_plan env mounts =
  flat_map step_calls (flat_map (mount_steps env) mounts).
Proof.
  unfold sync_plan. induction mounts as [| rl l IH]; [reflexivity |].
  cbn [flat_map]. now rewrite flat_map_app, IH, mount_plan_steps.
Qed.

(** Claim C3.  [sync_file_mounts] ends, given fuel for the waits of the
    runner, and it walks the mounts in the order of the mapping: it is a
    run, in order and up to and including the first step that fails, of
    these steps for one mount after the other: the check that the local
    path exists, [mkdir -p] of the directory part of the remote path, the
    upload.  So the runner calls it makes are an initial part of the list
    "mkdir -p, then the sync", one pair per mount in mapping order, and
    the whole list when it returns normally; and every sync of a mount
    comes directly after the mkdir for that same mount.  The directory
    made is [os.path.dirname] of the remote path as it is synced: for a
    file [d/b] the parent directory [d], and for a directory, whose path
    then ends in a slash, the directory itself, which [mkdir -p] makes
    along with its parents. *)
Theorem sync_file_mounts_in_order env u fuel s :
  ((300 < fuel)%nat ->
   exists r s',
     sync_file_mounts env u fuel (rsync_up env u fuel) s = Done r s') /\
  (forall r s',
     sync_file_mounts env u fuel (rsync_up env u fuel) s = Done r s' ->
     exists evs,
       trace s' = trace s ++ evs /\
       (exists n, invocations evs = firstn n (sync_plan env (file_mounts u)))
       /\
       (r = Ok tt -> invocations evs = sync_plan env (file_mounts u)) /\
       (forall i source target,
           nth_error (invocations evs) i = Some (EvRsyncUp source target) ->
           exists j, i = S j /\
                     nth_error (invocations evs) j =
                       Some (EvRun (Some ("mkdir -p " ++
                                          PosixPath.dirname target)%string)
                               PfNone)) /\
       exists ran,
         runs_steps env u fuel
           (flat_map (mount_steps env) (file_mounts u)) s r s' ran /\
         invocations evs = flat_map step_calls ran) /\
  sync_plan env (file_mounts u) =
    flat_map step_calls (flat_map (mount_steps env) (file_mounts u)) /\
  (forall d b,
      d <> ""%string -> PyStr.endswith d "/" = false ->
      PyStr.forallb_str (fun c => negb (Ascii.eqb c "/")) b = true ->
      PosixPath.dirname (d ++ "/" ++ b) = d).
Proof.
  split; [| split; [| split; [apply sync_plan_steps |
                              intros d b; apply dirname_child]]].
  - intros Hf. apply total_done. unfold sync_file_mounts.
    apply total_for_each. intros a s0. now apply total_sync_file_mount.
  - intros r s' E.
    destruct (planned_sync_file_mounts env u fuel s r s' E)
      as (evs & G & _ & [n Hn] & Hfull).
    exists evs. split; [apply G |]. split; [now exists n |].
    split; [intros ->; now apply Hfull |]. split.
    + intros i source target Hi. rewrite Hn in *.
      rewrite nth_error_firstn in Hi.
      destruct (Nat.ltb i n) eqn:Lt; [| discriminate].
      destruct (sync_plan_mkdir_first _ _ _ _ _ Hi) as (j & -> & Hj).
      exists j. split; [reflexivity |].
      rewrite nth_error_firstn.
      apply Nat.ltb_lt in Lt.
      assert (Lj : Nat.ltb j n = true) by (apply Nat.ltb_lt; lia).
      rewrite Lj. exact Hj.
    + destruct (scripted_sync_mounts env u fuel (file_mounts u) s r s' E)
        as (ran & R).
      exists ran. split; [exact R |].
      destruct (runs_trace _ _ _ _ _ _ _ _ R) as (ev' & T' & I').
      destruct G as (T & _). rewrite T in T'. apply app_inv_head in T'.
      now subst ev'.
Qed.

Lemma sync_file_mounts_in_order_witness :
  (300 < 301)%nat /\
  (exists r s',
     sync_file_mounts Sample.calm Sample.kube_updater 301
    (rsync_up Sample.calm Sample.kube_updater 301) (Sample.fresh []) = Done r s') /\
  sync_file_mounts Sample.calm Sample.kube_updater 301
    (rsync_up Sample.calm Sample.kube_updater 301) (Sample.fresh []) =
    Done (Ok tt) Sample.synced /\
  (exists evs,
       trace Sample.synced = trace (Sample.fresh []) ++ evs /\
       (exists n, invocations evs = firstn n (sync_plan Sample.calm (file_mounts Sample.kube_updater)))
       /\
       ((@Ok unit tt) = Ok tt -> invocations evs = sync_plan Sample.calm (file_mounts Sample.kube_updater)) /\
       (forall i source target,
           nth_error (invocations evs) i = Some (EvRsyncUp source target) ->
           exists j, i = S j /\
                     nth_error (invocations evs) j =
                       Some (EvRun (Some ("mkdir -p " ++
                                          PosixPath.dirname target)%string)
                               PfNone)) /\
       exists ran,
         runs_steps Sample.calm Sample.kube_updater 301
           (flat_map (mount_steps Sample.calm) (file_mounts Sample.kube_updater)) (Sample.fresh []) (@Ok unit tt) Sample.synced ran /\
         invocations evs = flat_map step_calls ran) /\
  sync_plan Sample.calm (file_mounts Sample.kube_updater) =
    flat_map step_calls (flat_map (mount_steps Sample.calm) (file_mounts Sample.kube_updater)) /\
  (forall d b,
      d <> ""%string -> PyStr.endswith d "/" = false ->
      PyStr.forallb_str (fun c => negb (Ascii.eqb c "/")) b = true ->
      PosixPath.dirname (d ++ "/" ++ b) = d).
Proof.
  assert (H : sync_file_mounts Sample.calm Sample.kube_updater 301
    (rsync_up Sample.calm Sample.kube_updater 301) (Sample.fresh []) =
              Done (Ok tt) Sample.synced)
    by (vm_compute; reflexivity).
  pose proof (sync_file_mounts_in_order Sample.calm Sample.kube_updater 301
                (Sample.fresh [])) as (T & F & R).
  split; [lia |]. split; [exact (T ltac:(lia)) |]. split; [exact H |].
  split; [exact (F (Ok tt) _ H) | exact R].
Defined.

(** Claim C8, from the missing mount on.  When the mapping holds a mount
    whose local path does not exist, [sync_file_mounts] raises, and it
    does so in one of two ways.  Either every step of the mounts that
    precede the missing one returned normally, each mount having been
    given its mkdir and its upload, and the error is the assertion error
    that names the missing path; or one of those steps failed, the steps
    before it having returned normally, and the error is the one it
    raised.  In both cases the runner calls belong to the mounts that
    precede the missing one (an initial part of their mkdir-and-sync
    list): nothing is created or synced for the missing mount or for any
    mount after it. *)
Theorem sync_stops_at_missing_mount env u fuel s before remote_path
    local_path rest :
  file_mounts u = before ++ (remote_path, local_path) :: rest ->
  os_path_exists env local_path = false ->
  (300 < fuel)%nat ->
  exists e s',
    sync_file_mounts env u fuel (rsync_up env u fuel) s = Done (Raise e) s' /\
    exists evs n ran,
      trace s' = trace s ++ evs /\
      invocations evs = firstn n (sync_plan env before) /\
      invocations evs = flat_map step_calls ran /\
      ((runs_steps env u fuel (flat_map (mount_steps env) before) s
          (Ok tt) s' ran /\
        ran = flat_map (mount_steps env) before /\
        e = AssertionError local_path /\
        invocations evs = sync_plan env before) \/
       runs_steps env u fuel (flat_map (mount_steps env) before) s
         (Raise e) s' ran).
Proof.
  intros Hm Hmiss Hf. unfold sync_file_mounts. rewrite Hm, for_each_app.
  set (body := fun rl : string * string =>
                 sync_file_mount env u fuel (rsync_up env u fuel)
                   (fst rl) (snd rl)).
  assert (Ht : total (for_each before body) s)
    by (apply total_for_each; intros a s0;
        now apply total_sync_file_mount).
  destruct (total_done _ _ Ht) as (r1 & s1 & E1).
  destruct (planned_sync_mounts env u fuel before s r1 s1 E1)
    as (evs & G & _ & [n Hn] & Hfull).
  destruct (scripted_sync_mounts env u fuel before s r1 s1 E1) as (ran & R).
  assert (I : invocations evs = flat_map step_calls ran).
  { destruct (runs_trace _ _ _ _ _ _ _ _ R) as (ev' & T' & I').
    destruct G as (T & _). rewrite T in T'. apply app_inv_head in T'.
    now subst ev'. }
  destruct r1 as [[] | e].
  - rewrite (bind_ok _ _ _ _ _ E1). simpl. unfold body at 1.
    unfold sync_file_mount. simpl. rewrite Hmiss. simpl.
    exists (AssertionError local_path), s1. split; [reflexivity |].
    exists evs, n, ran. split; [apply G |]. split; [exact Hn |].
    split; [exact I |]. left.
    destruct (runs_shape _ _ _ _ _ _ _ _ R) as (Hall & _).
    split; [exact R |]. split; [now apply Hall |].
    split; [reflexivity | now apply Hfull].
  - rewrite (bind_raise _ _ _ _ _ E1).
    exists e, s1. split; [reflexivity |].
    exists evs, n, ran. split; [apply G |]. split; [exact Hn |].
    split; [exact I |]. right. exact R.
Qed.

Lemma sync_stops_at_missing_mount_witness :
  file_mounts Sample.kube_updater =
    [("/app/a", "./a")]%string ++ ("/app/b/", "./b/")%string :: [] /\
  os_path_exists Sample.b_missing "./b/" = false /\
  (300 < 301)%nat /\
  exists e s',
    sync_file_mounts Sample.b_missing Sample.kube_updater 301 (rsync_up Sample.b_missing Sample.kube_updater 301) (Sample.fresh []) = Done (Raise e) s' /\
    exists evs n ran,
      trace s' = trace (Sample.fresh []) ++ evs /\
      invocations evs = firstn n (sync_plan Sample.b_missing [("/app/a", "./a")]%string) /\
      invocations evs = flat_map step_calls ran /\
      ((runs_steps Sample.b_missing Sample.kube_updater 301 (flat_map (mount_steps Sample.b_missing) [("/app/a", "./a")]%string) (Sample.fresh [])
          (Ok tt) s' ran /\
        ran = flat_map (mount_steps Sample.b_missing) [("/app/a", "./a")]%string /\
        e = AssertionError "./b/" /\
        invocations evs = sync_plan Sample.b_missing [("/app/a", "./a")]%string) \/
       runs_steps Sample.b_missing Sample.kube_updater 301 (flat_map (mount_steps Sample.b_missing) [("/app/a", "./a")]%string) (Sample.fresh [])
         (Raise e) s' ran).
Proof.
  assert (H3 : (300 < 301)%nat) by lia.
  split; [reflexivity |]. split; [reflexivity |]. split; [exact H3 |].
  exact (sync_stops_at_missing_mount Sample.b_missing Sample.kube_updater 301
           (Sample.fresh []) [("/app/a", "./a")]%string "/app/b/" "./b/" []
           eq_refl eq_refl H3).
Defined.



